(** * AOC cleanup core: a shallow embedding of [lib/aoc_cleanup/core.py]

    The development follows the source file top to bottom: the Python
    primitives the module relies on, the helpers ([env_int], [cwd_matches],
    [cmd_matches], [proc_cmd], [is_agent_process], ...), the process table
    ([get_process_map], [get_descendants]), the safe tree, the candidate
    classifier, the keep selector, the kill decision loop and the snapshot
    pruner of [run_cleanup].

    Text is modelled as [string] (one [ascii] per character): whitespace,
    digits and case folding are the ASCII ones.  Python sets are lists read
    through membership only; Python dicts are association lists in insertion
    order with unique keys. *)

From Stdlib Require Import ZArith List String Ascii Bool Lia Arith Sorted.
Import ListNotations.

Local Open Scope string_scope.
Local Open Scope Z_scope.

(** ** Python primitives *)

Module Py.

  (** [str.isspace] on one ASCII character: TAB, LF, VT, FF, CR, FS, GS, RS,
      US and the space. *)
Definition is_space (c : ascii) : bool :=
    let n := nat_of_ascii c in
    ((9 <=? n) && (n <=? 13) || (28 <=? n) && (n <=? 32))%nat.

Fixpoint lstrip (s : string) : string :=
    match s with
    | EmptyString => EmptyString
    | String c r => if is_space c then lstrip r else s
    end.

Fixpoint rstrip (s : string) : string :=
    match s with
    | EmptyString => EmptyString
    | String c r =>
        match rstrip r with
        | EmptyString => if is_space c then EmptyString else String c EmptyString
        | r' => String c r'
        end
    end.

  (** [s.strip()] *)
Definition strip (s : string) : string := rstrip (lstrip s).

  (** Truthiness of a [str]. *)
Definition truthy (s : string) : bool :=
    match s with EmptyString => false | _ => true end.

  (** [s.startswith(p)] *)
Definition startswith (s p : string) : bool := String.prefix p s.

  (** [sub in s] *)
Fixpoint contains (sub s : string) : bool :=
    String.prefix sub s
    || match s with
       | EmptyString => false
       | String _ r => contains sub r
       end.

  (** [s.endswith(suf)] *)
Fixpoint endswith (s suf : string) : bool :=
    String.eqb suf s
    || match s with
       | EmptyString => false
       | String _ r => endswith r suf
       end.

  (** [os.path.basename(p)]: what follows the last slash. *)
Fixpoint basename (p : string) : string :=
    match p with
    | EmptyString => EmptyString
    | String c r =>
        if Ascii.eqb c "/" then basename r
        else if contains "/" r then basename r
        else p
    end.

  (** [s.split(" ", 1)[0]]: what precedes the first space. *)
Fixpoint before_space (s : string) : string :=
    match s with
    | EmptyString => EmptyString
    | String c r => if Ascii.eqb c " " then EmptyString else String c (before_space r)
    end.

  (** [s[:-n]] for [n <= len(s)], and the empty string beyond. *)
Definition drop_last (n : nat) (s : string) : string :=
    String.substring 0 (String.length s - n) s.

  (** ASCII lower case, for [re.IGNORECASE]. *)
Definition lower_ascii (c : ascii) : ascii :=
    let n := nat_of_ascii c in
    if ((65 <=? n) && (n <=? 90))%nat then ascii_of_nat (n + 32) else c.

Fixpoint lower (s : string) : string :=
    match s with
    | EmptyString => EmptyString
    | String c r => String (lower_ascii c) (lower r)
    end.

  (** A line boundary of [str.splitlines] other than CR: LF, VT, FF, FS, GS, RS. *)
Definition is_linebreak (c : ascii) : bool :=
    let n := nat_of_ascii c in
    ((10 <=? n) && (n <=? 12) || (28 <=? n) && (n <=? 30))%nat.

Fixpoint splitlines_go (s cur : string) : list string :=
    match s with
    | EmptyString => if truthy cur then [cur] else []
    | String c r =>
        if Ascii.eqb c "013" then
          match r with
          | String c' r' =>
              if Ascii.eqb c' "010" then cur :: splitlines_go r' EmptyString
              else cur :: splitlines_go r EmptyString
          | EmptyString => [cur]
          end
        else if is_linebreak c then cur :: splitlines_go r EmptyString
        else splitlines_go r (cur ++ String c EmptyString)
    end.

  (** [s.splitlines()] *)
Definition splitlines (s : string) : list string := splitlines_go s EmptyString.

  (** [s.split(None, maxsplit)]: [maxcount] counts the words still to be cut
      off; once it is exhausted the rest of the text, from its first
      non-blank character on, is the last field. *)
Fixpoint split_ws_go (s : string) (maxcount : nat) (cur : string) (inword : bool)
    : list string :=
    match s with
    | EmptyString => if inword then [cur] else []
    | String c r =>
        if inword then
          if is_space c then cur :: split_ws_go r maxcount EmptyString false
          else split_ws_go r maxcount (cur ++ String c EmptyString) true
        else if is_space c then split_ws_go r maxcount EmptyString false
        else
          match maxcount with
          | O => [s]
          | S m => split_ws_go r m (String c EmptyString) true
          end
    end.

Definition split_ws (s : string) (maxsplit : nat) : list string :=
    split_ws_go s maxsplit EmptyString false.

Definition digit_of (c : ascii) : option Z :=
    let n := nat_of_ascii c in
    if ((48 <=? n) && (n <=? 57))%nat then Some (Z.of_nat (n - 48)) else None.

  (** Decimal digits with single underscores between them. *)
Fixpoint parse_digits (s : string) (acc : Z) (after_digit : bool) : option Z :=
    match s with
    | EmptyString => if after_digit then Some acc else None
    | String c r =>
        match digit_of c with
        | Some d => parse_digits r (10 * acc + d) true
        | None =>
            if Ascii.eqb c "_" && after_digit then parse_digits r acc false
            else None
        end
    end.

  (** The blanks [int] skips around a numeral: TAB, LF, VT, FF, CR, space. *)
Definition is_int_space (c : ascii) : bool :=
    let n := nat_of_ascii c in
    ((9 <=? n) && (n <=? 13) || (n =? 32))%nat.

Fixpoint int_lstrip (s : string) : string :=
    match s with
    | EmptyString => EmptyString
    | String c r => if is_int_space c then int_lstrip r else s
    end.

Fixpoint int_rstrip (s : string) : string :=
    match s with
    | EmptyString => EmptyString
    | String c r =>
        match int_rstrip r with
        | EmptyString => if is_int_space c then EmptyString else String c EmptyString
        | r' => String c r'
        end
    end.

  (** [int(s)]: [None] stands for [ValueError].  The interpreter's cap on
      the number of digits of a numeral, a setting of its own, is left out. *)
Definition int (s : string) : option Z :=
    match int_rstrip (int_lstrip s) with
    | String "+" r => parse_digits r 0 false
    | String "-" r => option_map Z.opp (parse_digits r 0 false)
    | t => parse_digits t 0 false
    end.

  (** [l[:k]] for a Python integer [k]. *)
Definition slice_to {A} (k : Z) (l : list A) : list A :=
    if 0 <=? k then firstn (Z.to_nat k) l
    else firstn (List.length l - Z.to_nat (- k)) l.

  (** [x or y] on strings. *)
Definition or_str (x y : string) : string := if truthy x then x else y.

  (** Stable sorting: [l.sort(key=...)] with [before a b] true when [a]'s key
      is strictly smaller than [b]'s ([reverse=True]: strictly greater). *)
Section Sort.
Context {A : Type} (before : A -> A -> bool).

Fixpoint insert_stable (x : A) (l : list A) : list A :=
      match l with
      | [] => [x]
      | y :: r => if before x y then x :: l else y :: insert_stable x r
      end.

Definition sort_stable (l : list A) : list A :=
      fold_left (fun acc x => insert_stable x acc) l [].
End Sort.

  (** *** Dictionaries: association lists in insertion order *)
Section Dict.
Context {K V : Type} (eqb : K -> K -> bool).

Fixpoint get (k : K) (d : list (K * V)) : option V :=
      match d with
      | [] => None
      | (k', v) :: r => if eqb k k' then Some v else get k r
      end.

    (** [d[k] = v]: an existing key keeps its place. *)
Fixpoint set (k : K) (v : V) (d : list (K * V)) : list (K * V) :=
      match d with
      | [] => [(k, v)]
      | (k', v') :: r => if eqb k k' then (k, v) :: r else (k', v') :: set k v r
      end.

Definition mem (k : K) (d : list (K * V)) : bool :=
      match get k d with Some _ => true | None => false end.
End Dict.

Definition str_in (x : string) (s : list string) : bool := existsb (String.eqb x) s.

End Py.

(** Sets of process ids. *)
Definition pid_in (x : Z) (s : list Z) : bool := existsb (Z.eqb x) s.
Definition pid_add (x : Z) (s : list Z) : list Z := if pid_in x s then s else x :: s.
Definition pid_union (s t : list Z) : list Z := fold_left (fun acc x => pid_add x acc) t s.


(** ** Module constants *)

(** The alternatives of [AGENT_PATTERN]. *)
Definition AGENT_PATTERN : list string :=
  ["opencode"; "open-code"; "codex"; "gemini"; "claude"; "kimi";
   "pi-agent"; "pi_agent"; "aoc-pi"].

Definition PROTECTED_COMMANDS : list string :=
  ["aoc-session-watch"; "aoc-cleanup"; "aoc-init"; "aoc-launch"; "aoc-align";
   "aoc-doctor"; "aoc-mem"; "aoc-tasks"; "aoc-widget"; "aoc-clock"; "aoc-sys"].

Definition AGENT_BINARIES : list string :=
  ["opencode"; "open-code"; "codex"; "gemini"; "claude"; "kimi"; "pi";
   "pi-agent"; "pi_agent"; "aoc-agent"; "aoc-agent-run"; "aoc-oc"; "aoc-cc";
   "aoc-gemini"; "aoc-kimi"; "aoc-pi"].

(** ** Environment switches *)

(** An environment block: [os.environ], or the parsed [/proc/<pid>/environ]. *)
Definition Env := list (string * string).

(** [env.get(name, "")] *)
Definition env_get (env : Env) (name : string) : string :=
  match Py.get String.eqb name env with Some v => v | None => EmptyString end.

(** What the module prints, as far as the properties below read it. *)
Inductive Message :=
| WarnNotInteger (name : string) (default : Z)
| WarnNoCurrentSession.

Definition get_current_session (environ : Env) : string :=
  Py.or_str (env_get environ "ZELLIJ_SESSION_NAME")
            (Py.or_str (env_get environ "ZELLIJ_SESSION") EmptyString).

(** [re.split(r"[\s,]+", raw)] without its empty pieces. *)
Fixpoint split_sessions (s cur : string) : list string :=
  match s with
  | EmptyString => if Py.truthy cur then [cur] else []
  | String c r =>
      if Py.is_space c || Ascii.eqb c ","
      then (if Py.truthy cur then cur :: split_sessions r EmptyString
            else split_sessions r EmptyString)
      else split_sessions r (cur ++ String c EmptyString)
  end.

Definition parse_session_filter (environ : Env) : option (list string) * list Message :=
  let raw := Py.strip (env_get environ "AOC_CLEANUP_SESSIONS") in
  if negb (Py.truthy raw) then (None, [])
  else if Py.str_in (Py.lower raw) ["current"; "self"; "this"] then
    let curr := get_current_session environ in
    if Py.truthy curr then (Some [curr], []) else (None, [WarnNoCurrentSession])
  else (Some (split_sessions raw EmptyString), []).

Definition env_truthy (environ : Env) (name : string) : bool :=
  let raw := Py.lower (Py.strip (env_get environ name)) in
  negb (Py.str_in raw [EmptyString; "0"; "false"; "no"; "off"]).

(** [env_int]: the value, and what was printed on the way. *)
Definition env_int (environ : Env) (name : string) (default minimum : Z)
  : Z * list Message :=
  let raw := Py.strip (env_get environ name) in
  if negb (Py.truthy raw) then (default, [])
  else
    match Py.int raw with
    | None => (default, [WarnNotInteger name default])
    | Some value => if value <? minimum then (minimum, []) else (value, [])
    end.

(** The module-level switches, read once when the module is loaded. *)
Record Globals := {
  dry_run : bool;
  require_active_signals : bool;
  skip_if_no_sessions : bool;
  min_process_age_secs : Z
}.

Definition min_process_age_secs_of (environ : Env) : Z * list Message :=
  env_int environ "AOC_CLEANUP_MIN_PROCESS_AGE_SECS" 0 0.

Definition module_globals (environ : Env) : Globals * list Message :=
  let '(age, printed) := min_process_age_secs_of environ in
  ({| dry_run := env_truthy environ "AOC_CLEANUP_DRY_RUN";
      require_active_signals := env_truthy environ "AOC_CLEANUP_REQUIRE_ACTIVE_SIGNALS";
      skip_if_no_sessions := env_truthy environ "AOC_CLEANUP_SKIP_IF_NO_SESSIONS";
      min_process_age_secs := age |}, printed).

(** ** Matching helpers *)

Definition cwd_matches (proc_path active_cwd : string) : bool :=
  if negb (Py.truthy proc_path) || negb (Py.truthy active_cwd) then false
  else if Py.startswith active_cwd "/" then
    String.eqb proc_path active_cwd || Py.startswith proc_path (active_cwd ++ "/")
  else
    String.eqb proc_path active_cwd || Py.endswith proc_path ("/" ++ active_cwd).

Definition cmd_matches (proc_cmd active_cmd : string) : bool :=
  if negb (Py.truthy proc_cmd) || negb (Py.truthy active_cmd) then false
  else if String.eqb proc_cmd active_cmd then true
  else String.eqb (Py.basename proc_cmd) (Py.basename active_cmd).

(** The library and configuration the classifier calls into:
    - [extra_pattern_search s]: whether the operator's [AOC_AGENT_PATTERN]
      alternative of [AGENT_NAME_PATTERN] is found in [s] (never, when unset);
    - [shlex_split s]: [shlex.split(s)], [None] when it raises;
    - [socket_re_search s]: group 2 of [socket_re.search(s)], if it matches. *)
Section Classifier.
Variable extra_pattern_search : string -> bool.
Variable shlex_split : string -> option (list string).
Variable socket_re_search : string -> option string.

(** [AGENT_NAME_PATTERN.search(s) is not None]: one of the alternatives
    occurs in [s], letter case ignored. *)
Definition AGENT_NAME_PATTERN_search (s : string) : bool :=
  existsb (fun alt => Py.contains alt (Py.lower s)) AGENT_PATTERN
  || extra_pattern_search s.

Definition proc_cmd (args comm : string) : string :=
  if Py.truthy args then
    match shlex_split args with
    | Some (first :: _) => first
    | _ => Py.before_space args
    end
  else comm.

(** [base in AGENT_BINARIES or base.startswith("opencode") or
    base.startswith("pi-agent")] *)
Definition is_agent_binary (base : string) : bool :=
  Py.str_in base AGENT_BINARIES
  || Py.startswith base "opencode"
  || Py.startswith base "pi-agent".

Definition is_agent_process (args comm : string) : bool :=
  let cmd := proc_cmd args comm in
  let base := if Py.truthy cmd then Py.basename cmd else EmptyString in
  if is_agent_binary base then true
  else if String.eqb comm "node" && Py.contains "opencode" args then true
  else if AGENT_NAME_PATTERN_search args || AGENT_NAME_PATTERN_search comm then true
  else false.

(** ** The process table *)

Record ProcInfo := {
  i_ppid : Z;
  i_etimes : option Z;
  i_tty : string;
  i_comm : string;
  i_args : string
}.

Definition Processes := list (Z * ProcInfo).
Definition Children := list (Z * list Z).

(** What [subprocess.check_output(["ps", ...])] gives: the listing;
    [CalledProcessError], when [ps] exits with a failure status; or another
    exception ([FileNotFoundError] when [ps] cannot be started,
    [UnicodeDecodeError] when its output cannot be decoded, ...), which
    [get_process_map] does not catch. *)
Inductive PsResult :=
| PsOutput (ps_out : string)
| PsCalledProcessError
| PsOtherException.

(** [children[ppid].append(pid)] on a [defaultdict(list)]. *)
Definition children_append (ppid pid : Z) (children : Children) : Children :=
  match Py.get Z.eqb ppid children with
  | Some l => Py.set Z.eqb ppid (l ++ [pid])%list children
  | None => Py.set Z.eqb ppid [pid] children
  end.

(** One row of the listing. *)
Definition process_row (line : string) (acc : Processes * Children) : Processes * Children :=
  match Py.split_ws (Py.strip line) 5 with
  | [p0; p1; etimes_raw; tty; comm; args] =>
      match Py.int p0, Py.int p1 with
      | Some pid, Some ppid =>
          (Py.set Z.eqb pid
             {| i_ppid := ppid; i_etimes := Py.int etimes_raw; i_tty := tty;
                i_comm := comm; i_args := args |} (fst acc),
           children_append ppid pid (snd acc))
      | _, _ => acc
      end
  | _ => acc
  end.

(** [get_process_map()]: the two maps, or [None] when the call of [ps]
    raises an exception other than [CalledProcessError], which leaves the
    function. *)
Definition get_process_map (ps : PsResult) : option (Processes * Children) :=
  match ps with
  | PsOtherException => None
  | PsCalledProcessError => Some ([], [])
  | PsOutput ps_out =>
      Some (fold_left (fun acc line => process_row line acc)
                      (tl (Py.splitlines (Py.strip ps_out))) ([], []))
  end.

(** [children_map.get(curr, [])] *)
Definition children_of (children : Children) (curr : Z) : list Z :=
  match Py.get Z.eqb curr children with Some l => l | None => [] end.

(** The inner [for child in ...] of [get_descendants]: the stack is kept
    with its top first. *)
Definition push_children (kids : list Z) (st : list Z * list Z) : list Z * list Z :=
  fold_left (fun '(stack, safe) child =>
               if pid_in child safe then (stack, safe)
               else (child :: stack, child :: safe))
            kids st.

(** The [while stack] loop; [None] when [fuel] iterations did not empty
    the stack. *)
Fixpoint descend (fuel : nat) (children : Children) (stack safe : list Z)
  : option (list Z) :=
  match stack with
  | [] => Some safe
  | curr :: rest =>
      match fuel with
      | O => None
      | S fuel' =>
          let '(stack', safe') := push_children (children_of children curr) (rest, safe) in
          descend fuel' children stack' safe'
      end
  end.

(** Every pid listed as somebody's child. *)
Definition all_children (children : Children) : list Z := List.concat (map snd children).

(** [get_descendants(roots, children_map)], for [roots] without repetition
    (a Python set).  The fuel is never exhausted: see [get_descendants_total]. *)
Definition get_descendants (roots : list Z) (children : Children) : option (list Z) :=
  descend (List.length roots + List.length (all_children children))
          children (rev roots) roots.

(** ** The safe tree *)

(** The [while curr in processes] walk up the tool's ancestry.  The loop
    does not terminate on a table whose parent links run in a circle;
    [None] is that case: see [walk_ancestors_exits] and
    [walk_ancestors_none]. *)
Fixpoint walk_ancestors (fuel : nat) (processes : Processes) (curr : Z) (safe_pids : list Z)
  : option (list Z) :=
  match Py.get Z.eqb curr processes with
  | None => Some safe_pids
  | Some info =>
      match fuel with
      | O => None
      | S fuel' => walk_ancestors fuel' processes (i_ppid info) (pid_add curr safe_pids)
      end
  end.

Definition str_add (x : string) (s : list string) : list string :=
  if Py.str_in x s then s else x :: s.

Definition find_safe_tmux_sockets (safe_pids : list Z) (processes : Processes) : list string :=
  fold_left
    (fun sockets pid =>
       match Py.get Z.eqb pid processes with
       | None => sockets
       | Some info =>
           if Py.contains "tmux" (i_args info) then
             match socket_re_search (i_args info) with
             | Some s => str_add s sockets
             | None => sockets
             end
           else sockets
       end)
    safe_pids [].

Definition find_tmux_servers_for_sockets (sockets : list string) (processes : Processes)
  : list Z :=
  match sockets with
  | [] => []
  | _ =>
      map fst
        (filter
           (fun '(_, info) =>
              String.eqb (i_comm info) "tmux"
              && Py.contains " -D" (i_args info)
              && match socket_re_search (i_args info) with
                 | Some s => Py.str_in s sockets
                 | None => false
                 end)
           processes)
  end.

Definition zellij_pids (processes : Processes) : list Z :=
  map fst (filter (fun '(_, info) => String.eqb (i_comm info) "zellij") processes).

(** [safe_pids] as [run_cleanup] builds it: descendants of the session
    manager, the tool's ancestry, and the detached tmux servers of safe
    sockets. *)
Definition compute_safe_pids (processes : Processes) (children : Children) (my_pid : Z)
  : option (list Z) :=
  match get_descendants (zellij_pids processes) children with
  | None => None
  | Some safe0 =>
      match walk_ancestors (List.length processes) processes my_pid safe0 with
      | None => None
      | Some safe1 =>
          match find_safe_tmux_sockets safe1 processes with
          | [] => Some safe1
          | safe_sockets =>
              match get_descendants
                      (find_tmux_servers_for_sockets safe_sockets processes) children with
              | None => None
              | Some servers => Some (pid_union safe1 servers)
              end
          end
      end
  end.

(** ** What one run observes *)

Record LayoutEvidence := {
  active_commands : list string;
  agent_cwds : list string;
  expected_cwds : list (string * Z);
  expected_ids : list (string * Z)
}.

(** A telemetry snapshot [<root>/<session>/<file_name>]: [snapshot_pid] is
    [int(snapshot.get("pid") or 0)], [None] when reading or decoding the
    file raises; [remove_succeeds] tells whether [os.remove] of it returns
    without raising. *)
Record SnapshotFile := {
  file_name : string;
  snapshot_pid : option Z;
  remove_succeeds : bool
}.

(** What [os.listdir] gives: the entries of the directory, or an exception
    (a [PermissionError], say), which the pruner does not catch. *)
Inductive Listdir (A : Type) : Type :=
| Entries (entries : list A)
| ListdirRaises.

#[global] Arguments Entries {A} entries.
#[global] Arguments ListdirRaises {A}.

(** An entry of the telemetry root: [files] is [os.listdir] of it. *)
Record SessionDir := {
  session_name : string;
  is_dir : bool;
  files : Listdir SnapshotFile
}.

Inductive Signal := SIGTERM | SIGKILL.

(** How a call of [os.kill] ends: it returns; it raises
    [ProcessLookupError], which [run_cleanup] catches; or it raises another
    exception (a [PermissionError], for the process of another user), which
    nothing catches. *)
Inductive KillResult := KillReturns | KillProcessLookupError | KillOtherException.

(** The outside world of one run: the results of the external tools and of
    the operating system.  [environ] is [os.environ]; [listed_sessions] is
    what [list_sessions] returns; [layout] and [active_panes_by_session]
    are what [build_active_sets] and [build_active_pane_map] return;
    [my_pid] is [os.getpid()]; [os_cwd pid] is what [proc_cwd] returns;
    [os_environ pid] is the content of [/proc/<pid>/environ] cut at its NUL
    bytes, [None] when it cannot be read, and [os_environ_signalled pid]
    the same once [pid] was sent the termination signals;
    [lease_first_line path] is the [readline()] of a lease file, [None]
    when it cannot be read; [os_kill pid sig] is how [os.kill(pid, sig)]
    ends; [telemetry] is [os.listdir] of the telemetry root, [None] when
    the root is no directory.  Writing to the standard output is taken not
    to fail. *)
Record World := {
  environ : Env;
  ps_listing : PsResult;
  listed_sessions : list string;
  layout : LayoutEvidence;
  active_panes_by_session : list (string * list string);
  my_pid : Z;
  os_cwd : Z -> string;
  os_environ : Z -> option (list string);
  os_environ_signalled : Z -> option (list string);
  lease_first_line : string -> option string;
  os_kill : Z -> Signal -> KillResult;
  telemetry : option (Listdir SessionDir)
}.

(** ** Process environments *)

Definition EnvCache := list (Z * Env).

(** [item.split("=", 1)] for an item that holds an equals sign. *)
Fixpoint split_eq (item : string) : option (string * string) :=
  match item with
  | EmptyString => None
  | String c r =>
      if Ascii.eqb c "=" then Some (EmptyString, r)
      else match split_eq r with
           | Some (k, v) => Some (String c k, v)
           | None => None
           end
  end.

Definition parse_environ (data : list string) : Env :=
  fold_left
    (fun env item =>
       match split_eq item with
       | Some (k, v) => if Py.truthy k then Py.set String.eqb k v env else env
       | None => env
       end)
    data [].

(** [proc_env(pid)], with [ENV_CACHE] passed along. *)
Definition proc_env (os : Z -> option (list string)) (pid : Z) (cache : EnvCache)
  : Env * EnvCache :=
  match Py.get Z.eqb pid cache with
  | Some env => (env, cache)
  | None =>
      let env := match os pid with
                 | Some data => parse_environ data
                 | None => []
                 end in
      (env, Py.set Z.eqb pid env cache)
  end.

(** [env.get(k1) or env.get(k2) or ... or ""] *)
Definition env_first (env : Env) (keys : list string) : string :=
  fold_right (fun k rest => Py.or_str (env_get env k) rest) EmptyString keys.

Definition env_session (env : Env) : string :=
  env_first env ["AOC_SESSION_ID"; "ZELLIJ_SESSION_NAME"; "ZELLIJ_SESSION"].

Definition env_pane (env : Env) : string :=
  env_first env ["AOC_PANE_ID"; "ZELLIJ_PANE_ID"].

Definition proc_has_active_session (os : Z -> option (list string)) (pid : Z)
           (active_sessions : list string) (cache : EnvCache) : bool * EnvCache :=
  match active_sessions with
  | [] => (false, cache)
  | _ =>
      let '(env, cache') := proc_env os pid cache in
      let session := env_session env in
      if negb (Py.truthy session) then (false, cache')
      else (Py.str_in session active_sessions, cache')
  end.

(** ** Agent candidates *)

Inductive Kind := agent_bin | agent_node | other.

Definition kind_eqb (a b : Kind) : bool :=
  match a, b with
  | agent_bin, agent_bin | agent_node, agent_node | other, other => true
  | _, _ => false
  end.

Record Candidate := {
  c_pid : Z;
  c_ppid : Z;
  c_etimes : option Z;
  c_args : string;
  c_comm : string;
  c_cwd : string;
  c_safe : bool;
  c_kind : Kind;
  c_session : string;
  c_pane_id : string;
  c_pane_instance_id : string;
  c_pane_lease_file : string;
  c_pane_instance_match : bool;
  c_tty : string;
  c_has_tty : bool
}.

Definition proc_matches_active_pane (proc : Candidate)
           (panes : list (string * list string)) : bool :=
  let session := Py.strip (c_session proc) in
  let pane_id := Py.strip (c_pane_id proc) in
  if negb (Py.truthy session) || negb (Py.truthy pane_id) then false
  else
    match Py.get String.eqb session panes with
    | None => false
    | Some [] => false
    | Some active => Py.str_in pane_id active
    end.

(** The lease check of a candidate. *)
Definition lease_check (w : World) (pane_instance_id pane_lease_file : string) : bool :=
  if Py.truthy pane_instance_id && Py.truthy pane_lease_file then
    match lease_first_line w pane_lease_file with
    | Some line => String.eqb (Py.strip line) pane_instance_id
    | None => false
    end
  else true.

(** The body of the loop over [processes.items()] that fills
    [agent_candidates]. *)
Definition classify (w : World) (safe_pids : list Z) (pid : Z) (info : ProcInfo)
           (cache : EnvCache) : option Candidate * EnvCache :=
  let comm := i_comm info in
  let args := i_args info in
  if is_agent_process args comm then
    if existsb (fun p => Py.contains p comm || Py.contains p args) PROTECTED_COMMANDS
    then (None, cache)
    else if existsb (fun x => Py.contains x args) [" grep "; " pgrep "; " ps "]
    then (None, cache)
    else
      let cwd := os_cwd w pid in
      let cmd := proc_cmd args comm in
      let base := if Py.truthy cmd then Py.basename cmd else EmptyString in
      let kind := if is_agent_binary base then agent_bin
                  else if String.eqb comm "node" && Py.contains "opencode" args
                       then agent_node else other in
      let '(env, cache') := proc_env (os_environ w) pid cache in
      let pane_instance_id := Py.or_str (env_get env "AOC_PANE_INSTANCE_ID") EmptyString in
      let pane_lease_file := Py.or_str (env_get env "AOC_PANE_LEASE_FILE") EmptyString in
      let tty := i_tty info in
      (Some {| c_pid := pid;
               c_ppid := i_ppid info;
               c_etimes := i_etimes info;
               c_args := args;
               c_comm := comm;
               c_cwd := cwd;
               c_safe := pid_in pid safe_pids;
               c_kind := kind;
               c_session := env_session env;
               c_pane_id := env_pane env;
               c_pane_instance_id := pane_instance_id;
               c_pane_lease_file := pane_lease_file;
               c_pane_instance_match := lease_check w pane_instance_id pane_lease_file;
               c_tty := tty;
               c_has_tty := Py.truthy tty && negb (String.eqb tty "?") |},
       cache')
  else (None, cache).

Fixpoint build_candidates (w : World) (safe_pids : list Z) (processes : Processes)
         (cache : EnvCache) : list Candidate * EnvCache :=
  match processes with
  | [] => ([], cache)
  | (pid, info) :: rest =>
      let '(found, cache1) := classify w safe_pids pid info cache in
      let '(more, cache2) := build_candidates w safe_pids rest cache1 in
      (match found with Some proc => proc :: more | None => more end, cache2)
  end.

(** ** The keep selector *)

(** Truthiness of a list, a set or a dict. *)
Definition nonempty {A} (l : list A) : bool :=
  match l with [] => false | _ => true end.

Definition kind_rank (k : Kind) : Z :=
  match k with agent_node => 0 | agent_bin => 1 | other => 2 end.

Definition root_rank (proc : Candidate) : Z * Z * Z :=
  (if c_has_tty proc then 0 else 1, kind_rank (c_kind proc), - c_pid proc).

(** Tuple comparison [a < b]. *)
Definition rank_lt (a b : Z * Z * Z) : bool :=
  let '(a1, a2, a3) := a in
  let '(b1, b2, b3) := b in
  (a1 <? b1) || (a1 =? b1) && ((a2 <? b2) || (a2 =? b2) && (a3 <? b3)).

Definition pane_key_eqb (a b : string * string) : bool :=
  String.eqb (fst a) (fst b) && String.eqb (snd a) (snd b).

(** [pane_groups]: candidates by [(session, pane_id)]. *)
Definition group_by_pane (active_sessions : list string) (agent_candidates : list Candidate)
  : list ((string * string) * list Candidate) :=
  fold_left
    (fun groups proc =>
       let pane_id := c_pane_id proc in
       if negb (Py.truthy pane_id) then groups
       else
         let proc_session := Py.or_str (c_session proc) EmptyString in
         if nonempty active_sessions && Py.truthy proc_session
            && negb (Py.str_in proc_session active_sessions)
         then groups
         else
           let key := (proc_session, pane_id) in
           match Py.get pane_key_eqb key groups with
           | Some l => Py.set pane_key_eqb key (l ++ [proc])%list groups
           | None => Py.set pane_key_eqb key [proc] groups
           end)
    agent_candidates [].

Record SelectedRoot := {
  sel_proc : Candidate;
  sel_has_tty : bool;
  sel_has_session : bool
}.

(** The entry of [selected_roots] for one pane group; a group is never
    empty, so its pool has a first element. *)
Definition select_root (procs : list Candidate) : option SelectedRoot :=
  let group_has_tty := existsb c_has_tty procs in
  let group_has_session := existsb (fun p => Py.truthy (c_session p)) procs in
  let with_tty := filter c_has_tty procs in
  let preferred_pool :=
    if nonempty with_tty then with_tty
    else
      let group_pids := map c_pid procs in
      let roots := filter (fun p => negb (pid_in (c_ppid p) group_pids)) procs in
      if nonempty roots then roots else procs in
  match Py.sort_stable (fun a b => rank_lt (root_rank a) (root_rank b)) preferred_pool with
  | [] => None
  | first :: _ =>
      Some {| sel_proc := first; sel_has_tty := group_has_tty;
              sel_has_session := group_has_session |}
  end.

Definition sum_values (counter : list (string * Z)) : Z :=
  fold_left (fun total kv => total + snd kv) counter 0.

Definition bool_rank (b : bool) : Z := if b then 1 else 0.

(** [(not has_tty, not has_session, root_rank(proc))] of one entry is
    smaller than that of the other. *)
Definition selected_lt (a b : SelectedRoot) : bool :=
  let ta := bool_rank (negb (sel_has_tty a)) in
  let tb := bool_rank (negb (sel_has_tty b)) in
  let sa := bool_rank (negb (sel_has_session a)) in
  let sb := bool_rank (negb (sel_has_session b)) in
  (ta <? tb)
  || (ta =? tb) && ((sa <? sb)
                    || (sa =? sb) && rank_lt (root_rank (sel_proc a)) (root_rank (sel_proc b))).

(** The pane-strict strategy: [(used_pane_selection, keep_pids)]. *)
Definition select_pane_strict (active_sessions : list string) (ev : LayoutEvidence)
           (agent_candidates : list Candidate) : bool * list Z :=
  let pane_groups := group_by_pane active_sessions agent_candidates in
  if nonempty pane_groups then
    let selected_roots :=
      fold_left (fun acc group =>
                   match select_root (snd group) with
                   | Some entry => (acc ++ [entry])%list
                   | None => acc
                   end) pane_groups [] in
    let expected_total :=
      if nonempty (expected_cwds ev) then sum_values (expected_cwds ev)
      else if nonempty (expected_ids ev) then sum_values (expected_ids ev)
      else 0 in
    let selected_roots :=
      if negb (expected_total =? 0)
         && (expected_total <? Z.of_nat (List.length selected_roots))
      then Py.slice_to expected_total (Py.sort_stable selected_lt selected_roots)
      else selected_roots in
    (true, fold_left (fun keep entry => pid_add (c_pid (sel_proc entry)) keep)
                     selected_roots [])
  else (false, []).

(** [procs.sort(key=lambda p: p["pid"], reverse=True)] *)
Definition sort_pid_desc (procs : list Candidate) : list Candidate :=
  Py.sort_stable (fun a b => c_pid b <? c_pid a) procs.

(** [preferred]: the [agent_bin] ones if any, else the [agent_node] ones if
    any, else all. *)
Definition preferred_of (procs : list Candidate) : list Candidate :=
  let bins := filter (fun p => kind_eqb (c_kind p) agent_bin) procs in
  if nonempty bins then bins
  else
    let nodes := filter (fun p => kind_eqb (c_kind p) agent_node) procs in
    if nonempty nodes then nodes else procs.

(** [counter.get(key, 0)] *)
Definition counter_get (key : string) (counter : list (string * Z)) : Z :=
  match Py.get String.eqb key counter with Some n => n | None => 0 end.

(** [key_matches[cwd_hint]]: the candidates whose directory matches the
    hint, in the order of [agent_candidates]. *)
Definition directory_matches (agent_candidates : list Candidate) (cwd_hint : string)
  : list Candidate :=
  filter (fun proc => cwd_matches (c_cwd proc) cwd_hint) agent_candidates.

(** What one directory hint keeps: [preferred[:keep_count]]. *)
Definition directory_selection (agent_candidates : list Candidate)
           (expected : list (string * Z)) (cwd_hint : string) : list Candidate :=
  Py.slice_to (counter_get cwd_hint expected)
              (preferred_of (sort_pid_desc (directory_matches agent_candidates cwd_hint))).

Definition add_pids (procs : list Candidate) (keep_pids : list Z) : list Z :=
  fold_left (fun keep proc => pid_add (c_pid proc) keep) procs keep_pids.

(** The directory-count strategy. *)
Definition select_by_directory (agent_candidates : list Candidate)
           (expected : list (string * Z)) (keep_pids : list Z) : list Z :=
  fold_left (fun keep cwd_hint =>
               add_pids (directory_selection agent_candidates expected cwd_hint) keep)
            (map fst expected) keep_pids.

(** The same strategy loop by loop, as [run_cleanup] writes it:
    [key_matches] starts with an empty list for every key of the counter,
    the two nested loops append every candidate to the list of every hint
    its directory matches, and the last loop keeps [preferred[:keep_count]]
    of every list that is not empty.  On a counter, whose keys are
    distinct, this is [select_by_directory]: see
    [select_by_directory_loops_eq]. *)
Definition key_matches_append (key : string) (proc : Candidate)
           (key_matches : list (string * list Candidate)) : list (string * list Candidate) :=
  match Py.get String.eqb key key_matches with
  | Some procs => Py.set String.eqb key (procs ++ [proc])%list key_matches
  | None => key_matches
  end.

Definition fill_key_matches (agent_candidates : list Candidate)
           (expected : list (string * Z)) : list (string * list Candidate) :=
  fold_left
    (fun key_matches proc =>
       fold_left
         (fun key_matches item =>
            if cwd_matches (c_cwd proc) (fst item)
            then key_matches_append (fst item) proc key_matches
            else key_matches)
         expected key_matches)
    agent_candidates
    (map (fun item => (fst item, @nil Candidate)) expected).

Definition select_by_directory_loops (agent_candidates : list Candidate)
           (expected : list (string * Z)) (keep_pids : list Z) : list Z :=
  fold_left
    (fun keep entry =>
       let procs := snd entry in
       if nonempty procs then
         add_pids (Py.slice_to (counter_get (fst entry) expected)
                               (preferred_of (sort_pid_desc procs)))
                  keep
       else keep)
    (fill_key_matches agent_candidates expected) keep_pids.

Definition identity_matches (agent_candidates : list Candidate) (agent_id : string)
  : list Candidate :=
  filter (fun proc =>
            let cwd_base := if Py.truthy (c_cwd proc) then Py.basename (c_cwd proc)
                            else EmptyString in
            Py.truthy cwd_base && String.eqb cwd_base agent_id)
         agent_candidates.

Definition identity_selection (agent_candidates : list Candidate)
           (expected : list (string * Z)) (agent_id : string) : list Candidate :=
  Py.slice_to (counter_get agent_id expected)
              (preferred_of (sort_pid_desc (identity_matches agent_candidates agent_id))).

(** The identity-count strategy. *)
Definition select_by_identity (agent_candidates : list Candidate)
           (expected : list (string * Z)) (keep_pids : list Z) : list Z :=
  fold_left (fun keep agent_id =>
               add_pids (identity_selection agent_candidates expected agent_id) keep)
            (map fst expected) keep_pids.

(** [keep_pids] as [run_cleanup] builds it. *)
Definition select_keep_pids (strict_with_evidence : bool) (active_sessions : list string)
           (ev : LayoutEvidence) (agent_candidates : list Candidate) : list Z :=
  let '(used_pane_selection, keep_pids) :=
    if strict_with_evidence then select_pane_strict active_sessions ev agent_candidates
    else (false, []) in
  if nonempty (expected_cwds ev) && negb used_pane_selection
  then select_by_directory agent_candidates (expected_cwds ev) keep_pids
  else if nonempty (expected_ids ev) && negb used_pane_selection
  then select_by_identity agent_candidates (expected_ids ev) keep_pids
  else keep_pids.

(** ** The kill decision *)

(** What the decision loop did with a candidate, by the rule that decided. *)
Inductive Verdict :=
| RetainExcludedSession
| KillLeaseMismatch
| RetainActivePane
| KillPaneMiss
| SkipPaneMiss
| RetainSafe
| RetainKeepTree
| RetainActiveSession
| RetainActiveCommand
| RetainActiveDirectory
| SkipYoung
| KillOrphan.

Definition is_kill (v : Verdict) : bool :=
  match v with
  | KillLeaseMismatch | KillPaneMiss | KillOrphan => true
  | _ => false
  end.

(** What the decision loop reads besides the candidate. *)
Record Ctx := {
  session_filter : option (list string);
  active_sessions : list string;
  strict_with_evidence : bool;
  have_active_signals : bool;
  safe_pids : list Z;
  keep_tree : list Z
}.

(** The first test of the loop body: the candidate's session is outside a
    session filter. *)
Definition session_excluded (x : Ctx) (proc : Candidate) : bool :=
  let proc_session := Py.or_str (c_session proc) EmptyString in
  match session_filter x with
  | None => false
  | Some _ => Py.truthy proc_session && negb (Py.str_in proc_session (active_sessions x))
  end.

Definition lease_mismatch (proc : Candidate) : bool :=
  Py.truthy (c_pane_instance_id proc) && negb (c_pane_instance_match proc).

(** The candidate names a pane of a session that has live panes (and, where
    this is read, is none of them). *)
Definition pane_miss (w : World) (proc : Candidate) : bool :=
  let proc_session := Py.or_str (c_session proc) EmptyString in
  Py.truthy proc_session && Py.truthy (c_pane_id proc)
  && Py.mem String.eqb proc_session (active_panes_by_session w).

Definition too_young (g : Globals) (proc : Candidate) : bool :=
  match c_etimes proc with
  | None => true
  | Some proc_age => proc_age <? min_process_age_secs g
  end.

Definition command_hit (w : World) (proc : Candidate) : bool :=
  let proc_exec := proc_cmd (c_args proc) (c_comm proc) in
  existsb (fun cmd => cmd_matches proc_exec cmd || Py.contains cmd (c_args proc))
          (active_commands (layout w)).

Definition directory_hit (w : World) (proc : Candidate) : bool :=
  existsb (fun ac => cwd_matches (c_cwd proc) ac) (agent_cwds (layout w)).

(** The body of the loop over [agent_candidates]. *)
Definition decide (g : Globals) (w : World) (x : Ctx) (proc : Candidate) (cache : EnvCache)
  : Verdict * EnvCache :=
  let pid := c_pid proc in
  let strict := strict_with_evidence x in
  if session_excluded x proc then (RetainExcludedSession, cache)
  else if lease_mismatch proc then (KillLeaseMismatch, cache)
  else if proc_matches_active_pane proc (active_panes_by_session w)
  then (RetainActivePane, cache)
  else if pane_miss w proc then
    if strict then (KillPaneMiss, cache)
    else if min_process_age_secs g <=? 0 then (SkipPaneMiss, cache)
    else if too_young g proc then (SkipPaneMiss, cache)
    else (KillPaneMiss, cache)
  else
    let '(safe_hit, cache1) :=
      if pid_in pid (safe_pids x) && negb strict then
        match session_filter x with
        | None => (true, cache)
        | Some _ => proc_has_active_session (os_environ w) pid (active_sessions x) cache
        end
      else (false, cache) in
    if safe_hit then (RetainSafe, cache1)
    else if pid_in pid (keep_tree x) then (RetainKeepTree, cache1)
    else
      let '(in_session, cache2) :=
        proc_has_active_session (os_environ w) pid (active_sessions x) cache1 in
      if in_session && negb strict then (RetainActiveSession, cache2)
      else if have_active_signals x && negb strict && command_hit w proc
      then (RetainActiveCommand, cache2)
      else if have_active_signals x && negb strict
              && negb (Py.truthy (c_session proc) && Py.truthy (c_pane_id proc))
              && directory_hit w proc
      then (RetainActiveDirectory, cache2)
      else if (0 <? min_process_age_secs g) && too_young g proc then (SkipYoung, cache2)
      else (KillOrphan, cache2).

Fixpoint decide_all (g : Globals) (w : World) (x : Ctx) (agent_candidates : list Candidate)
         (cache : EnvCache) : list (Candidate * Verdict) * EnvCache :=
  match agent_candidates with
  | [] => ([], cache)
  | proc :: rest =>
      let '(v, cache1) := decide g w x proc cache in
      let '(more, cache2) := decide_all g w x rest cache1 in
      ((proc, v) :: more, cache2)
  end.

(** The session a candidate's environment names is one of the active ones:
    what [proc_has_active_session] answers for it. *)
Definition candidate_in_active_session (x : Ctx) (proc : Candidate) : bool :=
  nonempty (active_sessions x) && Py.truthy (c_session proc)
  && Py.str_in (c_session proc) (active_sessions x).

(** The rule chain as a function of the candidate alone: what [decide]
    returns when [ENV_CACHE] holds what the system shows ([decide_ok]). *)
Definition verdict_of (g : Globals) (w : World) (x : Ctx) (proc : Candidate) : Verdict :=
  let strict := strict_with_evidence x in
  if session_excluded x proc then RetainExcludedSession
  else if lease_mismatch proc then KillLeaseMismatch
  else if proc_matches_active_pane proc (active_panes_by_session w) then RetainActivePane
  else if pane_miss w proc then
    if strict then KillPaneMiss
    else if min_process_age_secs g <=? 0 then SkipPaneMiss
    else if too_young g proc then SkipPaneMiss
    else KillPaneMiss
  else if pid_in (c_pid proc) (safe_pids x) && negb strict
          && match session_filter x with
             | None => true
             | Some _ => candidate_in_active_session x proc
             end
  then RetainSafe
  else if pid_in (c_pid proc) (keep_tree x) then RetainKeepTree
  else if candidate_in_active_session x proc && negb strict then RetainActiveSession
  else if have_active_signals x && negb strict && command_hit w proc
  then RetainActiveCommand
  else if have_active_signals x && negb strict
          && negb (Py.truthy (c_session proc) && Py.truthy (c_pane_id proc))
          && directory_hit w proc
  then RetainActiveDirectory
  else if (0 <? min_process_age_secs g) && too_young g proc then SkipYoung
  else KillOrphan.

(** [kill_list]: the [(pid, args)] appended along the loop, in its order. *)
Definition kill_list_of (decisions : list (Candidate * Verdict)) : list (Z * string) :=
  map (fun d => (c_pid (fst d), c_args (fst d)))
      (filter (fun d => is_kill (snd d)) decisions).

Scheme Equality for Verdict.

(** How many candidates the loop left with verdict [v]. *)
Definition count_verdict (v : Verdict) (decisions : list (Candidate * Verdict)) : nat :=
  List.length (filter (fun d => Verdict_beq (snd d) v) decisions).

(** ** Effects *)

(** What a run does to the system: every call of [os.kill], however it
    ends, the pause between the two rounds of signals, and every
    [os.remove] it calls ([removed]: the call returned without raising). *)
Inductive Effect :=
| OsKill (pid : Z) (sig : Signal)
| TimeSleep
| OsRemove (session file : string) (removed : bool).

(** One round of signals over the kill list: the calls of [os.kill] made,
    and whether the last of them raised an exception other than
    [ProcessLookupError], which ends the round and the pass. *)
Fixpoint signal_round (w : World) (sig : Signal) (kill_list : list (Z * string))
  : list Effect * bool :=
  match kill_list with
  | [] => ([], false)
  | k :: rest =>
      match os_kill w (fst k) sig with
      | KillOtherException => ([OsKill (fst k) sig], true)
      | _ =>
          let '(calls, raised) := signal_round w sig rest in
          (OsKill (fst k) sig :: calls, raised)
      end
  end.

(** The signalling block that follows the decision loop: what it did, and
    whether an exception left it. *)
Definition signal_all (dry : bool) (w : World) (kill_list : list (Z * string))
  : list Effect * bool :=
  if nonempty kill_list && negb dry then
    let '(terms, raised) := signal_round w SIGTERM kill_list in
    if raised then (terms, true)
    else
      let '(kills, raised') := signal_round w SIGKILL kill_list in
      ((terms ++ [TimeSleep] ++ kills)%list, raised')
  else ([], false).

(** The environment files after the signals: those of the signalled
    processes are what the system then shows for them, the others are as
    before. *)
Definition environ_after (dry : bool) (kill_list : list (Z * string)) (w : World)
  : Z -> option (list string) :=
  if dry then os_environ w
  else fun pid => if pid_in pid (map fst kill_list) then os_environ_signalled w pid
                  else os_environ w pid.

(** ** The snapshot pruner *)

(** The pruner on its way: [prune_raised] tells that an [os.listdir]
    raised, which ends the pruner and the pass. *)
Record PruneState := {
  removed : nat;
  prune_effects : list Effect;
  prune_cache : EnvCache;
  prune_raised : bool
}.

(** The [try] block that decides [keep] for one snapshot file. *)
Definition snapshot_keep (os : Z -> option (list string)) (session pane_id : string)
           (f : SnapshotFile) (cache : EnvCache) : bool * EnvCache :=
  match snapshot_pid f with
  | Some pid =>
      if 0 <? pid then
        let '(env, cache') := proc_env os pid cache in
        (String.eqb (env_session env) session && String.eqb (env_pane env) pane_id, cache')
      else (false, cache)
  | None => (false, cache)
  end.

Definition prune_file (dry : bool) (os : Z -> option (list string)) (session : string)
           (allowed_panes : list string) (st : PruneState) (f : SnapshotFile) : PruneState :=
  if negb (Py.endswith (file_name f) ".json") then st
  else
    let pane_id := Py.strip (Py.drop_last 5 (file_name f)) in
    if Py.truthy pane_id && Py.str_in pane_id allowed_panes then st
    else
      let '(keep, cache') := snapshot_keep os session pane_id f (prune_cache st) in
      if keep then {| removed := removed st; prune_effects := prune_effects st;
                      prune_cache := cache'; prune_raised := prune_raised st |}
      else if dry then {| removed := S (removed st); prune_effects := prune_effects st;
                          prune_cache := cache'; prune_raised := prune_raised st |}
      else if remove_succeeds f then
        {| removed := S (removed st);
           prune_effects := (prune_effects st ++ [OsRemove session (file_name f) true])%list;
           prune_cache := cache'; prune_raised := prune_raised st |}
      else
        {| removed := removed st;
           prune_effects := (prune_effects st ++ [OsRemove session (file_name f) false])%list;
           prune_cache := cache'; prune_raised := prune_raised st |}.

(** The body of the loop over the entries of the telemetry root; once an
    [os.listdir] has raised, the loop is over and the body does nothing. *)
Definition prune_session (dry : bool) (os : Z -> option (list string))
           (panes : list (string * list string)) (active_sessions : list string)
           (session_filter_active : bool) (st : PruneState) (d : SessionDir) : PruneState :=
  if prune_raised st then st
  else if negb (is_dir d) then st
  else if session_filter_active && nonempty active_sessions
          && negb (Py.str_in (session_name d) active_sessions)
  then st
  else
    let allowed_panes :=
      match Py.get String.eqb (session_name d) panes with
      | Some s => s
      | None => []
      end in
    match files d with
    | Entries file_names =>
        fold_left (prune_file dry os (session_name d) allowed_panes) file_names st
    | ListdirRaises =>
        {| removed := removed st; prune_effects := prune_effects st;
           prune_cache := prune_cache st; prune_raised := true |}
    end.

Definition prune_runtime_snapshots (tel : option (Listdir SessionDir))
           (os : Z -> option (list string)) (cache : EnvCache)
           (panes : list (string * list string)) (active_sessions : list string)
           (session_filter_active dry : bool) : PruneState :=
  let st0 := {| removed := 0%nat; prune_effects := []; prune_cache := cache;
                prune_raised := false |} in
  match tel with
  | None => st0
  | Some ListdirRaises =>
      {| removed := 0%nat; prune_effects := []; prune_cache := cache;
         prune_raised := true |}
  | Some (Entries dirs) =>
      fold_left (prune_session dry os panes active_sessions session_filter_active) dirs st0
  end.

(** ** [run_cleanup] *)

Record Report := {
  r_processes : Processes;
  r_ctx : Ctx;
  agent_candidates : list Candidate;
  keep_pids : list Z;
  decisions : list (Candidate * Verdict);
  kill_list : list (Z * string);
  skipped_young : nat;
  skipped_pane_miss : nat;
  removed_snapshots : nat;
  effects : list Effect
}.

(** How a pass ends: it returns early, it returns at its end, or an
    exception that nothing catches leaves it.  [Aborted] holds what the pass
    had built and done by then: its candidates, its kill list, and the
    calls it made. *)
Inductive Outcome :=
| SkippedNoSessions
| SkippedNoSignals
| Completed (r : Report)
| Aborted (candidates : list Candidate) (kills : list (Z * string)) (done : list Effect).

Definition compute_active_sessions (session_filter : option (list string))
           (all_sessions : list string) : list string :=
  match session_filter with
  | None => all_sessions
  | Some [] => []
  | Some wanted =>
      if nonempty all_sessions then
        let chosen := filter (fun s => Py.str_in s wanted) all_sessions in
        if nonempty chosen then chosen else wanted
      else wanted
  end.

(** One pass.  [None]: the walk up the tool's ancestry does not terminate.
    An exception that leaves the pass ends it with [Aborted]: that of the
    listing of processes, before anything is built; that of an [os.kill],
    before the rest of the signals and the pruner; that of an [os.listdir]
    of the pruner. *)
Definition run_cleanup (g : Globals) (w : World) : option Outcome :=
  match get_process_map (ps_listing w) with
  | None => Some (Aborted [] [] [])
  | Some (processes, children) =>
  let session_filter := fst (parse_session_filter (environ w)) in
  let pane_strict := env_truthy (environ w) "AOC_CLEANUP_PANE_STRICT" in
  let all_sessions := listed_sessions w in
  if skip_if_no_sessions g && negb (nonempty all_sessions) then Some SkippedNoSessions
  else
    let active_sessions := compute_active_sessions session_filter all_sessions in
    let ev := layout w in
    let have_active_signals :=
      nonempty (active_commands ev) || nonempty (agent_cwds ev)
      || nonempty (expected_cwds ev) || nonempty (expected_ids ev) in
    let pane_layout_signals :=
      nonempty (expected_cwds ev) || nonempty (expected_ids ev)
      || nonempty (active_panes_by_session w) in
    match compute_safe_pids processes children (my_pid w) with
    | None => None
    | Some safe_pids =>
        if require_active_signals g && negb have_active_signals then Some SkippedNoSignals
        else
          let '(agent_candidates, cache0) := build_candidates w safe_pids processes [] in
          let strict := pane_strict && pane_layout_signals in
          let keep_pids := select_keep_pids strict active_sessions ev agent_candidates in
          match (if nonempty keep_pids then get_descendants keep_pids children
                 else Some []) with
          | None => None
          | Some keep_tree =>
              let x := {| session_filter := session_filter;
                          active_sessions := active_sessions;
                          strict_with_evidence := strict;
                          have_active_signals := have_active_signals;
                          safe_pids := safe_pids;
                          keep_tree := keep_tree |} in
              let '(decisions, cache1) := decide_all g w x agent_candidates cache0 in
              let kill_list := kill_list_of decisions in
              let '(signals, kill_raised) := signal_all (dry_run g) w kill_list in
              if kill_raised then Some (Aborted agent_candidates kill_list signals)
              else
                let pruned :=
                  prune_runtime_snapshots
                    (telemetry w) (environ_after (dry_run g) kill_list w) cache1
                    (active_panes_by_session w) active_sessions
                    (match session_filter with Some _ => true | None => false end)
                    (dry_run g) in
                if prune_raised pruned
                then Some (Aborted agent_candidates kill_list
                                   (signals ++ prune_effects pruned)%list)
                else
                  Some (Completed
                          {| r_processes := processes;
                             r_ctx := x;
                             agent_candidates := agent_candidates;
                             keep_pids := keep_pids;
                             decisions := decisions;
                             kill_list := kill_list;
                             skipped_young := count_verdict SkipYoung decisions;
                             skipped_pane_miss := count_verdict SkipPaneMiss decisions;
                             removed_snapshots := removed pruned;
                             effects := (signals ++ prune_effects pruned)%list |})
          end
    end
  end.

End Classifier.

(** ** Sessions, layouts and panes

    The helpers that ask the session manager: [list_sessions],
    [parse_layout_pane_ids], [build_active_pane_map], [normalize_cwd] and
    [detect_projects_base].  What [run_cmd] returns is an argument: the
    output of the command, empty when it failed. *)

(** The double quote and the escape character. *)
Definition DQ : ascii := "034".
Definition ESC : ascii := "027".

(** [s] after its prefix [p], when it starts with it. *)
Fixpoint strip_prefix (p s : string) : option string :=
  match p with
  | EmptyString => Some s
  | String a p' =>
      match s with
      | String b s' => if Ascii.eqb a b then strip_prefix p' s' else None
      | EmptyString => None
      end
  end.

(** What precedes the first double quote of [s], and what follows it. *)
Fixpoint until_quote (s : string) : option (string * string) :=
  match s with
  | EmptyString => None
  | String c r =>
      if Ascii.eqb c DQ then Some (EmptyString, r)
      else match until_quote r with
           | Some (a, b) => Some (String c a, b)
           | None => None
           end
  end.

(** [ansi_re.sub] with the empty replacement, where [ansi_re] is: an
    escape character, a left bracket, digits and semicolons in any number,
    the letter [m].  The text is read character by character: [ansi_esc] after an escape character, [ansi_params seen]
    after an escape character, a bracket and the parameters [seen].  A
    sequence that ends in [m] is dropped; one that does not is text. *)
Inductive AnsiState := ansi_text | ansi_esc | ansi_params (seen : string).

Definition is_digit (c : ascii) : bool :=
  match Py.digit_of c with Some _ => true | None => false end.

Fixpoint ansi_sub_go (s : string) (st : AnsiState) : string :=
  match s with
  | EmptyString =>
      match st with
      | ansi_text => EmptyString
      | ansi_esc => String ESC EmptyString
      | ansi_params seen => String ESC (String "[" seen)
      end
  | String c r =>
      let plain := if Ascii.eqb c ESC then ansi_sub_go r ansi_esc
                   else String c (ansi_sub_go r ansi_text) in
      match st with
      | ansi_text => plain
      | ansi_esc =>
          if Ascii.eqb c "[" then ansi_sub_go r (ansi_params EmptyString)
          else String ESC plain
      | ansi_params seen =>
          if is_digit c || Ascii.eqb c ";"
          then ansi_sub_go r (ansi_params (seen ++ String c EmptyString))
          else if Ascii.eqb c "m" then ansi_sub_go r ansi_text
          else String ESC (String "[" (seen ++ plain))
      end
  end.

Definition ansi_sub (s : string) : string := ansi_sub_go s ansi_text.

(** The names of the first loop of [list_sessions]: the lines of the
    output, stripped, that are not empty. *)
Definition short_names (out : string) : list string :=
  filter Py.truthy (map Py.strip (Py.splitlines (Py.strip out))).

(** The body of the second loop: the first word of a line without its
    colour codes. *)
Definition first_word (line : string) : list string :=
  let cleaned := Py.strip (ansi_sub line) in
  if negb (Py.truthy cleaned) then []
  else match Py.split_ws cleaned (String.length cleaned) with
       | first :: _ => [first]
       | [] => []
       end.

(** [list_sessions()]: [short_out] is the output of
    [zellij list-sessions --short --no-formatting], [full_out] that of
    [zellij list-sessions]. *)
Definition list_sessions (short_out full_out : string) : list string :=
  let names := if Py.truthy short_out then short_names short_out else [] in
  if Py.truthy short_out && nonempty names then names
  else if negb (Py.truthy full_out) then names
  else (names ++ flat_map first_word (Py.splitlines (Py.strip full_out)))%list.

(** [os.path.join(a, b)] *)
Definition path_join (a b : string) : string :=
  if Py.startswith b "/" then b
  else if negb (Py.truthy a) || Py.endswith a "/" then a ++ b
  else a ++ "/" ++ b.

(** [normalize_cwd(cwd, projects_base)] *)
Definition normalize_cwd (cwd : string) (projects_base : option string) : string :=
  if negb (Py.truthy cwd) then EmptyString
  else if Py.startswith cwd "/" then cwd
  else
    match projects_base with
    | Some base => if Py.truthy base then path_join base cwd else cwd
    | None => cwd
    end.

(** What precedes the last double quote of the first line of [s]: the
    group of the pattern made of any characters but a line feed, as many
    as can be, and then a double quote, matched at the start of [s]. *)
Fixpoint before_last_quote (s : string) : option string :=
  match s with
  | EmptyString => None
  | String c r =>
      if Ascii.eqb c "010" then None
      else
        match before_last_quote r with
        | Some g => Some (String c g)
        | None => if Ascii.eqb c DQ then Some EmptyString else None
        end
  end.

(** Group 1 of the [re.match] of [detect_projects_base] on a line:
    blanks, [projects_base], blanks, an equals sign, blanks, a double
    quote, the group, a double quote; what follows is not looked at. *)
Definition projects_base_line (line : string) : option string :=
  match strip_prefix "projects_base" (Py.lstrip line) with
  | None => None
  | Some r1 =>
      match Py.lstrip r1 with
      | String c2 r2 =>
          if Ascii.eqb c2 "=" then
            match Py.lstrip r2 with
            | String c3 r3 => if Ascii.eqb c3 DQ then before_last_quote r3 else None
            | EmptyString => None
            end
          else None
      | EmptyString => None
      end
  end.

(** What opening and reading the configuration file gives: nothing when
    it cannot be opened; else the lines read, and whether reading raised
    after them. *)
Inductive ConfigRead :=
| ConfigUnreadable
| ConfigLines (lines : list string) (raised : bool).

(** The first line that assigns [projects_base]. *)
Fixpoint first_projects_base (lines : list string) : option string :=
  match lines with
  | [] => None
  | line :: rest =>
      match projects_base_line line with
      | Some v => Some v
      | None => first_projects_base rest
      end
  end.

(** [detect_projects_base()]: [home] is the home directory that
    [os.path.expanduser] gives. *)
Definition detect_projects_base (environ : Env) (home : string)
           (read_config : string -> ConfigRead) (isdir : string -> bool) : string :=
  let env_base := env_get environ "AOC_PROJECTS_BASE" in
  if Py.truthy env_base then env_base
  else
    let config_path :=
      if negb (Py.truthy (env_get environ "AOC_CONFIG_PATH"))
      then path_join (path_join (path_join home ".config") "aoc") "config.toml"
      else env_get environ "AOC_CONFIG_PATH" in
    match read_config config_path with
    | ConfigUnreadable => EmptyString
    | ConfigLines lines raised =>
        match first_projects_base lines with
        | Some v => v
        | None =>
            if raised then EmptyString
            else
              let dev_guess := path_join home "dev" in
              if isdir dev_guess then dev_guess else home
        end
    end.

(** [is_real_agent_command(cmd)] *)
Definition is_real_agent_command (extra_pattern_search : string -> bool) (cmd : string)
  : bool :=
  if negb (Py.truthy cmd) then false
  else if Py.str_in (Py.basename cmd)
                    ["aoc-agent"; "aoc-agent-run"; "aoc-oc"; "aoc-cc"; "aoc-gemini";
                     "aoc-kimi"; "aoc-pi"; "bash"]
  then false
  else AGENT_NAME_PATTERN_search extra_pattern_search cmd.

(** The text [--pane-id] followed by a double quote. *)
Definition pane_flag : string := "--pane-id" ++ String DQ EmptyString.

(** A match, at the start of [s], of the pattern of
    [parse_layout_pane_ids]: the flag [--pane-id] and a double quote,
    blanks in any number, a double quote, one character or more that are
    no double quote (group 1), and a double quote.  The result is group 1
    and what follows the match. *)
Definition pane_id_match (s : string) : option (string * string) :=
  match strip_prefix pane_flag s with
  | None => None
  | Some r =>
      match Py.lstrip r with
      | String c r' =>
          if Ascii.eqb c DQ then
            match until_quote r' with
            | Some (String g0 g, rest) => Some (String g0 g, rest)
            | _ => None
            end
          else None
      | EmptyString => None
      end
  end.

(** [re.finditer] of that pattern, as the groups 1 of the matches: the
    text is searched from left to right, a match starts at the first
    position that has one, and the search goes on where the match ended;
    [skip] counts the characters of the last match still to be passed. *)
Fixpoint pane_id_groups (s : string) (skip : nat) : list string :=
  match s with
  | EmptyString => []
  | String _ r =>
      match skip with
      | S k => pane_id_groups r k
      | O =>
          match pane_id_match s with
          | Some (g, rest) =>
              g :: pane_id_groups r (String.length s - String.length rest - 1)
          | None => pane_id_groups r 0
          end
      end
  end.

(** [s.split(sep)] for a separator that is not empty; [cur] is the piece
    being read, [skip] the characters of a separator still to be passed. *)
Fixpoint split_on (sep s cur : string) (skip : nat) : list string :=
  match s with
  | EmptyString => [cur]
  | String c r =>
      match skip with
      | S k => split_on sep r cur k
      | O =>
          if String.prefix sep s
          then cur :: split_on sep r EmptyString (String.length sep - 1)
          else split_on sep r (cur ++ String c EmptyString) 0
      end
  end.

(** The body of the second loop of [parse_layout_pane_ids]: the text
    between the first two double quotes of [part], stripped. *)
Definition quoted_pane_id (part : string) : option string :=
  match until_quote part with
  | None => None
  | Some (_, tail) =>
      match until_quote tail with
      | None => None
      | Some (inner, _) => Some (Py.strip inner)
      end
  end.

(** [if pane_id: pane_ids.add(pane_id)] *)
Definition add_pane_id (pane_ids : list string) (pane_id : string) : list string :=
  if Py.truthy pane_id then str_add pane_id pane_ids else pane_ids.

Definition parse_layout_pane_ids (text : string) : list string :=
  let pane_ids :=
    fold_left (fun ids g => add_pane_id ids (Py.strip (Py.or_str g EmptyString)))
              (pane_id_groups text 0) [] in
  if nonempty pane_ids then pane_ids
  else
    fold_left (fun ids part =>
                 match quoted_pane_id part with
                 | Some pane_id => add_pane_id ids pane_id
                 | None => ids
                 end)
              (tl (split_on pane_flag text EmptyString 0)) [].

(** [dump_layout(session)]: [zellij_dump (Some s)] is the output of
    [zellij -s s action dump-layout], [zellij_dump None] that of
    [zellij action dump-layout]. *)
Definition dump_layout (zellij_dump : option string -> string) (session : option string)
  : string :=
  match session with
  | Some s => if Py.truthy s then zellij_dump (Some s) else zellij_dump None
  | None => zellij_dump None
  end.

(** [pane_map[session] = pane_ids], when the layout of the session is not
    empty and names a pane. *)
Definition record_panes (layout_text : string) (session : string)
           (pane_map : list (string * list string)) : list (string * list string) :=
  if negb (Py.truthy layout_text) then pane_map
  else
    let pane_ids := parse_layout_pane_ids layout_text in
    if nonempty pane_ids then Py.set String.eqb session pane_ids pane_map else pane_map.

(** [build_active_pane_map(allowed_sessions)]; [sessions] is what
    [list_sessions()] returns. *)
Definition build_active_pane_map (environ : Env) (sessions : list string)
           (zellij_dump : option string -> string) (allowed_sessions : option (list string))
  : list (string * list string) :=
  let sessions :=
    match allowed_sessions with
    | Some allowed => filter (fun s => Py.str_in s allowed) sessions
    | None => sessions
    end in
  if nonempty sessions then
    fold_left (fun pane_map session =>
                 record_panes (dump_layout zellij_dump (Some session)) session pane_map)
              sessions []
  else
    let curr := get_current_session environ in
    match allowed_sessions with
    | None =>
        let layout_text := dump_layout zellij_dump None in
        if Py.truthy curr && Py.truthy layout_text then record_panes layout_text curr []
        else []
    | Some allowed =>
        if Py.truthy curr && Py.str_in curr allowed
        then record_panes (dump_layout zellij_dump None) curr []
        else []
    end.

(** ** The command line *)

(** The world after [os.environ] was replaced. *)
Definition with_environ (environ' : Env) (w : World) : World :=
  {| environ := environ';
     ps_listing := ps_listing w;
     listed_sessions := listed_sessions w;
     layout := layout w;
     active_panes_by_session := active_panes_by_session w;
     my_pid := my_pid w;
     os_cwd := os_cwd w;
     os_environ := os_environ w;
     os_environ_signalled := os_environ_signalled w;
     lease_first_line := lease_first_line w;
     os_kill := os_kill w;
     telemetry := telemetry w |}.

(** [main]: [args_dry_run] is [args.dry_run], which [argparse] leaves
    [None] or sets to [True]; [args_execute] is [args.execute].  The
    switches [g] of the module were read when it was loaded, before [main]
    runs; the answers of the external tools are taken not to depend on the
    variable [main] sets. *)
Definition main (extra_pattern_search : string -> bool)
           (shlex_split : string -> option (list string))
           (socket_re_search : string -> option string)
           (args_dry_run : option bool) (args_execute : bool)
           (g : Globals) (w : World) : option Outcome :=
  let environ' :=
    match args_dry_run with
    | Some flag =>
        Py.set String.eqb "AOC_CLEANUP_DRY_RUN" (if flag then "1" else "0") (environ w)
    | None =>
        if args_execute then Py.set String.eqb "AOC_CLEANUP_DRY_RUN" "0" (environ w)
        else environ w
    end in
  run_cleanup extra_pattern_search shlex_split socket_re_search g (with_environ environ' w).

(** ** A concrete classifier, for running the model

    No extra agent pattern is configured; [shlex_plain] cuts the words
    between blanks, as [shlex.split] does on text made of words and single
    spaces, free of quotes and backslashes; [no_socket] is
    [socket_re.search] on arguments that name no tmux socket. *)
Module Demo.

Definition no_extra_pattern (_ : string) : bool := false.

Definition shlex_plain (s : string) : option (list string) :=
  Some (Py.split_ws s (String.length s)).

Definition no_socket (_ : string) : option string := None.

Definition run (g : Globals) (w : World) : option Outcome :=
  run_cleanup no_extra_pattern shlex_plain no_socket g w.

Definition LF : string := String "010" EmptyString.

(** A [ps -eo pid,ppid,etimes,tty,comm,args] listing from its rows. *)
Definition listing (rows : list string) : PsResult :=
  PsOutput (String.concat LF ("    PID    PPID ELAPSED TT       COMMAND         COMMAND" :: rows)
            ++ LF)%string.

Definition no_layout : LayoutEvidence :=
  {| active_commands := []; agent_cwds := []; expected_cwds := []; expected_ids := [] |}.

Definition defaults : Globals :=
  {| dry_run := false; require_active_signals := false; skip_if_no_sessions := false;
     min_process_age_secs := 0 |}.

(** A world with nothing in it but the tool, pid 9000, outside the listing. *)
Definition bare (ps : PsResult) : World :=
  {| environ := [];
     ps_listing := ps;
     listed_sessions := [];
     layout := no_layout;
     active_panes_by_session := [];
     my_pid := 9000;
     os_cwd := fun _ => EmptyString;
     os_environ := fun _ => None;
     os_environ_signalled := fun _ => None;
     lease_first_line := fun _ => None;
     os_kill := fun _ _ => KillReturns;
     telemetry := None |}.

(** A session manager, pid 100, and the tool itself, pid 200, below it. *)
Definition tool_under_zellij : PsResult :=
  listing ["    100       1    5000 ?        zellij          zellij --server /run/x";
           "    200     100     400 pts/1    python3         python3 -m cleanup"].

(** One agent, pid 300, with no parent in the listing and no terminal. *)
Definition lone_agent : PsResult :=
  listing ["    300       1    5000 ?        claude          claude --resume"].

Definition orphan : World := bare lone_agent.

(** The environment block of a process in pane 3 of session [work], whose
    pane instance is [inst-1] and whose lease file is at [lease_path]. *)
Definition lease_path : string := "/run/aoc/work/pane-3.lease".

Definition pane_3_environ (session : string) : list string :=
  [("ZELLIJ_SESSION_NAME=" ++ session)%string; "ZELLIJ_PANE_ID=3";
   "AOC_PANE_INSTANCE_ID=inst-1"; ("AOC_PANE_LEASE_FILE=" ++ lease_path)%string].

(** Session [work] is live with pane 3; pid 300 runs in that pane, and the
    lease of the pane names [owner]. *)
Definition pane_3 (owner : string) : World :=
  {| environ := [];
     ps_listing := lone_agent;
     listed_sessions := ["work"];
     layout := no_layout;
     active_panes_by_session := [("work", ["3"])];
     my_pid := 9000;
     os_cwd := fun _ => "/home/u/proj";
     os_environ := fun pid => if pid =? 300 then Some (pane_3_environ "work") else None;
     os_environ_signalled := fun _ => None;
     lease_first_line :=
       fun path => if String.eqb path lease_path then Some (owner ++ LF)%string else None;
     os_kill := fun _ _ => KillReturns;
     telemetry := None |}.

(** The pane was handed to a successor instance: the lease names [inst-2]. *)
Definition live_pane_holdover : World := pane_3 "inst-2".

(** The process still owns its pane. *)
Definition live_pane : World := pane_3 "inst-1".


(** Pid 300 runs below the session manager, pid 100, in the one directory
    the layout expects an agent in, and lost its lease. *)
Definition safe_kept_holdover : World :=
  {| environ := [];
     ps_listing :=
       listing ["    100       1    9000 ?        zellij          zellij --server /run/x";
                "    300     100    5000 pts/2    claude          claude --resume"];
     listed_sessions := ["work"];
     layout := {| active_commands := []; agent_cwds := ["/home/u/proj"];
                  expected_cwds := [("/home/u/proj", 1)]; expected_ids := [] |};
     active_panes_by_session := [];
     my_pid := 9000;
     os_cwd := fun _ => "/home/u/proj";
     os_environ :=
       fun pid => if pid =? 300
                  then Some ["AOC_PANE_INSTANCE_ID=inst-1";
                             ("AOC_PANE_LEASE_FILE=" ++ lease_path)%string]
                  else None;
     os_environ_signalled := fun _ => None;
     lease_first_line :=
       fun path => if String.eqb path lease_path then Some ("inst-2" ++ LF)%string else None;
     os_kill := fun _ _ => KillReturns;
     telemetry := None |}.


(** The layout expects one agent in [/home/u/proj] and one in
    [/home/u/proj/web]; pid 520 runs in the former, pid 510 in the latter. *)
Definition overlapping_hints : World :=
  {| environ := [];
     ps_listing :=
       listing ["    510       1    5000 ?        claude          claude --resume";
                "    520       1    4000 ?        claude          claude"];
     listed_sessions := ["work"];
     layout := {| active_commands := [];
                  agent_cwds := ["/home/u/proj"; "/home/u/proj/web"];
                  expected_cwds := [("/home/u/proj", 1); ("/home/u/proj/web", 1)];
                  expected_ids := [] |};
     active_panes_by_session := [];
     my_pid := 9000;
     os_cwd := fun pid => if pid =? 510 then "/home/u/proj/web" else "/home/u/proj";
     os_environ := fun _ => None;
     os_environ_signalled := fun _ => None;
     lease_first_line := fun _ => None;
     os_kill := fun _ _ => KillReturns;
     telemetry := None |}.

(** No process at all, and one stale snapshot [work/9.json] whose deletion
    succeeds or not. *)
Definition stale_snapshot (deletable : bool) : World :=
  {| environ := [];
     ps_listing := listing [];
     listed_sessions := ["work"];
     layout := no_layout;
     active_panes_by_session := [("work", ["1"])];
     my_pid := 9000;
     os_cwd := fun _ => EmptyString;
     os_environ := fun _ => None;
     os_environ_signalled := fun _ => None;
     lease_first_line := fun _ => None;
     os_kill := fun _ _ => KillReturns;
     telemetry :=
       Some (Entries
               [{| session_name := "work"; is_dir := true;
                   files := Entries [{| file_name := "9.json"; snapshot_pid := Some 4242;
                                        remove_succeeds := deletable |}] |}]) |}.

(** A candidate as the keep selector reads it. *)
(** The world [w] for a user who may signal none of its processes:
    every [os.kill] raises [PermissionError]. *)
Definition not_permitted (w : World) : World :=
  {| environ := environ w;
     ps_listing := ps_listing w;
     listed_sessions := listed_sessions w;
     layout := layout w;
     active_panes_by_session := active_panes_by_session w;
     my_pid := my_pid w;
     os_cwd := os_cwd w;
     os_environ := os_environ w;
     os_environ_signalled := os_environ_signalled w;
     lease_first_line := lease_first_line w;
     os_kill := fun _ _ => KillOtherException;
     telemetry := telemetry w |}.

Definition candidate (pid : Z) (kind : Kind) (cwd : string) : Candidate :=
  {| c_pid := pid; c_ppid := 1; c_etimes := Some 5000; c_args := "agent";
     c_comm := "agent"; c_cwd := cwd; c_safe := false; c_kind := kind;
     c_session := EmptyString; c_pane_id := EmptyString;
     c_pane_instance_id := EmptyString; c_pane_lease_file := EmptyString;
     c_pane_instance_match := true; c_tty := "?"; c_has_tty := false |}.

End Demo.

(** ** Chains of parent links

    [on_chain processes p a]: [a] is reached from [p] along parent links,
    every pid on the way, [p] and [a] included, being a row of the table. *)
Inductive on_chain (processes : Processes) : Z -> Z -> Prop :=
| chain_here p info :
    Py.get Z.eqb p processes = Some info -> on_chain processes p p
| chain_up p info a :
    Py.get Z.eqb p processes = Some info ->
    on_chain processes (i_ppid info) a -> on_chain processes p a.

(** [a] is an ancestor of [p] that the table shows. *)
Definition visible_ancestor (processes : Processes) (p a : Z) : Prop :=
  exists info, Py.get Z.eqb p processes = Some info /\ on_chain processes (i_ppid info) a.

(** [exits processes p n]: the loop [while curr in processes] started at
    [p] runs its body [n] times and stops. *)
Inductive exits (processes : Processes) : Z -> nat -> Prop :=
| exits_now p : Py.get Z.eqb p processes = None -> exits processes p 0
| exits_up p info n :
    Py.get Z.eqb p processes = Some info ->
    exits processes (i_ppid info) n -> exits processes p (S n).

(** Readings of an outcome; a skipped run has no candidates and does
    nothing; a pass left by an exception has the candidates and the kill
    list it had built and the calls it had made, and reports no count. *)
Definition outcome_candidates (o : Outcome) : list Candidate :=
  match o with
  | Completed r => agent_candidates r
  | Aborted candidates _ _ => candidates
  | _ => []
  end.

Definition outcome_kill_list (o : Outcome) : list (Z * string) :=
  match o with
  | Completed r => kill_list r
  | Aborted _ kills _ => kills
  | _ => []
  end.

Definition outcome_effects (o : Outcome) : list Effect :=
  match o with
  | Completed r => effects r
  | Aborted _ _ done => done
  | _ => []
  end.


(** The pass ran to its end and printed its report. *)
Definition completed (o : Outcome) : bool :=
  match o with Aborted _ _ _ => false | _ => true end.

Definition with_dry_run (dry : bool) (g : Globals) : Globals :=
  {| dry_run := dry;
     require_active_signals := require_active_signals g;
     skip_if_no_sessions := skip_if_no_sessions g;
     min_process_age_secs := min_process_age_secs g |}.

Definition outcome_decisions (o : Outcome) : list (Candidate * Verdict) :=
  match o with Completed r => decisions r | _ => [] end.

(** The environment block of [pid] as the system shows it before any signal. *)
Definition env_of (w : World) (pid : Z) : Env :=
  match os_environ w pid with
  | Some data => parse_environ data
  | None => []
  end.

(** [ENV_CACHE] holds nothing but what was read from the system. *)
Definition cache_ok (w : World) (cache : EnvCache) : Prop :=
  forall pid env, Py.get Z.eqb pid cache = Some env -> env = env_of w pid.

Scheme Equality for Signal.

(** The pids sent [sig], in the order of the calls. *)
Definition signalled (sig : Signal) (es : list Effect) : list Z :=
  flat_map (fun e => match e with
                     | OsKill pid sig' => if Signal_beq sig sig' then [pid] else []
                     | _ => []
                     end) es.



(** The order of preference among kinds in the directory and identity
    strategies: [agent_bin] before [agent_node] before [other]. *)
Definition kind_preference (k : Kind) : Z :=
  match k with agent_bin => 0 | agent_node => 1 | other => 2 end.

Definition outcome_keep_pids (o : Outcome) : list Z :=
  match o with Completed r => keep_pids r | _ => [] end.

(** An effect of the pruner. *)
Definition is_removal (e : Effect) : Prop :=
  match e with OsRemove _ _ _ => True | _ => False end.



(** The order [sort_pid_desc] leaves the candidates in: pids descending. *)
Definition pid_desc (a b : Candidate) : Prop := c_pid b <= c_pid a.

(** The first candidate of a report. *)
Definition first_candidate (r : Report) : option Candidate := hd_error (agent_candidates r).

(** ** Readings of the model, for the properties below *)

(** [reaches children roots x]: [x] is one of [roots], or a child, by
    [children], of a pid that is reached. *)
Inductive reaches (children : Children) (roots : list Z) : Z -> Prop :=
| reaches_root r : In r roots -> reaches children roots r
| reaches_child p c :
    reaches children roots p -> In c (children_of children p) ->
    reaches children roots c.

(** What the loop of [get_descendants] keeps true: [safe] holds reached
    pids only, the roots among them and the stack; a pid of [safe] that is
    off the stack has all its children in [safe]. *)
Definition closure_inv (children : Children) (roots stack safe : list Z) : Prop :=
  (forall x, pid_in x safe = true -> reaches children roots x)
  /\ (forall x, In x roots -> pid_in x safe = true)
  /\ (forall x, In x stack -> pid_in x safe = true)
  /\ (forall p c, pid_in p safe = true -> In c (children_of children p) ->
                  In p stack \/ pid_in c safe = true).

(** The table and the children map agree: every row is listed under the
    parent it names, and every listed child is a row. *)
Definition table_inv (acc : Processes * Children) : Prop :=
  (forall pid info, Py.get Z.eqb pid (fst acc) = Some info ->
                    In pid (children_of (snd acc) (i_ppid info)))
  /\ (forall p c, In c (children_of (snd acc) p) -> In c (map fst (fst acc))).

(** No character of [s] is one that [parse_session_filter] splits at. *)
Definition free_of_separators (s : string) : bool :=
  forallb (fun c => negb (Py.is_space c || Ascii.eqb c ",")) (list_ascii_of_string s).

(** The three tests a row of the table passes to become an agent
    candidate: it is an agent process, neither its name nor its arguments
    hold a protected command, and its arguments are not those of a process
    search. *)
Definition candidate_row (extra_pattern_search : string -> bool)
           (shlex_split : string -> option (list string)) (info : ProcInfo) : bool :=
  is_agent_process extra_pattern_search shlex_split (i_args info) (i_comm info)
  && negb (existsb (fun p => Py.contains p (i_comm info) || Py.contains p (i_args info))
                   PROTECTED_COMMANDS)
  && negb (existsb (fun x => Py.contains x (i_args info)) [" grep "; " pgrep "; " ps "]).

(** [proc] is the candidate made of the row [row]. *)
Definition candidate_of_row (w : World) (safe_pids : list Z) (row : Z * ProcInfo)
           (proc : Candidate) : Prop :=
  c_pid proc = fst row
  /\ c_ppid proc = i_ppid (snd row)
  /\ c_etimes proc = i_etimes (snd row)
  /\ c_args proc = i_args (snd row)
  /\ c_comm proc = i_comm (snd row)
  /\ c_tty proc = i_tty (snd row)
  /\ c_cwd proc = os_cwd w (fst row)
  /\ c_safe proc = pid_in (fst row) safe_pids.

(** [expected_total] of the pane-strict strategy. *)
Definition expected_total (ev : LayoutEvidence) : Z :=
  if nonempty (expected_cwds ev) then sum_values (expected_cwds ev)
  else if nonempty (expected_ids ev) then sum_values (expected_ids ev)
  else 0.

(** The key of the pane group a candidate is filed under. *)
Definition pane_key (proc : Candidate) : string * string :=
  (Py.or_str (c_session proc) EmptyString, c_pane_id proc).

(** The pane groups hold candidates only, each under its own key, and no
    group is empty. *)
Definition groups_ok (all : list Candidate)
           (groups : list ((string * string) * list Candidate)) : Prop :=
  NoDup (map fst groups)
  /\ forall key procs,
      In (key, procs) groups ->
      procs <> [] /\ forall p, In p procs -> In p all /\ key = pane_key p.

(** A candidate recorded in pane [pane] of session [session]. *)
Definition pane_candidate (pid ppid : Z) (session pane tty : string) : Candidate :=
  {| c_pid := pid; c_ppid := ppid; c_etimes := Some 5000; c_args := "claude";
     c_comm := "claude"; c_cwd := "/home/u/proj"; c_safe := false; c_kind := agent_bin;
     c_session := session; c_pane_id := pane;
     c_pane_instance_id := EmptyString; c_pane_lease_file := EmptyString;
     c_pane_instance_match := true; c_tty := tty;
     c_has_tty := Py.truthy tty && negb (String.eqb tty "?") |}.

(** The directory of a session named by a snapshot file: the pane ids
    the active-pane index lists for it. *)
Definition panes_of (panes : list (string * list string)) (session : string) : list string :=
  match Py.get String.eqb session panes with
  | Some s => s
  | None => []
  end.

(** What one [os.remove] of the pruner was called on: a [.json] file [f]
    of a directory [d] of the telemetry root, whose session passes the
    session filter, and whose pane id is empty or none of the live panes of
    the session. *)
Definition stale_snapshot_removal (tel : option (Listdir SessionDir))
           (panes : list (string * list string)) (active_sessions : list string)
           (session_filter_active : bool) (e : Effect) : Prop :=
  exists dirs d fs f,
    tel = Some (Entries dirs) /\ In d dirs /\ is_dir d = true
    /\ files d = Entries fs /\ In f fs
    /\ e = OsRemove (session_name d) (file_name f) (remove_succeeds f)
    /\ Py.endswith (file_name f) ".json" = true
    /\ (session_filter_active = true -> active_sessions <> [] ->
        Py.str_in (session_name d) active_sessions = true)
    /\ (Py.strip (Py.drop_last 5 (file_name f)) = EmptyString
        \/ Py.str_in (Py.strip (Py.drop_last 5 (file_name f)))
                     (panes_of panes (session_name d)) = false).

(** The lease a candidate holds, as the system shows it: the pane
    instance and the lease file its environment names. *)
Definition env_instance (w : World) (pid : Z) : string :=
  env_get (env_of w pid) "AOC_PANE_INSTANCE_ID".

Definition env_lease_file (w : World) (pid : Z) : string :=
  env_get (env_of w pid) "AOC_PANE_LEASE_FILE".

(** A pane id as the active-pane index holds it: not empty, and with no
    blank at either end. *)
Definition trimmed_name (s : string) : Prop := s <> EmptyString /\ Py.strip s = s.

(** No character of [s] is a blank. *)
Definition free_of_blanks (s : string) : bool :=
  forallb (fun c => negb (Py.is_space c)) (list_ascii_of_string s).

(** [preferred_pool] of a pane group: its members with a terminal if
    there are any, else those whose parent is outside the group if there
    are any, else all of them. *)
Definition preferred_pool (procs : list Candidate) : list Candidate :=
  let with_tty := filter c_has_tty procs in
  if nonempty with_tty then with_tty
  else
    let group_pids := map c_pid procs in
    let roots := filter (fun p => negb (pid_in (c_ppid p) group_pids)) procs in
    if nonempty roots then roots else procs.

(** [a]'s rank is not after [b]'s. *)
Definition rank_le (a b : Candidate) : Prop := rank_lt (root_rank b) (root_rank a) = false.

(** The verdicts that pane-strict mode with layout evidence can give. *)
Definition strict_verdict (v : Verdict) : bool :=
  match v with
  | RetainExcludedSession | KillLeaseMismatch | RetainActivePane | KillPaneMiss
  | RetainKeepTree | SkipYoung | KillOrphan => true
  | SkipPaneMiss | RetainSafe | RetainActiveSession | RetainActiveCommand
  | RetainActiveDirectory => false
  end.

(** The children not yet in [safe], counted with repetition: what
    [get_descendants] may still push. *)
Definition pending (universe safe : list Z) : nat :=
  List.length (filter (fun c => negb (pid_in c safe)) universe).

(** * Properties *)

(** ** Python primitives *)

Example strip_ex : Py.strip "  ab c  " = "ab c".
Proof. reflexivity. Qed.

Example basename_ex : Py.basename "/usr/bin/claude" = "claude" /\ Py.basename "a/" = "".
Proof. split; reflexivity. Qed.

Example split_ex :
  Py.split_ws "1 2  3 ? node node /x/opencode  run" 5
  = ["1"; "2"; "3"; "?"; "node"; "node /x/opencode  run"].
Proof. reflexivity. Qed.

Example int_ex :
  Py.int " -1_0 " = Some (-10) /\ Py.int "1__0" = None /\ Py.int "" = None
  /\ Py.int "12abc" = None /\ Py.int "+7" = Some 7
  /\ Py.int (String "031" "5") = None.
Proof. repeat split; reflexivity. Qed.

Example splitlines_ex :
  Py.splitlines (String.concat Demo.LF ["a"; ""; "b"] ++ String "013" Demo.LF)%string
  = ["a"; ""; "b"].
Proof. reflexivity. Qed.

Example sort_ex :
  Py.sort_stable (fun a b => fst b <? fst a) [(1, "a"); (3, "b"); (1, "c"); (2, "d")]
  = [(3, "b"); (2, "d"); (1, "a"); (1, "c")].
Proof. reflexivity. Qed.

Lemma int_empty : Py.int EmptyString = None.
Proof. reflexivity. Qed.

Lemma truthy_false s : Py.truthy s = false -> s = EmptyString.
Proof. destruct s; [reflexivity | discriminate]. Qed.

Lemma truthy_true s : Py.truthy s = true <-> s <> EmptyString.
Proof. destruct s; simpl; split; congruence. Qed.

(** ** [env_int] *)

(** C10.  A value of the switch that, once its surrounding blanks are
    trimmed, [int] reads as an integer below the minimum makes [env_int]
    return the minimum and print nothing; a warning is printed only for a
    value that is non-blank and that [int] rejects, and [env_int] then
    returns the default.  The minimum-process-age switch is the instance
    with default and minimum 0. *)
Theorem env_int_below_minimum_is_silent :
  forall (environ : Env) (name : string) (default minimum : Z),
    (forall raw value,
        Py.get String.eqb name environ = Some raw ->
        Py.int (Py.strip raw) = Some value -> value < minimum ->
        env_int environ name default minimum = (minimum, []))
    /\ (snd (env_int environ name default minimum) <> [] ->
        exists raw,
          Py.get String.eqb name environ = Some raw
          /\ Py.strip raw <> EmptyString
          /\ Py.int (Py.strip raw) = None
          /\ env_int environ name default minimum = (default, [WarnNotInteger name default]))
    /\ min_process_age_secs_of environ
       = env_int environ "AOC_CLEANUP_MIN_PROCESS_AGE_SECS" 0 0.
Proof.
  intros environ name default minimum. split; [|split; [|reflexivity]].
  - intros raw value Hget Hint Hlt.
    unfold env_int, env_get. rewrite Hget.
    destruct (Py.truthy (Py.strip raw)) eqn:Ht.
    + simpl. rewrite Hint.
      apply Z.ltb_lt in Hlt. rewrite Hlt. reflexivity.
    + apply truthy_false in Ht. rewrite Ht, int_empty in Hint. discriminate.
  - unfold env_int, env_get.
    destruct (Py.get String.eqb name environ) as [raw|] eqn:Hget.
    + destruct (Py.truthy (Py.strip raw)) eqn:Ht; simpl.
      * destruct (Py.int (Py.strip raw)) as [value|] eqn:Hint.
        -- destruct (value <? minimum); simpl; congruence.
        -- intros _. exists raw.
           split; [reflexivity|]. split; [apply truthy_true; exact Ht|].
           split; [exact Hint | reflexivity].
      * congruence.
    + simpl. congruence.
Qed.

Lemma env_int_below_minimum_is_silent_witness :
  env_int [("AOC_CLEANUP_MIN_PROCESS_AGE_SECS", " -30 ")]
          "AOC_CLEANUP_MIN_PROCESS_AGE_SECS" 0 0 = (0, []).
Proof.
  apply (proj1 (env_int_below_minimum_is_silent
                  [("AOC_CLEANUP_MIN_PROCESS_AGE_SECS", " -30 ")]
                  "AOC_CLEANUP_MIN_PROCESS_AGE_SECS" 0 0) " -30 " (-30)).
  - reflexivity.
  - reflexivity.
  - lia.
Defined.

Example env_int_warns :
  env_int [("AOC_CLEANUP_MIN_PROCESS_AGE_SECS", "soon")]
          "AOC_CLEANUP_MIN_PROCESS_AGE_SECS" 0 0
  = (0, [WarnNotInteger "AOC_CLEANUP_MIN_PROCESS_AGE_SECS" 0]).
Proof. reflexivity. Qed.

(** ** Sets of pids and dictionaries *)

Local Arguments pid_in _ _ : simpl never.

Lemma pid_in_In x s : pid_in x s = true <-> In x s.
Proof.
  unfold pid_in. rewrite existsb_exists. split.
  - intros (y & Hy & E). apply Z.eqb_eq in E. subst. exact Hy.
  - intros H. exists x. split; [exact H | apply Z.eqb_refl].
Qed.

Lemma pid_in_cons x y s : pid_in x (y :: s) = (x =? y) || pid_in x s.
Proof. reflexivity. Qed.

Lemma pid_add_spec x y s : pid_in x (pid_add y s) = (x =? y) || pid_in x s.
Proof.
  unfold pid_add. destruct (pid_in y s) eqn:E; [|reflexivity].
  destruct (x =? y) eqn:Exy; [|reflexivity].
  apply Z.eqb_eq in Exy. subst. rewrite E. reflexivity.
Qed.

Lemma pid_add_mono x y s : pid_in x s = true -> pid_in x (pid_add y s) = true.
Proof. intros H. rewrite pid_add_spec, H. apply orb_true_r. Qed.

Lemma pid_union_mono x s t : pid_in x s = true -> pid_in x (pid_union s t) = true.
Proof.
  unfold pid_union. revert s. induction t as [|y t IH]; intros s H; simpl.
  - exact H.
  - apply IH. apply pid_add_mono. exact H.
Qed.

Lemma fold_left_invariant {A B} (P : A -> Prop) (f : A -> B -> A) (l : list B) (a : A) :
  (forall a b, P a -> P (f a b)) -> P a -> P (fold_left f l a).
Proof.
  intros Hf. revert a. induction l as [|b l IH]; intros a Ha; simpl.
  - exact Ha.
  - apply IH. apply Hf. exact Ha.
Qed.

Section DictZ.
Context {V : Type}.
Implicit Types (d : list (Z * V)).

Lemma get_in_keys k d v : Py.get Z.eqb k d = Some v -> In k (map fst d).
Proof.
  induction d as [|[k' v'] r IH]; simpl; [discriminate|].
  destruct (k =? k') eqn:E.
  - apply Z.eqb_eq in E. subst. intros _. left. reflexivity.
  - intros H. right. apply IH. exact H.
Qed.

Lemma get_none_keys k d : Py.get Z.eqb k d = None -> ~ In k (map fst d).
Proof.
  induction d as [|[k' v'] r IH]; simpl; [tauto|].
  destruct (k =? k') eqn:E; [discriminate|].
  apply Z.eqb_neq in E. intros H [H1 | H1]; [congruence | exact (IH H H1)].
Qed.

Lemma keys_get k d : In k (map fst d) -> exists v, Py.get Z.eqb k d = Some v.
Proof.
  intros H. destruct (Py.get Z.eqb k d) as [v|] eqn:E.
  - exists v. reflexivity.
  - exfalso. exact (get_none_keys _ _ E H).
Qed.

Lemma get_in k d v : Py.get Z.eqb k d = Some v -> In (k, v) d.
Proof.
  induction d as [|[k' v'] r IH]; simpl; [discriminate|].
  destruct (k =? k') eqn:E.
  - apply Z.eqb_eq in E. subst. intros H. left. congruence.
  - intros H. right. apply IH. exact H.
Qed.

Lemma set_keys k v d k' :
  In k' (map fst (Py.set Z.eqb k v d)) <-> k' = k \/ In k' (map fst d).
Proof.
  induction d as [|[k0 v0] r IH]; simpl.
  - intuition congruence.
  - destruct (k =? k0) eqn:E; simpl.
    + apply Z.eqb_eq in E. subst. intuition congruence.
    + rewrite IH. intuition congruence.
Qed.

Lemma set_keys_nodup k v d :
  NoDup (map fst d) -> NoDup (map fst (Py.set Z.eqb k v d)).
Proof.
  induction d as [|[k0 v0] r IH]; simpl; intros H.
  - constructor; [intros [] | constructor].
  - inversion H as [|? ? Hn Hr]; subst.
    destruct (k =? k0) eqn:E; simpl.
    + apply Z.eqb_eq in E. subst. constructor; assumption.
    + apply Z.eqb_neq in E. constructor; [|apply IH; exact Hr].
      rewrite set_keys. intros [H1 | H1]; [congruence | exact (Hn H1)].
Qed.

Lemma mem_keys k d : Py.mem Z.eqb k d = true <-> In k (map fst d).
Proof.
  unfold Py.mem. split.
  - destruct (Py.get Z.eqb k d) eqn:E; [|discriminate].
    intros _. eapply get_in_keys. exact E.
  - intros H. destruct (keys_get _ _ H) as [v E]. rewrite E. reflexivity.
Qed.
End DictZ.

(** ** The process table *)

Lemma process_row_nodup line acc :
  NoDup (map fst (fst acc)) -> NoDup (map fst (fst (process_row line acc))).
Proof.
  intros H. unfold process_row.
  repeat match goal with
         | |- context [match ?x with _ => _ end] => destruct x
         end; simpl; try exact H.
  apply set_keys_nodup. exact H.
Qed.

(** The table has one row per pid. *)
Lemma get_process_map_nodup ps maps :
  get_process_map ps = Some maps -> NoDup (map fst (fst maps)).
Proof.
  destruct ps as [out| |]; simpl; intros E; [| |discriminate];
    injection E as E; subst maps; [|constructor].
  apply (fold_left_invariant (fun acc => NoDup (map fst (fst acc)))).
  - intros a b. apply process_row_nodup.
  - constructor.
Qed.

(** ** [get_descendants] returns *)

Lemma pending_cons_le universe c safe :
  (pending universe (c :: safe) <= pending universe safe)%nat.
Proof.
  unfold pending. induction universe as [|u r IH]; simpl; [lia|].
  rewrite pid_in_cons.
  destruct (u =? c), (pid_in u safe); simpl; lia.
Qed.

Lemma pending_cons_lt universe c safe :
  In c universe -> pid_in c safe = false ->
  (pending universe (c :: safe) < pending universe safe)%nat.
Proof.
  intros Hin Hc. unfold pending.
  induction universe as [|u r IH]; simpl; [destruct Hin|].
  rewrite pid_in_cons.
  pose proof (pending_cons_le r c safe) as Hle. unfold pending in Hle.
  destruct Hin as [E | Hin].
  - subst. rewrite Z.eqb_refl, Hc. simpl. lia.
  - specialize (IH Hin).
    destruct (u =? c), (pid_in u safe); simpl; lia.
Qed.

Lemma push_children_measure universe kids stack safe stack' safe' :
  incl kids universe ->
  push_children kids (stack, safe) = (stack', safe') ->
  (List.length stack' + pending universe safe'
   <= List.length stack + pending universe safe)%nat.
Proof.
  unfold push_children. revert stack safe.
  induction kids as [|c kids IH]; intros stack safe Hincl H; simpl in H.
  - inversion H; subst. lia.
  - assert (Hc : In c universe) by (apply Hincl; left; reflexivity).
    assert (Hk : incl kids universe) by (intros y Hy; apply Hincl; right; exact Hy).
    destruct (pid_in c safe) eqn:E.
    + exact (IH _ _ Hk H).
    + specialize (IH _ _ Hk H).
      pose proof (pending_cons_lt universe c safe Hc E). simpl in IH. lia.
Qed.

Lemma push_children_mono kids stack safe stack' safe' x :
  push_children kids (stack, safe) = (stack', safe') ->
  pid_in x safe = true -> pid_in x safe' = true.
Proof.
  unfold push_children. revert stack safe.
  induction kids as [|c kids IH]; intros stack safe H Hx; simpl in H.
  - inversion H; subst. exact Hx.
  - destruct (pid_in c safe) eqn:E.
    + exact (IH _ _ H Hx).
    + apply (IH _ _ H). rewrite pid_in_cons, Hx. apply orb_true_r.
Qed.

Lemma children_of_incl children curr :
  incl (children_of children curr) (all_children children).
Proof.
  unfold children_of, all_children.
  destruct (Py.get Z.eqb curr children) as [l|] eqn:E; [|intros y []].
  apply get_in in E. intros y Hy.
  apply in_concat. exists l. split; [|exact Hy].
  apply in_map_iff. exists (curr, l). split; [reflexivity | exact E].
Qed.

Lemma descend_total children fuel :
  forall stack safe,
    (List.length stack + pending (all_children children) safe <= fuel)%nat ->
    exists s, descend fuel children stack safe = Some s.
Proof.
  induction fuel as [|fuel IH]; intros stack safe Hm.
  - destruct stack; [exists safe; reflexivity | simpl in Hm; lia].
  - destruct stack as [|curr rest]; [exists safe; reflexivity|].
    simpl.
    destruct (push_children (children_of children curr) (rest, safe))
      as [stack' safe'] eqn:E.
    apply IH.
    pose proof (push_children_measure _ _ _ _ _ _ (children_of_incl children curr) E).
    simpl in Hm. lia.
Qed.

Lemma descend_mono children fuel :
  forall stack safe s x,
    descend fuel children stack safe = Some s ->
    pid_in x safe = true -> pid_in x s = true.
Proof.
  induction fuel as [|fuel IH]; intros stack safe s x H Hx.
  - destruct stack; simpl in H; [|discriminate]. inversion H; subst. exact Hx.
  - destruct stack as [|curr rest]; simpl in H.
    + inversion H; subst. exact Hx.
    + destruct (push_children (children_of children curr) (rest, safe))
        as [stack' safe'] eqn:E.
      apply (IH _ _ _ _ H). exact (push_children_mono _ _ _ _ _ _ E Hx).
Qed.

(** The loop of [get_descendants] always ends within the fuel it is given. *)
Lemma get_descendants_total roots children :
  exists s, get_descendants roots children = Some s.
Proof.
  unfold get_descendants. apply descend_total.
  rewrite length_rev. unfold pending.
  pose proof (filter_length_le (fun c => negb (pid_in c roots)) (all_children children)).
  lia.
Qed.

Lemma get_descendants_roots roots children s x :
  get_descendants roots children = Some s -> In x roots -> pid_in x s = true.
Proof.
  intros H Hx. apply (descend_mono _ _ _ _ _ _ H). apply pid_in_In. exact Hx.
Qed.

(** ** The walk up the tool's ancestry *)

Lemma walk_ancestors_mono processes fuel :
  forall curr safe s x,
    walk_ancestors fuel processes curr safe = Some s ->
    pid_in x safe = true -> pid_in x s = true.
Proof.
  induction fuel as [|fuel IH]; intros curr safe s x H Hx; simpl in H;
    destruct (Py.get Z.eqb curr processes) as [info|]; try discriminate;
    try (inversion H; subst; exact Hx).
  apply (IH _ _ _ _ H). apply pid_add_mono. exact Hx.
Qed.

Lemma walk_ancestors_chain processes fuel :
  forall curr safe s a,
    walk_ancestors fuel processes curr safe = Some s ->
    on_chain processes curr a -> pid_in a s = true.
Proof.
  induction fuel as [|fuel IH]; intros curr safe s a H Hc; simpl in H;
    destruct (Py.get Z.eqb curr processes) as [info|] eqn:E; try discriminate;
    try (inversion Hc; congruence).
  inversion Hc as [p info' E' | p info' a' E' Hup]; subst.
  - apply (walk_ancestors_mono _ _ _ _ _ _ H).
    rewrite pid_add_spec, Z.eqb_refl. reflexivity.
  - rewrite E in E'. inversion E'; subst. exact (IH _ _ _ _ H Hup).
Qed.

Lemma exits_det processes p n :
  exits processes p n -> forall m, exits processes p m -> n = m.
Proof.
  induction 1 as [p E | p info n E Hn IH]; intros m Hm.
  - inversion Hm; [reflexivity | congruence].
  - inversion Hm as [? E' | ? info' m' E' Hm']; subst; [congruence|].
    rewrite E in E'. inversion E'; subst. f_equal. apply IH. exact Hm'.
Qed.

(** The pids a terminating walk visits are rows of the table, each visited
    once. *)
Lemma exits_visits processes p n :
  exits processes p n ->
  exists l, List.length l = n /\ NoDup l
            /\ forall x, In x l ->
                         In x (map fst processes)
                         /\ exists k, (k <= n)%nat /\ exits processes x k.
Proof.
  induction 1 as [p E | p info n E Hn (l & Hlen & Hnd & Hl)].
  - exists []. split; [reflexivity|]. split; [constructor|]. intros x [].
  - exists (p :: l). split; [simpl; congruence|]. split.
    + constructor; [|exact Hnd]. intros Hin.
      destruct (Hl _ Hin) as (_ & k & Hk & Hex).
      assert (Hp : exits processes p (S n)) by (econstructor; eassumption).
      pose proof (exits_det _ _ _ Hex _ Hp). lia.
    + intros x [Hx | Hx].
      * subst x. split; [eapply get_in_keys; exact E|].
        exists (S n). split; [lia | econstructor; eassumption].
      * destruct (Hl _ Hx) as (Hk1 & k & Hk & Hex).
        split; [exact Hk1|]. exists k. split; [lia | exact Hex].
Qed.

Lemma exits_bound processes p n :
  exits processes p n -> (n <= List.length processes)%nat.
Proof.
  intros H. destruct (exits_visits _ _ _ H) as (l & Hlen & Hnd & Hl).
  rewrite <- Hlen, <- (length_map fst processes).
  apply NoDup_incl_length; [exact Hnd|].
  intros x Hx. apply (Hl x Hx).
Qed.

Lemma walk_ancestors_fuel processes p n :
  exits processes p n ->
  forall fuel safe, (n <= fuel)%nat ->
                    exists s, walk_ancestors fuel processes p safe = Some s.
Proof.
  induction 1 as [p E | p info n E Hn IH]; intros fuel safe Hf.
  - exists safe. destruct fuel; simpl; rewrite E; reflexivity.
  - destruct fuel as [|fuel]; [lia|]. simpl. rewrite E. apply IH. lia.
Qed.

(** Within the fuel [run_cleanup] gives it, the walk returns exactly when
    the source loop stops. *)
Lemma walk_ancestors_exits processes p n safe :
  exits processes p n ->
  exists s, walk_ancestors (List.length processes) processes p safe = Some s.
Proof.
  intros H. apply (walk_ancestors_fuel _ _ _ H). exact (exits_bound _ _ _ H).
Qed.

Lemma walk_ancestors_some processes fuel :
  forall p safe s,
    walk_ancestors fuel processes p safe = Some s -> exists n, exits processes p n.
Proof.
  induction fuel as [|fuel IH]; intros p safe s H; simpl in H;
    destruct (Py.get Z.eqb p processes) as [info|] eqn:E; try discriminate;
    try (exists 0%nat; constructor; exact E).
  destruct (IH _ _ _ H) as [n Hn]. exists (S n). econstructor; eassumption.
Qed.

Lemma walk_ancestors_none processes p safe :
  walk_ancestors (List.length processes) processes p safe = None ->
  forall n, ~ exits processes p n.
Proof.
  intros H n Hn. destruct (walk_ancestors_exits _ _ _ safe Hn) as [s Hs]. congruence.
Qed.

(** ** The safe tree *)

(** C3, as the code has it.  On every table on which the walk up the
    tool's ancestry stops, [safe_pids] is computed and holds the tool's own
    pid when the table shows it, and every ancestor of it that the table
    shows. *)
Theorem safe_pids_hold_the_visible_ancestry :
  forall (socket_re_search : string -> option string)
         (processes : Processes) (children : Children) (my_pid : Z) (n : nat),
    exits processes my_pid n ->
    exists safe,
      compute_safe_pids socket_re_search processes children my_pid = Some safe
      /\ (Py.mem Z.eqb my_pid processes = true -> pid_in my_pid safe = true)
      /\ (forall a, visible_ancestor processes my_pid a -> pid_in a safe = true).
Proof.
  intros sock processes children my_pid n Hex.
  unfold compute_safe_pids.
  destruct (get_descendants_total (zellij_pids processes) children) as [safe0 E0].
  rewrite E0.
  destruct (walk_ancestors_exits _ _ _ safe0 Hex) as [safe1 E1]. rewrite E1.
  assert (Hchain : forall a, on_chain processes my_pid a -> pid_in a safe1 = true)
    by (intros a; apply (walk_ancestors_chain _ _ _ _ _ _ E1)).
  assert (Hconcl : forall safe,
             (forall a, pid_in a safe1 = true -> pid_in a safe = true) ->
             (Py.mem Z.eqb my_pid processes = true -> pid_in my_pid safe = true)
             /\ (forall a, visible_ancestor processes my_pid a -> pid_in a safe = true)).
  { intros safe Hsub. split.
    - intros Hmem. apply Hsub, Hchain. unfold Py.mem in Hmem.
      destruct (Py.get Z.eqb my_pid processes) as [info|] eqn:E; [|discriminate].
      econstructor. exact E.
    - intros a (info & E & Hup). apply Hsub, Hchain.
      eapply chain_up; eassumption. }
  destruct (find_safe_tmux_sockets sock safe1 processes) as [|s0 ss] eqn:Es.
  - exists safe1. split; [reflexivity|]. apply Hconcl. auto.
  - destruct (get_descendants_total
                (find_tmux_servers_for_sockets sock (s0 :: ss) processes) children)
      as [servers E2].
    rewrite E2. exists (pid_union safe1 servers). split; [reflexivity|].
    apply Hconcl. intros a Ha. apply pid_union_mono. exact Ha.
Qed.

Lemma safe_pids_hold_the_visible_ancestry_witness :
  exists maps,
    get_process_map Demo.tool_under_zellij = Some maps
    /\ exists safe,
        compute_safe_pids Demo.no_socket (fst maps) (snd maps) 200 = Some safe
        /\ (Py.mem Z.eqb 200 (fst maps) = true -> pid_in 200 safe = true)
        /\ (forall a, visible_ancestor (fst maps) 200 a -> pid_in a safe = true).
Proof.
  eexists. split; [reflexivity|].
  apply (safe_pids_hold_the_visible_ancestry Demo.no_socket _ _ 200 2).
  eapply exits_up; [reflexivity|].
  eapply exits_up; [reflexivity|].
  apply exits_now. reflexivity.
Defined.

Example tool_under_zellij_safe :
  option_map (fun maps => compute_safe_pids Demo.no_socket (fst maps) (snd maps) 200)
             (get_process_map Demo.tool_under_zellij)
  = Some (Some [200; 100]).
Proof. reflexivity. Qed.

(** C3 fails as stated: on the empty table of a failed listing the walk
    adds nothing, and the tool's own pid (9000 here) is not in [safe_pids]. *)
Lemma safe_pids_miss_a_tool_outside_the_table :
  get_process_map PsCalledProcessError = Some ([], [])
  /\ compute_safe_pids Demo.no_socket [] [] 9000 = Some []
  /\ pid_in 9000 [] = false.
Proof. repeat split; reflexivity. Qed.

(** On a table whose parent links run in a circle the walk never stops. *)
Example walk_ancestors_circle :
  walk_ancestors 1 [(5, {| i_ppid := 5; i_etimes := None; i_tty := "?";
                           i_comm := "x"; i_args := "x" |})] 5 [] = None.
Proof. reflexivity. Qed.

(** ** The environment cache *)

Section Engine.
Variable extra_pattern_search : string -> bool.
Variable shlex_split : string -> option (list string).
Variable socket_re_search : string -> option string.

Abbreviation classify' := (classify extra_pattern_search shlex_split).
Abbreviation build_candidates' := (build_candidates extra_pattern_search shlex_split).
Abbreviation decide' := (decide shlex_split).
Abbreviation decide_all' := (decide_all shlex_split).
Abbreviation verdict_of' := (verdict_of shlex_split).
Abbreviation run_cleanup' := (run_cleanup extra_pattern_search shlex_split socket_re_search).

Lemma cache_ok_nil w : cache_ok w [].
Proof. intros pid env H. discriminate. Qed.

Lemma get_set_same {V} k (v : V) d : Py.get Z.eqb k (Py.set Z.eqb k v d) = Some v.
Proof.
  induction d as [|[k' v'] r IH]; simpl.
  - rewrite Z.eqb_refl. reflexivity.
  - destruct (k =? k') eqn:E; simpl.
    + rewrite Z.eqb_refl. reflexivity.
    + rewrite E. exact IH.
Qed.

Lemma get_set_other {V} k k' (v : V) d :
  k' <> k -> Py.get Z.eqb k' (Py.set Z.eqb k v d) = Py.get Z.eqb k' d.
Proof.
  intros Hne. induction d as [|[k0 v0] r IH]; simpl.
  - apply Z.eqb_neq in Hne. rewrite Hne. reflexivity.
  - destruct (k =? k0) eqn:E; simpl.
    + apply Z.eqb_eq in E. subst k0.
      apply Z.eqb_neq in Hne. rewrite Hne. reflexivity.
    + destruct (k' =? k0); [reflexivity | exact IH].
Qed.

(** Under [cache_ok], [proc_env] answers with the system's environment
    block, whether it reads the cache or the system. *)
Lemma proc_env_ok w pid cache env cache' :
  cache_ok w cache ->
  proc_env (os_environ w) pid cache = (env, cache') ->
  env = env_of w pid /\ cache_ok w cache'
  /\ In pid (map fst cache')
  /\ (forall q, In q (map fst cache) -> In q (map fst cache')).
Proof.
  intros Hok H. unfold proc_env in H.
  destruct (Py.get Z.eqb pid cache) as [e|] eqn:E.
  - inversion H; subst. split; [exact (Hok _ _ E)|]. split; [exact Hok|].
    split; [eapply get_in_keys; exact E | auto].
  - inversion H; subst. split; [reflexivity|]. split.
    + intros q e Hq. destruct (Z.eq_dec q pid) as [->|Hne].
      * rewrite get_set_same in Hq. inversion Hq. reflexivity.
      * rewrite get_set_other in Hq by exact Hne. exact (Hok _ _ Hq).
    + split; [apply set_keys; left; reflexivity|].
      intros q Hq. apply set_keys. right. exact Hq.
Qed.

Lemma classify_ok w safe pid info cache found cache' :
  cache_ok w cache ->
  classify' w safe pid info cache = (found, cache') ->
  cache_ok w cache'
  /\ (forall q, In q (map fst cache) -> In q (map fst cache'))
  /\ (forall proc, found = Some proc ->
                   c_pid proc = pid /\ c_args proc = i_args info
                   /\ c_session proc = env_session (env_of w pid)
                   /\ c_pane_id proc = env_pane (env_of w pid)
                   /\ In pid (map fst cache')).
Proof.
  intros Hok H. unfold classify in H.
  destruct (is_agent_process extra_pattern_search shlex_split (i_args info) (i_comm info)).
  2:{ inversion H; subst. split; [exact Hok|]. split; [auto | discriminate]. }
  destruct (existsb _ PROTECTED_COMMANDS).
  { inversion H; subst. split; [exact Hok|]. split; [auto | discriminate]. }
  destruct (existsb _ [" grep "; " pgrep "; " ps "]).
  { inversion H; subst. split; [exact Hok|]. split; [auto | discriminate]. }
  destruct (proc_env (os_environ w) pid cache) as [env cache1] eqn:E.
  destruct (proc_env_ok _ _ _ _ _ Hok E) as (He & Hok1 & Hin & Hgrow).
  inversion H; subst found cache'. split; [exact Hok1|]. split; [exact Hgrow|].
  intros proc Hp. inversion Hp; subst proc; simpl. subst env.
  repeat split; try reflexivity. exact Hin.
Qed.

(** The candidates are rows of the table, in its order, each with the
    environment the system shows for it; every one of them is in the cache
    afterwards. *)
Lemma build_candidates_ok w safe processes :
  forall cache cands cache',
    cache_ok w cache ->
    build_candidates' w safe processes cache = (cands, cache') ->
    cache_ok w cache'
    /\ (forall q, In q (map fst cache) -> In q (map fst cache'))
    /\ (forall proc, In proc cands ->
                     In (c_pid proc) (map fst processes)
                     /\ c_session proc = env_session (env_of w (c_pid proc))
                     /\ c_pane_id proc = env_pane (env_of w (c_pid proc))
                     /\ In (c_pid proc) (map fst cache'))
    /\ (NoDup (map fst processes) -> NoDup (map c_pid cands)).
Proof.
  induction processes as [|[pid info] rest IH]; intros cache cands cache' Hok H;
    simpl in H.
  - inversion H; subst. split; [exact Hok|]. split; [auto|].
    split; [intros proc [] | intros _; constructor].
  - destruct (classify' w safe pid info cache) as [found cache1] eqn:Ec.
    destruct (build_candidates' w safe rest cache1) as [more cache2] eqn:Eb.
    destruct (classify_ok _ _ _ _ _ _ _ Hok Ec) as (Hok1 & Hg1 & Hf).
    destruct (IH _ _ _ Hok1 Eb) as (Hok2 & Hg2 & Hm & Hnd).
    inversion H; subst cands cache'. clear H.
    split; [exact Hok2|]. split; [auto|]. split.
    + intros proc Hp.
      assert (Hmore : In proc more ->
                      In (c_pid proc) (map fst ((pid, info) :: rest))
                      /\ c_session proc = env_session (env_of w (c_pid proc))
                      /\ c_pane_id proc = env_pane (env_of w (c_pid proc))
                      /\ In (c_pid proc) (map fst cache2)).
      { intros Hin. destruct (Hm _ Hin) as (H1 & H2 & H3 & H4).
        split; [right; exact H1 | auto]. }
      destruct found as [p0|]; [|exact (Hmore Hp)].
      destruct Hp as [<- | Hp]; [|exact (Hmore Hp)].
      destruct (Hf _ eq_refl) as (H1 & H2 & H3 & H4 & H5).
      rewrite H1. split; [left; reflexivity|].
      split; [exact H3|]. split; [exact H4|]. apply Hg2. exact H5.
    + intros Hnd0. simpl in Hnd0. inversion Hnd0 as [|? ? Hnot Hrest]; subst.
      specialize (Hnd Hrest).
      destruct found as [p0|]; [|exact Hnd].
      simpl. constructor; [|exact Hnd].
      destruct (Hf _ eq_refl) as (H1 & _). rewrite H1.
      intros Hin. apply Hnot. apply in_map_iff in Hin.
      destruct Hin as (q & Hq & Hqin).
      destruct (Hm _ Hqin) as (Hrow & _). rewrite Hq in Hrow. exact Hrow.
Qed.

(** ** The decision loop *)

Lemma proc_has_active_session_ok w pid sessions cache b cache' :
  cache_ok w cache ->
  proc_has_active_session (os_environ w) pid sessions cache = (b, cache') ->
  b = nonempty sessions && Py.truthy (env_session (env_of w pid))
      && Py.str_in (env_session (env_of w pid)) sessions
  /\ cache_ok w cache'
  /\ (forall q, In q (map fst cache) -> In q (map fst cache')).
Proof.
  intros Hok H. unfold proc_has_active_session in H.
  destruct sessions as [|s0 ss].
  - inversion H; subst. split; [reflexivity|]. split; [exact Hok | auto].
  - destruct (proc_env (os_environ w) pid cache) as [env cache1] eqn:E.
    destruct (proc_env_ok _ _ _ _ _ Hok E) as (He & Hok1 & _ & Hg). subst env.
    destruct (Py.truthy (env_session (env_of w pid))) eqn:Et; simpl in H;
      inversion H; subst; (split; [reflexivity|]); split; auto.
Qed.

Lemma decide_ok g w x proc cache v cache' :
  cache_ok w cache ->
  c_session proc = env_session (env_of w (c_pid proc)) ->
  decide' g w x proc cache = (v, cache') ->
  v = verdict_of' g w x proc
  /\ cache_ok w cache'
  /\ (forall q, In q (map fst cache) -> In q (map fst cache')).
Proof.
  intros Hok Hs H. unfold decide in H. unfold verdict_of.
  destruct (session_excluded x proc);
    [inversion H; subst; split; [reflexivity|]; split; auto|].
  destruct (lease_mismatch proc);
    [inversion H; subst; split; [reflexivity|]; split; auto|].
  destruct (proc_matches_active_pane proc (active_panes_by_session w));
    [inversion H; subst; split; [reflexivity|]; split; auto|].
  destruct (pane_miss w proc).
  { destruct (strict_with_evidence x);
      [inversion H; subst; split; [reflexivity|]; split; auto|].
    destruct (min_process_age_secs g <=? 0);
      [inversion H; subst; split; [reflexivity|]; split; auto|].
    destruct (too_young g proc);
      inversion H; subst; (split; [reflexivity|]); split; auto. }
  assert (Hsafe : exists safe_hit cache1,
             (if pid_in (c_pid proc) (safe_pids x) && negb (strict_with_evidence x)
              then match session_filter x with
                   | None => (true, cache)
                   | Some _ => proc_has_active_session (os_environ w) (c_pid proc)
                                                       (active_sessions x) cache
                   end
              else (false, cache)) = (safe_hit, cache1)
             /\ safe_hit = pid_in (c_pid proc) (safe_pids x)
                           && negb (strict_with_evidence x)
                           && match session_filter x with
                              | None => true
                              | Some _ => candidate_in_active_session x proc
                              end
             /\ cache_ok w cache1
             /\ (forall q, In q (map fst cache) -> In q (map fst cache1))).
  { destruct (pid_in (c_pid proc) (safe_pids x) && negb (strict_with_evidence x)).
    - destruct (session_filter x).
      + destruct (proc_has_active_session (os_environ w) (c_pid proc)
                                          (active_sessions x) cache)
          as [b c1] eqn:E.
        destruct (proc_has_active_session_ok _ _ _ _ _ _ Hok E) as (Hb & Hok1 & Hg).
        exists b, c1. split; [reflexivity|]. split; [|split; assumption].
        unfold candidate_in_active_session. rewrite Hs. exact Hb.
      + exists true, cache. repeat split; auto.
    - exists false, cache. repeat split; auto. }
  destruct Hsafe as (safe_hit & cache1 & Esafe & Hsh & Hok1 & Hg1).
  rewrite Esafe in H. rewrite <- Hsh.
  destruct safe_hit;
    [inversion H; subst; split; [reflexivity|]; split; auto|].
  destruct (pid_in (c_pid proc) (keep_tree x));
    [inversion H; subst; split; [reflexivity|]; split; auto|].
  destruct (proc_has_active_session (os_environ w) (c_pid proc) (active_sessions x) cache1)
    as [b cache2] eqn:E2.
  destruct (proc_has_active_session_ok _ _ _ _ _ _ Hok1 E2) as (Hb & Hok2 & Hg2).
  assert (Hb' : b = candidate_in_active_session x proc)
    by (unfold candidate_in_active_session; rewrite Hs; exact Hb).
  rewrite <- Hb'.
  repeat match type of H with
         | (if ?c then _ else _) = _ => destruct c
         end;
    inversion H; subst; (split; [reflexivity|]); split; auto.
Qed.

Lemma decide_all_ok g w x cands :
  forall cache decs cache',
    cache_ok w cache ->
    (forall proc, In proc cands ->
                  c_session proc = env_session (env_of w (c_pid proc))) ->
    decide_all' g w x cands cache = (decs, cache') ->
    decs = map (fun proc => (proc, verdict_of' g w x proc)) cands
    /\ cache_ok w cache'
    /\ (forall q, In q (map fst cache) -> In q (map fst cache')).
Proof.
  induction cands as [|proc rest IH]; intros cache decs cache' Hok Hs H; simpl in H.
  - inversion H; subst. split; [reflexivity|]. split; auto.
  - destruct (decide' g w x proc cache) as [v cache1] eqn:Ed.
    destruct (decide_all' g w x rest cache1) as [more cache2] eqn:Ea.
    destruct (decide_ok _ _ _ _ _ _ _ Hok (Hs _ (or_introl eq_refl)) Ed)
      as (Hv & Hok1 & Hg1).
    destruct (IH _ _ _ Hok1 (fun p Hp => Hs p (or_intror Hp)) Ea) as (Hm & Hok2 & Hg2).
    inversion H; subst. split; [reflexivity|]. split; auto.
Qed.

(** ** The pruner's effects *)

Lemma prune_file_removals dry os session allowed st f :
  Forall is_removal (prune_effects st) ->
  Forall is_removal (prune_effects (prune_file dry os session allowed st f)).
Proof.
  intros H. unfold prune_file.
  destruct (negb (Py.endswith (file_name f) ".json")); [exact H|].
  destruct (Py.truthy _ && Py.str_in _ allowed); [exact H|].
  destruct (snapshot_keep os session _ f (prune_cache st)) as [keep cache'].
  destruct keep; [exact H|]. destruct dry; [exact H|].
  destruct (remove_succeeds f); simpl;
    (apply Forall_app; split; [exact H | constructor; [exact I | constructor]]).
Qed.

Lemma prune_file_dry os session allowed st f :
  prune_effects st = [] ->
  prune_effects (prune_file true os session allowed st f) = [].
Proof.
  intros H. unfold prune_file.
  destruct (negb (Py.endswith (file_name f) ".json")); [exact H|].
  destruct (Py.truthy _ && Py.str_in _ allowed); [exact H|].
  destruct (snapshot_keep os session _ f (prune_cache st)) as [keep cache'].
  destruct keep; exact H.
Qed.

Lemma prune_removals tel os cache panes sessions filtered dry :
  Forall is_removal
         (prune_effects (prune_runtime_snapshots tel os cache panes sessions filtered dry)).
Proof.
  unfold prune_runtime_snapshots. destruct tel as [[dirs|]|]; try constructor.
  apply (fold_left_invariant (fun st => Forall is_removal (prune_effects st)));
    [|constructor].
  intros st d H. unfold prune_session.
  destruct (prune_raised st); [exact H|].
  destruct (negb (is_dir d)); [exact H|].
  destruct (filtered && nonempty sessions && negb (Py.str_in (session_name d) sessions));
    [exact H|].
  destruct (files d) as [fs|]; [|exact H].
  apply (fold_left_invariant (fun st => Forall is_removal (prune_effects st)));
    [|exact H].
  intros st' f. apply prune_file_removals.
Qed.

(** A dry run of the pruner calls [os.remove] on nothing. *)
Lemma prune_dry tel os cache panes sessions filtered :
  prune_effects (prune_runtime_snapshots tel os cache panes sessions filtered true) = [].
Proof.
  unfold prune_runtime_snapshots. destruct tel as [[dirs|]|]; try reflexivity.
  apply (fold_left_invariant (fun st => prune_effects st = [])); [|reflexivity].
  intros st d H. unfold prune_session.
  destruct (prune_raised st); [exact H|].
  destruct (negb (is_dir d)); [exact H|].
  destruct (filtered && nonempty sessions && negb (Py.str_in (session_name d) sessions));
    [exact H|].
  destruct (files d) as [fs|]; [|exact H].
  apply (fold_left_invariant (fun st => prune_effects st = [])); [|exact H].
  intros st' f. apply prune_file_dry.
Qed.



Lemma signalled_removals sig es : Forall is_removal es -> signalled sig es = [].
Proof.
  induction 1 as [|e es He _ IH]; [reflexivity|].
  simpl. rewrite IH. destruct e; simpl in He; try contradiction. reflexivity.
Qed.

Lemma signalled_app sig es1 es2 :
  signalled sig (es1 ++ es2) = (signalled sig es1 ++ signalled sig es2)%list.
Proof. unfold signalled. apply flat_map_app. Qed.

(** A round that no exception leaves calls [os.kill] on every pid of the
    kill list, in its order. *)
Lemma signal_round_returns w sig kills es :
  signal_round w sig kills = (es, false) ->
  es = map (fun k : Z * string => OsKill (fst k) sig) kills.
Proof.
  revert es. induction kills as [|k ks IH]; simpl; intros es H.
  - injection H as H. subst es. reflexivity.
  - destruct (signal_round w sig ks) as [calls raised].
    destruct (os_kill w (fst k) sig); injection H as H1 H2; subst;
      try discriminate; rewrite (IH _ eq_refl); reflexivity.
Qed.


(** A signalling block that no exception leaves has sent both signals to
    every pid of the kill list, unless the run is dry or the list empty. *)
Lemma signalled_signal_all sig dry w kills es :
  signal_all dry w kills = (es, false) ->
  signalled sig es = if nonempty kills && negb dry then map fst kills else [].
Proof.
  unfold signal_all. destruct (nonempty kills && negb dry).
  2:{ intros H. injection H as H. subst es. reflexivity. }
  destruct (signal_round w SIGTERM kills) as [terms r1] eqn:E1.
  destruct r1; [discriminate|].
  destruct (signal_round w SIGKILL kills) as [ks r2] eqn:E2.
  intros H. injection H as H1 H2. subst es r2.
  apply signal_round_returns in E1, E2. subst terms ks.
  rewrite !signalled_app.
  assert (Hsame : forall s, signalled s (map (fun k : Z * string => OsKill (fst k) s) kills)
                            = map fst kills).
  { intros s. induction kills as [|k ks IH]; [reflexivity|].
    simpl. rewrite IH. destruct s; reflexivity. }
  assert (Hother : forall s s', Signal_beq s s' = false ->
                                signalled s (map (fun k : Z * string => OsKill (fst k) s') kills)
                                = []).
  { clear Hsame. intros s s' Hs. induction kills as [|k ks IH]; [reflexivity|].
    simpl. rewrite Hs, IH. reflexivity. }
  assert (Hts : forall s l, signalled s (TimeSleep :: l) = signalled s l) by reflexivity.
  rewrite Hts. destruct sig.
  - rewrite Hsame, (Hother SIGTERM SIGKILL eq_refl). apply app_nil_r.
  - rewrite Hsame, (Hother SIGKILL SIGTERM eq_refl). reflexivity.
Qed.

(** ** What a completed run is made of *)

Lemma run_cleanup_completed g w r :
  run_cleanup' g w = Some (Completed r) ->
  (exists children,
      get_process_map (ps_listing w) = Some (r_processes r, children)
      /\ compute_safe_pids socket_re_search (r_processes r) children (my_pid w)
         = Some (safe_pids (r_ctx r)))
  /\ session_filter (r_ctx r) = fst (parse_session_filter (environ w))
  /\ NoDup (map c_pid (agent_candidates r))
  /\ (forall proc, In proc (agent_candidates r) ->
                   In (c_pid proc) (map fst (r_processes r)))
  /\ decisions r
     = map (fun proc => (proc, verdict_of' g w (r_ctx r) proc)) (agent_candidates r)
  /\ kill_list r = kill_list_of (decisions r)
  /\ (forall sig, signalled sig (effects r)
                  = if nonempty (kill_list r) && negb (dry_run g)
                    then map fst (kill_list r) else [])
  /\ (dry_run g = true -> effects r = []).
Proof.
  unfold run_cleanup. intros H.
  destruct (get_process_map (ps_listing w)) as [[processes children]|] eqn:Epm;
    [|discriminate].
  destruct (skip_if_no_sessions g && negb (nonempty (listed_sessions w)));
    [discriminate|].
  destruct (compute_safe_pids socket_re_search processes children (my_pid w))
    as [safe|] eqn:Esafe; [|discriminate].
  destruct (require_active_signals g && negb _); [discriminate|].
  destruct (build_candidates' w safe processes []) as [cands cache0] eqn:Eb.
  match type of H with
  | match ?k with _ => _ end = _ => destruct k as [tree|]; [|discriminate]
  end.
  match type of H with
  | context [decide_all' g w ?x cands cache0] =>
      destruct (decide_all' g w x cands cache0) as [decs cache1] eqn:Ed
  end.
  destruct (signal_all (dry_run g) w (kill_list_of decs)) as [signals kill_raised] eqn:Es.
  destruct kill_raised; [discriminate|].
  match type of H with
  | (if prune_raised ?p then _ else _) = _ => destruct (prune_raised p); [discriminate|]
  end.
  inversion H; subst r; clear H; simpl.
  destruct (build_candidates_ok _ _ _ _ _ _ (cache_ok_nil w) Eb)
    as (Hok0 & _ & Hc & Hnd).
  destruct (decide_all_ok _ _ _ _ _ _ _ Hok0 (fun p Hp => proj1 (proj2 (Hc p Hp))) Ed)
    as (Hdecs & Hok1 & _).
  pose proof (get_process_map_nodup _ _ Epm) as Hkeys. simpl in Hkeys.
  split; [exists children; split; [reflexivity | exact Esafe]|]. split; [reflexivity|].
  split; [exact (Hnd Hkeys)|].
  split; [intros p Hp; exact (proj1 (Hc p Hp))|].
  split; [exact Hdecs|]. split; [reflexivity|]. split.
  - intros sig. rewrite signalled_app, (signalled_signal_all _ _ _ _ _ Es).
    rewrite (signalled_removals sig _ (prune_removals _ _ _ _ _ _ _)).
    apply app_nil_r.
  - intros Hdry. rewrite Hdry in *. rewrite prune_dry.
    unfold signal_all in Es. rewrite andb_false_r in Es. injection Es as Es.
    subst signals. reflexivity.
Qed.



Lemma NoDup_map_inj {A B} (f : A -> B) l a b :
  NoDup (map f l) -> In a l -> In b l -> f a = f b -> a = b.
Proof.
  induction l as [|c l IH]; simpl; intros H Ha Hb E; [contradiction|].
  inversion H as [|? ? Hn Hr]; subst.
  destruct Ha as [-> | Ha], Hb as [-> | Hb].
  - reflexivity.
  - exfalso. apply Hn. rewrite E. apply in_map. exact Hb.
  - exfalso. apply Hn. rewrite <- E. apply in_map. exact Ha.
  - exact (IH Hr Ha Hb E).
Qed.


(** ** The kill list *)






(** ** A failed process listing *)

Lemma slice_to_nil {A} k : @Py.slice_to A k [] = [].
Proof. unfold Py.slice_to. destruct (0 <=? k); apply firstn_nil. Qed.

Lemma select_keep_pids_nil strict sessions ev : select_keep_pids strict sessions ev [] = [].
Proof.
  unfold select_keep_pids.
  assert (Hpair : (if strict then select_pane_strict sessions ev [] else (false, []))
                  = (false, @nil Z)) by (destruct strict; reflexivity).
  rewrite Hpair. simpl negb. rewrite !andb_true_r.
  assert (Hdir : forall expected keys,
             fold_left (fun keep cwd_hint =>
                          add_pids (directory_selection [] expected cwd_hint) keep)
                       keys [] = []).
  { intros expected keys. induction keys as [|k keys IH]; [reflexivity|].
    cbn [fold_left]. unfold directory_selection.
    change (preferred_of (sort_pid_desc (directory_matches [] k))) with (@nil Candidate).
    rewrite slice_to_nil. exact IH. }
  assert (Hid : forall expected keys,
             fold_left (fun keep agent_id =>
                          add_pids (identity_selection [] expected agent_id) keep)
                       keys [] = []).
  { intros expected keys. induction keys as [|k keys IH]; [reflexivity|].
    cbn [fold_left]. unfold identity_selection.
    change (preferred_of (sort_pid_desc (identity_matches [] k))) with (@nil Candidate).
    rewrite slice_to_nil. exact IH. }
  destruct (nonempty (expected_cwds ev)); [apply Hdir|].
  destruct (nonempty (expected_ids ev)); [apply Hid | reflexivity].
Qed.

(** C7, as the code has it.  When [ps] exits with an error status,
    [get_process_map] returns two empty maps.  When the call fails in
    another way (the program cannot be started, its output cannot be
    decoded) the exception is not caught: [get_process_map] returns no
    maps and the exception leaves the pass before any candidate is looked
    at.  In both cases the pass ends with no agent candidate, an empty kill
    list and no signal sent. *)
Theorem failed_listing_kills_nothing :
  forall (g : Globals) (w : World),
    ps_listing w = PsCalledProcessError \/ ps_listing w = PsOtherException ->
    (ps_listing w = PsCalledProcessError ->
     get_process_map (ps_listing w) = Some ([], []))
    /\ (ps_listing w = PsOtherException ->
        get_process_map (ps_listing w) = None
        /\ run_cleanup extra_pattern_search shlex_split socket_re_search g w
           = Some (Aborted [] [] []))
    /\ exists o,
        run_cleanup extra_pattern_search shlex_split socket_re_search g w = Some o
        /\ outcome_candidates o = []
        /\ outcome_kill_list o = []
        /\ forall sig, signalled sig (outcome_effects o) = [].
Proof.
  intros g w [H|H].
  2:{ split; [rewrite H; discriminate|].
      assert (Hrun : run_cleanup' g w = Some (Aborted [] [] []))
        by (unfold run_cleanup; rewrite H; reflexivity).
      split; [intros _; split; [rewrite H; reflexivity | exact Hrun]|].
      eexists. split; [exact Hrun|]. repeat split. }
  split; [intros _; rewrite H; reflexivity|].
  split; [rewrite H; discriminate|].
  unfold run_cleanup. rewrite H. cbn [get_process_map].
  destruct (skip_if_no_sessions g && negb (nonempty (listed_sessions w))).
  { exists SkippedNoSessions. repeat split. }
  assert (Es : compute_safe_pids socket_re_search [] [] (my_pid w) = Some [])
    by reflexivity.
  rewrite Es.
  destruct (require_active_signals g && negb _).
  { exists SkippedNoSignals. repeat split. }
  cbn [build_candidates]. rewrite select_keep_pids_nil. cbn [nonempty decide_all].
  change (kill_list_of []) with (@nil (Z * string)).
  assert (Hs : signal_all (dry_run g) w [] = ([], false)) by reflexivity.
  rewrite Hs.
  match goal with
  | |- context [prune_raised ?p] => set (pruned := p)
  end.
  assert (Hp : forall sig, signalled sig ([] ++ prune_effects pruned) = [])
    by (intros sig; apply signalled_removals, prune_removals).
  destruct (prune_raised pruned); eexists; (split; [reflexivity|]);
    (split; [reflexivity|]); (split; [reflexivity|]); exact Hp.
Qed.

(** ** Dry run against a real run *)











(** ** A pass returns *)



Lemma run_cleanup_diverges g w processes children :
  get_process_map (ps_listing w) = Some (processes, children) ->
  skip_if_no_sessions g && negb (nonempty (listed_sessions w)) = false ->
  (forall n, ~ exits processes (my_pid w) n) ->
  run_cleanup' g w = None.
Proof.
  intros Epm Hskip Hno. unfold run_cleanup. rewrite Epm.
  rewrite Hskip. unfold compute_safe_pids.
  destruct (get_descendants (zellij_pids processes) children) as [safe0|]; [|reflexivity].
  destruct (walk_ancestors (List.length processes) processes (my_pid w) safe0)
    as [safe1|] eqn:E; [|reflexivity].
  destruct (walk_ancestors_some _ _ _ _ _ E) as [n Hn]. exfalso. exact (Hno n Hn).
Qed.

End Engine.

(** ** Sorting and slicing *)


Section SortFacts.
Context {A : Type} (before : A -> A -> bool).

Lemma insert_stable_in x l y :
  In y (Py.insert_stable before x l) <-> y = x \/ In y l.
Proof.
  induction l as [|z r IH]; simpl.
  - intuition.
  - destruct (before x z); simpl; [intuition|]. rewrite IH. intuition.
Qed.

Lemma sort_stable_in l y : In y (Py.sort_stable before l) <-> In y l.
Proof.
  unfold Py.sort_stable.
  assert (H : forall acc, In y (fold_left (fun acc x => Py.insert_stable before x acc) l acc)
                          <-> In y l \/ In y acc).
  { induction l as [|x r IH]; intros acc; simpl; [intuition|].
    rewrite IH, insert_stable_in. intuition. }
  rewrite H. simpl. intuition.
Qed.

Lemma insert_stable_length x l :
  List.length (Py.insert_stable before x l) = S (List.length l).
Proof.
  induction l as [|z r IH]; simpl; [reflexivity|].
  destruct (before x z); simpl; [reflexivity | rewrite IH; reflexivity].
Qed.
End SortFacts.

Lemma insert_pid_desc x l :
  StronglySorted pid_desc l ->
  StronglySorted pid_desc (Py.insert_stable (fun a b => c_pid b <? c_pid a) x l).
Proof.
  induction 1 as [|y r Hr IH Hy]; simpl.
  - constructor; constructor.
  - destruct (c_pid y <? c_pid x) eqn:E.
    + apply Z.ltb_lt in E. constructor; [constructor; assumption|].
      constructor; [unfold pid_desc; lia|].
      eapply Forall_impl; [|exact Hy]. unfold pid_desc. intros; lia.
    + apply Z.ltb_ge in E. constructor; [exact IH|].
      apply Forall_forall. intros z Hz. apply insert_stable_in in Hz.
      destruct Hz as [-> | Hz]; [exact E|].
      rewrite Forall_forall in Hy. exact (Hy z Hz).
Qed.

Lemma sort_pid_desc_sorted l : StronglySorted pid_desc (sort_pid_desc l).
Proof.
  unfold sort_pid_desc, Py.sort_stable.
  apply fold_left_invariant; [|constructor].
  intros acc x. apply insert_pid_desc.
Qed.

Lemma filter_sorted {A} (R : A -> A -> Prop) (P : A -> bool) l :
  StronglySorted R l -> StronglySorted R (filter P l).
Proof.
  induction 1 as [|a l Hl IH Ha]; simpl; [constructor|].
  destruct (P a); [|exact IH]. constructor; [exact IH|].
  apply Forall_forall. intros x Hx. apply filter_In in Hx.
  rewrite Forall_forall in Ha. apply Ha. tauto.
Qed.

Lemma firstn_before_skipn {A} (R : A -> A -> Prop) n :
  forall l a b,
    StronglySorted R l -> In a (firstn n l) -> In b (skipn n l) -> R a b.
Proof.
  induction n as [|n IH]; intros l a b Hs Ha Hb; [destruct Ha|].
  destruct l as [|x l]; [destruct Ha|]. simpl in *.
  inversion Hs as [|? ? Hl Hx]; subst.
  destruct Ha as [<- | Ha].
  - rewrite Forall_forall in Hx. apply Hx.
    rewrite <- (firstn_skipn n l). apply in_or_app. right. exact Hb.
  - exact (IH _ _ _ Hl Ha Hb).
Qed.

Lemma preferred_of_sorted l :
  StronglySorted pid_desc l -> StronglySorted pid_desc (preferred_of l).
Proof.
  intros H. unfold preferred_of.
  destruct (nonempty (filter _ l)); [apply filter_sorted; exact H|].
  destruct (nonempty (filter _ l)); [apply filter_sorted; exact H | exact H].
Qed.

Lemma nonempty_false {A} (l : list A) : nonempty l = false -> l = [].
Proof. destruct l; [reflexivity | discriminate]. Qed.

Lemma kind_eqb_eq a b : kind_eqb a b = true <-> a = b.
Proof. destruct a, b; simpl; split; congruence. Qed.

(** [preferred_of] keeps the candidates of the best kind there is. *)
Lemma preferred_of_spec l proc :
  In proc (preferred_of l) <->
  In proc l /\ forall q, In q l -> kind_preference (c_kind proc) <= kind_preference (c_kind q).
Proof.
  unfold preferred_of.
  destruct (nonempty (filter (fun p => kind_eqb (c_kind p) agent_bin) l)) eqn:Eb.
  - rewrite filter_In, kind_eqb_eq. split.
    + intros (Hin & ->). split; [exact Hin|]. intros q _. destruct (c_kind q); simpl; lia.
    + intros (Hin & Hbest). split; [exact Hin|].
      destruct (filter (fun p => kind_eqb (c_kind p) agent_bin) l) as [|b bs] eqn:Ef;
        [discriminate|].
      assert (Hb : In b (filter (fun p => kind_eqb (c_kind p) agent_bin) l))
        by (rewrite Ef; left; reflexivity).
      apply filter_In in Hb. destruct Hb as (Hbl & Hbk). apply kind_eqb_eq in Hbk.
      specialize (Hbest b Hbl). rewrite Hbk in Hbest.
      destruct (c_kind proc); simpl in Hbest; [reflexivity | lia | lia].
  - apply nonempty_false in Eb.
    assert (Hnobin : forall q, In q l -> c_kind q <> agent_bin).
    { intros q Hq Hk.
      assert (Hf : In q (filter (fun p => kind_eqb (c_kind p) agent_bin) l))
        by (apply filter_In; split; [exact Hq | apply kind_eqb_eq; exact Hk]).
      rewrite Eb in Hf. destruct Hf. }
    destruct (nonempty (filter (fun p => kind_eqb (c_kind p) agent_node) l)) eqn:En.
    + rewrite filter_In, kind_eqb_eq. split.
      * intros (Hin & Hk). split; [exact Hin|]. intros q Hq. rewrite Hk.
        specialize (Hnobin q Hq). destruct (c_kind q); simpl; try lia. congruence.
      * intros (Hin & Hbest). split; [exact Hin|].
        destruct (filter (fun p => kind_eqb (c_kind p) agent_node) l) as [|b bs] eqn:Ef;
          [discriminate|].
        assert (Hb : In b (filter (fun p => kind_eqb (c_kind p) agent_node) l))
          by (rewrite Ef; left; reflexivity).
        apply filter_In in Hb. destruct Hb as (Hbl & Hbk). apply kind_eqb_eq in Hbk.
        specialize (Hbest b Hbl). rewrite Hbk in Hbest.
        specialize (Hnobin proc Hin).
        destruct (c_kind proc); simpl in Hbest; [congruence | reflexivity | lia].
    + apply nonempty_false in En.
      assert (Hnonode : forall q, In q l -> c_kind q <> agent_node).
      { intros q Hq Hk.
        assert (Hf : In q (filter (fun p => kind_eqb (c_kind p) agent_node) l))
          by (apply filter_In; split; [exact Hq | apply kind_eqb_eq; exact Hk]).
        rewrite En in Hf. destruct Hf. }
      split; [|tauto]. intros Hin. split; [exact Hin|]. intros q Hq.
      pose proof (Hnobin q Hq). pose proof (Hnonode q Hq).
      specialize (Hnobin proc Hin). specialize (Hnonode proc Hin).
      destruct (c_kind proc); try congruence.
      destruct (c_kind q); simpl; try lia; congruence.
Qed.

Lemma in_firstn_in {A} n : forall (l : list A) x, In x (firstn n l) -> In x l.
Proof.
  induction n as [|n IH]; intros l x H; [destruct H|].
  destruct l as [|a l]; [destruct H|]. simpl in H.
  destruct H as [-> | H]; [left; reflexivity | right; exact (IH _ _ H)].
Qed.

Lemma slice_to_firstn {A} (k : Z) (l : list A) :
  0 <= k -> Py.slice_to k l = firstn (Z.to_nat k) l.
Proof. intros H. unfold Py.slice_to. apply Z.leb_le in H. rewrite H. reflexivity. Qed.

(** ** The directory-count strategy *)

Lemma get_str_in_keys {V} k (d : list (string * V)) v :
  Py.get String.eqb k d = Some v -> In k (map fst d).
Proof.
  induction d as [|[k' v'] r IH]; simpl; [discriminate|].
  destruct (String.eqb k k') eqn:E.
  - apply String.eqb_eq in E. subst. intros _. left. reflexivity.
  - intros H. right. apply IH. exact H.
Qed.

Lemma add_pids_spec procs : forall keep pid,
  pid_in pid (add_pids procs keep) = true <->
  pid_in pid keep = true \/ exists proc, In proc procs /\ c_pid proc = pid.
Proof.
  unfold add_pids. induction procs as [|p ps IH]; intros keep pid; simpl.
  - split; [auto | intros [H | (proc & [] & _)]; exact H].
  - rewrite IH, pid_add_spec, orb_true_iff, Z.eqb_eq. split.
    + intros [[-> | H] | (proc & Hin & E)].
      * right. exists p. auto.
      * left. exact H.
      * right. exists proc. auto.
    + intros [H | (proc & [-> | Hin] & E)].
      * left. right. exact H.
      * left. left. symmetry. exact E.
      * right. exists proc. auto.
Qed.

Lemma select_by_directory_spec cands expected keys : forall keep pid,
  pid_in pid (fold_left (fun keep cwd_hint =>
                           add_pids (directory_selection cands expected cwd_hint) keep)
                        keys keep) = true <->
  pid_in pid keep = true
  \/ exists cwd_hint proc,
      In cwd_hint keys /\ In proc (directory_selection cands expected cwd_hint)
      /\ c_pid proc = pid.
Proof.
  induction keys as [|k ks IH]; intros keep pid; simpl.
  - split; [auto | intros [H | (h & proc & [] & _)]; exact H].
  - rewrite IH, add_pids_spec. split.
    + intros [[H | (proc & Hin & E)] | (h & proc & Hh & Hin & E)].
      * left. exact H.
      * right. exists k, proc. auto.
      * right. exists h, proc. auto.
    + intros [H | (h & proc & [<- | Hh] & Hin & E)].
      * left. left. exact H.
      * left. right. exists proc. auto.
      * right. exists h, proc. auto.
Qed.

(** C5, as the code has it.  For a hint [d] with [expected_cwds[d] = N],
    the directory-count strategy selects on account of [d] at most [N]
    candidates, all of them candidates whose directory matches [d], of the
    best kind found among those ([agent_bin] before [agent_node] before
    [other]), the higher pids first; [keep_pids] gets the selections of
    all hints, so that a candidate matching [d] can also be kept on account
    of another hint that it matches. *)
Theorem directory_hint_selects_at_most_its_count :
  forall (cands : list Candidate) (expected : list (string * Z)) (keep0 : list Z)
         (d : string) (N : Z),
    Py.get String.eqb d expected = Some N ->
    0 <= N ->
    (Z.of_nat (List.length (directory_selection cands expected d)) <= N)
    /\ (forall proc,
           In proc (directory_selection cands expected d) ->
           In proc cands /\ cwd_matches (c_cwd proc) d = true
           /\ pid_in (c_pid proc) (select_by_directory cands expected keep0) = true)
    /\ (forall proc rival,
           In proc (directory_selection cands expected d) ->
           In rival cands -> cwd_matches (c_cwd rival) d = true ->
           kind_preference (c_kind proc) <= kind_preference (c_kind rival)
           /\ (c_kind rival = c_kind proc ->
               ~ In rival (directory_selection cands expected d) ->
               c_pid rival <= c_pid proc))
    /\ (forall pid,
           pid_in pid (select_by_directory cands expected keep0) = true ->
           pid_in pid keep0 = true
           \/ exists cwd_hint proc,
               In cwd_hint (map fst expected)
               /\ In proc (directory_selection cands expected cwd_hint)
               /\ c_pid proc = pid).
Proof.
  intros cands expected keep0 d N Hget HN.
  assert (Hsel : directory_selection cands expected d
                 = firstn (Z.to_nat N)
                          (preferred_of (sort_pid_desc (directory_matches cands d)))).
  { unfold directory_selection, counter_get. rewrite Hget.
    apply slice_to_firstn. exact HN. }
  set (pool := preferred_of (sort_pid_desc (directory_matches cands d))) in *.
  assert (Hpool : forall proc,
             In proc pool <->
             (In proc cands /\ cwd_matches (c_cwd proc) d = true)
             /\ forall q, In q cands -> cwd_matches (c_cwd q) d = true ->
                          kind_preference (c_kind proc) <= kind_preference (c_kind q)).
  { intros proc. unfold pool. rewrite preferred_of_spec.
    unfold sort_pid_desc. rewrite sort_stable_in. unfold directory_matches.
    rewrite filter_In. split.
    - intros (H1 & H2). split; [exact H1|]. intros q Hq Hm. apply H2.
      apply sort_stable_in. apply filter_In. tauto.
    - intros (H1 & H2). split; [exact H1|]. intros q Hq.
      apply sort_stable_in in Hq. apply filter_In in Hq. apply H2; tauto. }
  assert (Hsorted : StronglySorted pid_desc pool)
    by (apply preferred_of_sorted, sort_pid_desc_sorted).
  split; [|split; [|split]].
  - rewrite Hsel.
    pose proof (firstn_le_length (Z.to_nat N) pool). rewrite length_firstn. lia.
  - intros proc Hin. rewrite Hsel in Hin.
    pose proof (in_firstn_in _ _ _ Hin) as Hp. apply Hpool in Hp.
    destruct Hp as ((H1 & H2) & _). split; [exact H1|]. split; [exact H2|].
    unfold select_by_directory. apply select_by_directory_spec. right.
    exists d, proc. split; [eapply get_str_in_keys; exact Hget|].
    split; [rewrite Hsel; exact Hin | reflexivity].
  - intros proc rival Hin Hr Hm. rewrite Hsel in *.
    pose proof (in_firstn_in _ _ _ Hin) as Hp. apply Hpool in Hp.
    destruct Hp as (Hpm & Hbest). split; [exact (Hbest rival Hr Hm)|].
    intros Hk Hout.
    assert (Hrp : In rival pool).
    { apply Hpool. split; [tauto|]. intros q Hq Hqm. rewrite Hk. exact (Hbest q Hq Hqm). }
    rewrite <- (firstn_skipn (Z.to_nat N) pool) in Hrp.
    apply in_app_or in Hrp. destruct Hrp as [Hrp | Hrp]; [contradiction|].
    exact (firstn_before_skipn pid_desc _ _ _ _ Hsorted Hin Hrp).
  - intros pid Hpid. unfold select_by_directory in Hpid.
    apply select_by_directory_spec in Hpid. exact Hpid.
Qed.

(** * The properties on concrete runs *)

(** Names the report of a run that computes to a completed one. *)
Ltac completed_run E r :=
  match goal with
  | |- context [Demo.run ?g ?w] =>
      destruct (Demo.run g w) as [[| |r|? ? ?]|] eqn:E;
      try (exfalso; vm_compute in E; discriminate)
  end.

(** ** A lone agent without any evidence is killed *)

Example orphan_is_killed :
  option_map (fun o => (map snd (outcome_decisions o), outcome_kill_list o, outcome_effects o))
             (Demo.run Demo.defaults Demo.orphan)
  = Some ([KillOrphan], [(300, "claude --resume")],
          [OsKill 300 SIGTERM; TimeSleep; OsKill 300 SIGKILL]).
Proof. vm_compute. reflexivity. Qed.


(** ** A pane that changed hands *)





(** ** Safe and kept, and killed *)



(** ** An agent of a session that is gone *)



(** ** Directory hints *)

(** Two candidates in one expected directory: the [agent_bin] one is kept. *)
Example one_agent_per_directory :
  select_by_directory
    [Demo.candidate 50 agent_bin "/home/u/proj/a"; Demo.candidate 60 other "/home/u/proj/a"]
    [("/home/u/proj/a", 1)] []
  = [50].
Proof. reflexivity. Qed.

Lemma directory_hint_selects_at_most_its_count_witness :
  let cands := [Demo.candidate 50 agent_bin "/home/u/proj/a";
                Demo.candidate 60 other "/home/u/proj/a";
                Demo.candidate 40 agent_bin "/home/u/proj/a"] in
  let expected := [("/home/u/proj/a", 1)] in
  directory_selection cands expected "/home/u/proj/a" = [Demo.candidate 50 agent_bin "/home/u/proj/a"]
  /\ (Z.of_nat (List.length (directory_selection cands expected "/home/u/proj/a")) <= 1).
Proof.
  split; [reflexivity|].
  exact (proj1 (directory_hint_selects_at_most_its_count
                  [Demo.candidate 50 agent_bin "/home/u/proj/a";
                   Demo.candidate 60 other "/home/u/proj/a";
                   Demo.candidate 40 agent_bin "/home/u/proj/a"]
                  [("/home/u/proj/a", 1)] [] "/home/u/proj/a" 1
                  eq_refl ltac:(lia))).
Defined.

(** C5 fails as stated: the layout expects one agent in [/home/u/proj],
    and two candidates whose directory matches that hint are kept, the
    second on account of the hint [/home/u/proj/web]. *)
Lemma overlapping_hints_keep_two_for_one :
  option_map
    (fun o => (outcome_keep_pids o,
               map (fun proc => (c_pid proc, c_cwd proc))
                   (filter (fun proc => pid_in (c_pid proc) (outcome_keep_pids o)
                                        && cwd_matches (c_cwd proc) "/home/u/proj")
                           (outcome_candidates o)),
               Py.get String.eqb "/home/u/proj"
                      (expected_cwds (layout Demo.overlapping_hints))))
    (Demo.run Demo.defaults Demo.overlapping_hints)
  = Some ([510; 520], [(510, "/home/u/proj/web"); (520, "/home/u/proj")], Some 1).
Proof. vm_compute. reflexivity. Qed.

(** ** Dry runs *)



(** A run that may not signal the orphan: the dry run returns, while the
    first [os.kill] of the real run raises, and the exception leaves the
    pass before the second round of signals and the pruner. *)
Example foreign_orphan_aborts_the_real_run :
  (option_map (fun o => (completed o, outcome_kill_list o, outcome_effects o))
              (Demo.run (with_dry_run true Demo.defaults) (Demo.not_permitted Demo.orphan)),
   option_map (fun o => (completed o, outcome_kill_list o, outcome_effects o))
              (Demo.run (with_dry_run false Demo.defaults) (Demo.not_permitted Demo.orphan)))
  = (Some (true, [(300, "claude --resume")], []),
     Some (false, [(300, "claude --resume")], [OsKill 300 SIGTERM])).
Proof. vm_compute. reflexivity. Qed.

(** ** A failed listing *)

(** C7 fails as stated: when [ps] cannot be started, or its output cannot
    be decoded, [get_process_map] returns no maps at all; the exception
    leaves the pass. *)
Lemma uncaught_listing_failure_returns_no_maps :
  (get_process_map PsOtherException,
   Demo.run Demo.defaults (Demo.bare PsOtherException))
  = (None, Some (Aborted [] [] [])).
Proof. vm_compute. reflexivity. Qed.

Lemma failed_listing_kills_nothing_witness :
  get_process_map (ps_listing (Demo.bare PsCalledProcessError)) = Some ([], [])
  /\ exists o,
      Demo.run Demo.defaults (Demo.bare PsCalledProcessError) = Some o
      /\ outcome_candidates o = []
      /\ outcome_kill_list o = []
      /\ forall sig, signalled sig (outcome_effects o) = [].
Proof.
  destruct (failed_listing_kills_nothing
              Demo.no_extra_pattern Demo.shlex_plain Demo.no_socket
              Demo.defaults (Demo.bare PsCalledProcessError) (or_introl eq_refl))
    as (Hmaps & _ & Hrun).
  split; [exact (Hmaps eq_refl) | exact Hrun].
Defined.

(** ** The scenarios of the specification *)

(** A session manager and an agent below it: nothing is killed. *)
Example agent_under_zellij_is_safe :
  match Demo.run Demo.defaults
          (Demo.bare (Demo.listing
             ["    100       1    5000 ?        zellij          zellij --server /run/x";
              "    200     100     400 ?        node            node /usr/lib/opencode/bin.js"]))
  with
  | Some (Completed r) => Some (safe_pids (r_ctx r), map c_kind (agent_candidates r), kill_list r)
  | _ => None
  end
  = Some ([200; 100], [agent_node], []).
Proof. vm_compute. reflexivity. Qed.

(** No session manager and no evidence: the run is skipped when active
    signals are required. *)
Example orphan_run_is_skipped_on_request :
  Demo.run {| dry_run := false; require_active_signals := true;
              skip_if_no_sessions := false; min_process_age_secs := 0 |}
           Demo.orphan
  = Some SkippedNoSignals.
Proof. vm_compute. reflexivity. Qed.

(** ** Two readings made precise *)

(** A recorded [(session, pane_id)] pair without surrounding blanks that
    is, as it stands, a pane of the active-pane index is a match for
    [proc_matches_active_pane]. *)
Lemma exact_pane_is_a_match proc panes active :
  Py.strip (c_session proc) = c_session proc ->
  Py.strip (c_pane_id proc) = c_pane_id proc ->
  c_session proc <> EmptyString ->
  c_pane_id proc <> EmptyString ->
  Py.get String.eqb (c_session proc) panes = Some active ->
  Py.str_in (c_pane_id proc) active = true ->
  proc_matches_active_pane proc panes = true.
Proof.
  intros Hs Hp Hsn Hpn Hget Hin. unfold proc_matches_active_pane.
  rewrite Hs, Hp, Hget.
  apply truthy_true in Hsn. apply truthy_true in Hpn. rewrite Hsn, Hpn. simpl.
  destruct active; [discriminate | exact Hin].
Qed.

(** X18.  When no candidate matches two hints, the kept candidates that
    match a hint are those selected on its account, at most its count. *)
Lemma disjoint_hints_keep_at_most_count cands expected d N :
  NoDup (map c_pid cands) ->
  (forall proc d1 d2,
      In proc cands -> In d1 (map fst expected) -> In d2 (map fst expected) ->
      cwd_matches (c_cwd proc) d1 = true -> cwd_matches (c_cwd proc) d2 = true ->
      d1 = d2) ->
  Py.get String.eqb d expected = Some N ->
  0 <= N ->
  Z.of_nat (List.length
              (filter (fun proc =>
                         pid_in (c_pid proc) (select_by_directory cands expected [])
                         && cwd_matches (c_cwd proc) d)
                      cands)) <= N.
Proof.
  intros Hnd Hdisj Hget HN.
  assert (Hlen : Z.of_nat (List.length (directory_selection cands expected d)) <= N).
  { unfold directory_selection, counter_get. rewrite Hget, slice_to_firstn by exact HN.
    rewrite length_firstn. lia. }
  assert (Hfrom : forall pid,
             pid_in pid (select_by_directory cands expected []) = true ->
             pid_in pid [] = true
             \/ exists cwd_hint proc,
                 In cwd_hint (map fst expected)
                 /\ In proc (directory_selection cands expected cwd_hint)
                 /\ c_pid proc = pid)
    by (intros pid Hpid; apply select_by_directory_spec in Hpid; exact Hpid).
  assert (Hcands : NoDup cands) by (eapply NoDup_map_inv; exact Hnd).
  set (kept := filter _ cands).
  assert (Hincl : incl kept (directory_selection cands expected d)).
  { intros proc Hp. apply filter_In in Hp. destruct Hp as (Hin & Hb).
    apply andb_true_iff in Hb. destruct Hb as (Hk & Hm).
    destruct (Hfrom _ Hk) as [Hk0 | (d' & proc' & Hd' & Hsel & Epid)];
      [discriminate|].
    assert (Hsel' : In proc' cands /\ cwd_matches (c_cwd proc') d' = true).
    { unfold directory_selection in Hsel.
      assert (Hpool : In proc' (preferred_of (sort_pid_desc (directory_matches cands d')))).
      { unfold Py.slice_to in Hsel.
        destruct (0 <=? counter_get d' expected);
          exact (in_firstn_in _ _ _ Hsel). }
      apply preferred_of_spec in Hpool. destruct Hpool as (Hpool & _).
      unfold sort_pid_desc in Hpool. apply sort_stable_in in Hpool.
      apply filter_In in Hpool. exact Hpool. }
    destruct Hsel' as (Hin' & Hm').
    assert (proc' = proc) by (eapply NoDup_map_inj; eauto). subst proc'.
    assert (d' = d).
    { apply (Hdisj proc d' d Hin Hd'); [|exact Hm' | exact Hm].
      eapply get_str_in_keys. exact Hget. }
    subst d'. exact Hsel. }
  assert (Hk : NoDup kept) by (apply NoDup_filter; exact Hcands).
  pose proof (NoDup_incl_length Hk Hincl). lia.
Qed.

(** ** The directory strategy, loop by loop *)

Section KeyMatches.
Variable matches : Candidate -> string -> bool.

(** The dict that maps every key of [keys] to [f key]. *)
Definition table_of (f : string -> list Candidate) (keys : list string)
  : list (string * list Candidate) :=
  map (fun k => (k, f k)) keys.

Lemma table_of_ext f f' keys :
  (forall k, In k keys -> f k = f' k) -> table_of f keys = table_of f' keys.
Proof.
  intros H. unfold table_of. apply map_ext_in. intros k Hk. rewrite (H k Hk). reflexivity.
Qed.

Lemma table_of_get f keys k :
  In k keys -> Py.get String.eqb k (table_of f keys) = Some (f k).
Proof.
  induction keys as [|k0 rest IH]; simpl; [contradiction|].
  destruct (String.eqb k k0) eqn:E.
  - apply String.eqb_eq in E. subst. reflexivity.
  - apply String.eqb_neq in E. intros [H | H]; [congruence | exact (IH H)].
Qed.

Lemma table_of_set f keys k v :
  NoDup keys -> In k keys ->
  Py.set String.eqb k v (table_of f keys)
  = table_of (fun k' => if String.eqb k' k then v else f k') keys.
Proof.
  induction keys as [|k0 rest IH]; simpl; intros Hnd Hin; [contradiction|].
  inversion Hnd as [|? ? Hnot Hrest]; subst.
  destruct (String.eqb k k0) eqn:E.
  - apply String.eqb_eq in E. subst k0. rewrite String.eqb_refl. f_equal.
    apply table_of_ext. intros k' Hk'.
    destruct (String.eqb k' k) eqn:E'; [|reflexivity].
    apply String.eqb_eq in E'. subst. contradiction.
  - rewrite String.eqb_sym, E. f_equal.
    destruct Hin as [H | H]; [apply String.eqb_neq in E; congruence|].
    exact (IH Hrest H).
Qed.

Definition append_step (proc : Candidate) (km : list (string * list Candidate))
           (key : string) : list (string * list Candidate) :=
  if matches proc key then key_matches_append key proc km else km.

Lemma append_hints proc keys : forall hints f,
  NoDup keys -> NoDup hints -> incl hints keys ->
  fold_left (append_step proc) hints (table_of f keys)
  = table_of (fun k => if Py.str_in k hints && matches proc k
                       then (f k ++ [proc])%list else f k) keys.
Proof.
  induction hints as [|h hs IH]; intros f Hk Hh Hincl; simpl.
  - apply table_of_ext. intros. reflexivity.
  - inversion Hh as [|? ? Hnot Hrest]; subst.
    assert (Hin : In h keys) by (apply Hincl; left; reflexivity).
    assert (Hincl' : incl hs keys) by (intros x Hx; apply Hincl; right; exact Hx).
    assert (Hout : Py.str_in h hs = false).
    { unfold Py.str_in. destruct (existsb (String.eqb h) hs) eqn:E; [|reflexivity].
      apply existsb_exists in E. destruct E as (y & Hy & E).
      apply String.eqb_eq in E. subst. contradiction. }
    unfold append_step at 2. unfold key_matches_append.
    rewrite (table_of_get f keys h Hin).
    destruct (matches proc h) eqn:Em.
    + rewrite (table_of_set f keys h _ Hk Hin), (IH _ Hk Hrest Hincl').
      apply table_of_ext. intros k _. unfold Py.str_in. simpl.
      destruct (String.eqb k h) eqn:E.
      * apply String.eqb_eq in E. subst k. unfold Py.str_in in Hout.
        rewrite Hout, Em. reflexivity.
      * reflexivity.
    + rewrite (IH _ Hk Hrest Hincl').
      apply table_of_ext. intros k _. unfold Py.str_in. simpl.
      destruct (String.eqb k h) eqn:E; [|reflexivity].
      apply String.eqb_eq in E. subst k. unfold Py.str_in in Hout.
      rewrite Hout, Em. reflexivity.
Qed.

Lemma append_candidates keys : forall cands f,
  NoDup keys ->
  fold_left (fun km proc => fold_left (append_step proc) keys km) cands (table_of f keys)
  = table_of (fun k => (f k ++ filter (fun proc => matches proc k) cands)%list) keys.
Proof.
  induction cands as [|p rest IH]; intros f Hk; simpl.
  - apply table_of_ext. intros. rewrite app_nil_r. reflexivity.
  - rewrite (append_hints p keys keys f Hk Hk (incl_refl keys)), (IH _ Hk).
    apply table_of_ext. intros k Hin.
    assert (Hmem : Py.str_in k keys = true).
    { unfold Py.str_in. apply existsb_exists. exists k.
      split; [exact Hin | apply String.eqb_refl]. }
    rewrite Hmem. simpl. destruct (matches p k); [|reflexivity].
    rewrite <- app_assoc. reflexivity.
Qed.
End KeyMatches.

Lemma fold_left_map {A B C} (f : A -> C -> A) (g : B -> C) (l : list B) (a : A) :
  fold_left f (map g l) a = fold_left (fun acc x => f acc (g x)) l a.
Proof. revert a. induction l as [|x l IH]; intros a; simpl; [reflexivity | apply IH]. Qed.

(** The nested loops leave under every hint the candidates that match it,
    in the order of [agent_candidates]. *)
Lemma fill_key_matches_spec cands expected :
  NoDup (map fst expected) ->
  fill_key_matches cands expected
  = map (fun item => (fst item, directory_matches cands (fst item))) expected.
Proof.
  intros Hnd. unfold fill_key_matches.
  set (matches := fun (proc : Candidate) (k : string) => cwd_matches (c_cwd proc) k).
  assert (Hinit : map (fun item : string * Z => (fst item, @nil Candidate)) expected
                  = table_of (fun _ => []) (map fst expected))
    by (unfold table_of; rewrite map_map; reflexivity).
  rewrite Hinit.
  assert (Hloop : forall km,
             fold_left
               (fun key_matches proc =>
                  fold_left
                    (fun key_matches item =>
                       if cwd_matches (c_cwd proc) (fst item)
                       then key_matches_append (fst item) proc key_matches
                       else key_matches)
                    expected key_matches)
               cands km
             = fold_left (fun km proc => fold_left (append_step matches proc)
                                                   (map fst expected) km)
                         cands km).
  { induction cands as [|p rest IH]; intros km; [reflexivity|].
    simpl. rewrite IH. f_equal. rewrite fold_left_map. reflexivity. }
  rewrite Hloop, (append_candidates matches _ cands _ Hnd).
  unfold table_of. rewrite map_map. reflexivity.
Qed.

(** X17.  On a counter, whose keys are distinct, the loops of the source
    (an empty list per hint, every candidate appended to the list of every
    hint its directory matches, then [preferred[:keep_count]] of every list
    that is not empty) keep the same pids as [select_by_directory], which
    selects hint by hint among the candidates that match the hint. *)
Lemma select_by_directory_loops_eq cands expected keep :
  NoDup (map fst expected) ->
  select_by_directory_loops cands expected keep = select_by_directory cands expected keep.
Proof.
  intros Hnd. unfold select_by_directory_loops, select_by_directory.
  rewrite (fill_key_matches_spec _ _ Hnd), !fold_left_map.
  assert (H : forall (items : list (string * Z)) keep0,
             fold_left
               (fun acc x =>
                  if nonempty (snd (fst x, directory_matches cands (fst x)))
                  then add_pids
                         (Py.slice_to
                            (counter_get (fst (fst x, directory_matches cands (fst x)))
                                         expected)
                            (preferred_of
                               (sort_pid_desc
                                  (snd (fst x, directory_matches cands (fst x))))))
                         acc
                  else acc)
               items keep0
             = fold_left
                 (fun acc x => add_pids (directory_selection cands expected (fst x)) acc)
                 items keep0).
  { induction items as [|item rest IH]; intros keep0; [reflexivity|].
    simpl. rewrite <- IH. f_equal.
    unfold directory_selection.
    destruct (directory_matches cands (fst item)) as [|p ps] eqn:E; [|reflexivity].
    simpl nonempty. cbv iota.
    change (preferred_of (sort_pid_desc [])) with (@nil Candidate).
    rewrite slice_to_nil. reflexivity. }
  apply H.
Qed.

(** * Further properties of the module *)

(** ** [get_descendants] computes the descendant closure *)

Lemma push_children_spec kids : forall stack safe stack' safe',
  push_children kids (stack, safe) = (stack', safe') ->
  (forall x, pid_in x safe' = true <-> pid_in x safe = true \/ In x kids)
  /\ (forall x, In x stack' <-> In x stack \/ (In x kids /\ pid_in x safe = false)).
Proof.
  unfold push_children.
  induction kids as [|c kids IH]; intros stack safe stack' safe' H; simpl in H.
  - inversion H; subst. split; intros x; simpl; tauto.
  - destruct (pid_in c safe) eqn:E.
    + destruct (IH _ _ _ _ H) as (Hs & Hk). split; intros x.
      * rewrite Hs. simpl. split; [tauto|].
        intros [Hx | [<- | Hx]]; auto.
      * rewrite Hk. simpl. split; [tauto|].
        intros [Hx | ([<- | Hx] & Hn)]; [tauto | congruence | tauto].
    + destruct (IH _ _ _ _ H) as (Hs & Hk). split; intros x.
      * rewrite Hs, pid_in_cons, orb_true_iff, Z.eqb_eq. simpl. split.
        -- intros [[-> | Hx] | Hx]; auto.
        -- intros [Hx | [<- | Hx]]; auto.
      * rewrite Hk, pid_in_cons, orb_false_iff, Z.eqb_neq. simpl. split.
        -- intros [[<- | Hx] | (Hx & Hne & Hn)]; auto.
        -- intros [Hx | ([<- | Hx] & Hn)]; auto.
           destruct (Z.eq_dec x c) as [-> | Hne]; auto.
Qed.

Lemma closure_inv_done children roots safe :
  closure_inv children roots [] safe ->
  forall x, pid_in x safe = true <-> reaches children roots x.
Proof.
  intros (Hsound & Hroots & _ & Hclosed) x. split; [apply Hsound|].
  induction 1 as [r Hr | p c Hp IHp Hc]; [exact (Hroots r Hr)|].
  destruct (Hclosed p c IHp Hc) as [[] | Hin]. exact Hin.
Qed.

Lemma closure_inv_step children roots curr rest safe stack' safe' :
  closure_inv children roots (curr :: rest) safe ->
  push_children (children_of children curr) (rest, safe) = (stack', safe') ->
  closure_inv children roots stack' safe'.
Proof.
  intros (Hsound & Hroots & Hstack & Hclosed) E.
  destruct (push_children_spec _ _ _ _ _ E) as (Hs & Hk).
  split; [|split; [|split]].
  - intros x Hx. apply Hs in Hx. destruct Hx as [Hx | Hx]; [exact (Hsound x Hx)|].
    apply (reaches_child _ _ curr); [|exact Hx].
    apply Hsound, Hstack. left. reflexivity.
  - intros x Hx. apply Hs. left. exact (Hroots x Hx).
  - intros x Hx. apply Hs. apply Hk in Hx. destruct Hx as [Hx | (Hx & _)].
    + left. apply Hstack. right. exact Hx.
    + right. exact Hx.
  - intros p c Hp Hc. apply Hs in Hp.
    destruct (pid_in p safe) eqn:Ep.
    + destruct (Hclosed p c Ep Hc) as [[<- | Hin] | Hin].
      * right. apply Hs. right. exact Hc.
      * left. apply Hk. left. exact Hin.
      * right. apply Hs. left. exact Hin.
    + destruct Hp as [Hp | Hp]; [discriminate|].
      left. apply Hk. right. split; assumption.
Qed.

Lemma descend_closure children roots fuel : forall stack safe s,
  closure_inv children roots stack safe ->
  descend fuel children stack safe = Some s ->
  forall x, pid_in x s = true <-> reaches children roots x.
Proof.
  induction fuel as [|fuel IH]; intros stack safe s Hinv H.
  - destruct stack; simpl in H; [|discriminate]. inversion H; subst s.
    exact (closure_inv_done _ _ _ Hinv).
  - destruct stack as [|curr rest]; simpl in H.
    + inversion H; subst s. exact (closure_inv_done _ _ _ Hinv).
    + destruct (push_children (children_of children curr) (rest, safe))
        as [stack' safe'] eqn:E.
      exact (IH _ _ _ (closure_inv_step _ _ _ _ _ _ _ Hinv E) H).
Qed.

Lemma get_descendants_closure roots children s :
  get_descendants roots children = Some s ->
  forall x, pid_in x s = true <-> reaches children roots x.
Proof.
  unfold get_descendants. apply descend_closure.
  split; [|split; [|split]].
  - intros x Hx. apply reaches_root. apply pid_in_In. exact Hx.
  - intros x Hx. apply pid_in_In. exact Hx.
  - intros x Hx. apply pid_in_In. apply in_rev. exact Hx.
  - intros p c Hp _. left. apply in_rev. rewrite rev_involutive.
    apply pid_in_In. exact Hp.
Qed.

Lemma reaches_nothing children x : ~ reaches children [] x.
Proof. induction 1 as [r [] | p c _ IH _]; exact IH. Qed.

(** X1.  [get_descendants] always returns, and what it returns is the
    set of pids reached from the roots along the children map: the roots,
    their children, the children of those, and so on, and no other pid. *)
Theorem get_descendants_is_the_descendant_closure :
  forall (roots : list Z) (children : Children),
    exists s, get_descendants roots children = Some s
              /\ forall x, pid_in x s = true <-> reaches children roots x.
Proof.
  intros roots children.
  destruct (get_descendants_total roots children) as [s Hs].
  exists s. split; [exact Hs|]. exact (get_descendants_closure _ _ _ Hs).
Qed.

(** ** The safe tree, exactly *)

Lemma on_chain_step processes curr info x :
  Py.get Z.eqb curr processes = Some info ->
  on_chain processes curr x <-> x = curr \/ on_chain processes (i_ppid info) x.
Proof.
  intros E. split.
  - intros H. inversion H as [p info' E' | p info' a E' Hup]; subst.
    + left. reflexivity.
    + right. rewrite E in E'. inversion E'; subst. exact Hup.
  - intros [-> | H]; [eapply chain_here | eapply chain_up]; eassumption.
Qed.

Lemma walk_ancestors_spec processes fuel : forall curr safe s,
  walk_ancestors fuel processes curr safe = Some s ->
  forall x, pid_in x s = true <-> pid_in x safe = true \/ on_chain processes curr x.
Proof.
  assert (Hstop : forall curr safe x,
             Py.get Z.eqb curr processes = None ->
             pid_in x safe = true <-> pid_in x safe = true \/ on_chain processes curr x).
  { intros curr safe x E. split; [auto|].
    intros [H | H]; [exact H|]. inversion H; congruence. }
  induction fuel as [|fuel IH]; intros curr safe s H x; simpl in H;
    destruct (Py.get Z.eqb curr processes) as [info|] eqn:E; try discriminate;
    try (inversion H; subst s; exact (Hstop _ _ _ E)).
  rewrite (IH _ _ _ H x), pid_add_spec, orb_true_iff, Z.eqb_eq, (on_chain_step _ _ _ x E).
  tauto.
Qed.

Lemma pid_union_spec t : forall s x,
  pid_in x (pid_union s t) = true <-> pid_in x s = true \/ pid_in x t = true.
Proof.
  unfold pid_union. induction t as [|y t IH]; intros s x; simpl.
  - split; [auto | intros [H | H]; [exact H | discriminate]].
  - rewrite IH, pid_add_spec, pid_in_cons, !orb_true_iff. tauto.
Qed.

(** X2.  [safe_pids], whenever it is computed, is made of three parts and
    nothing else: the pids reached from the [zellij] rows along the
    children map, the rows on the chain of parent links that starts at the
    tool's own pid, and the pids reached from the detached tmux servers
    whose socket is named in the arguments of one of the former. *)
Theorem safe_pids_are_three_trees :
  forall (socket_re_search : string -> option string)
         (processes : Processes) (children : Children) (my_pid : Z) (safe : list Z),
    compute_safe_pids socket_re_search processes children my_pid = Some safe ->
    exists safe1,
      (forall x, pid_in x safe1 = true <->
                 reaches children (zellij_pids processes) x
                 \/ on_chain processes my_pid x)
      /\ (forall x, pid_in x safe = true <->
                    pid_in x safe1 = true
                    \/ reaches children
                         (find_tmux_servers_for_sockets
                            socket_re_search
                            (find_safe_tmux_sockets socket_re_search safe1 processes)
                            processes) x).
Proof.
  intros sock processes children my_pid safe H. unfold compute_safe_pids in H.
  destruct (get_descendants (zellij_pids processes) children) as [safe0|] eqn:E0;
    [|discriminate].
  destruct (walk_ancestors (List.length processes) processes my_pid safe0)
    as [safe1|] eqn:E1; [|discriminate].
  exists safe1. split.
  - intros x. rewrite (walk_ancestors_spec _ _ _ _ _ E1 x).
    rewrite (get_descendants_closure _ _ _ E0 x). reflexivity.
  - destruct (find_safe_tmux_sockets sock safe1 processes) as [|s0 ss] eqn:Es.
    + inversion H; subst safe. intros x. split; [auto|].
      intros [Hx | Hx]; [exact Hx|]. simpl in Hx.
      exfalso. exact (reaches_nothing _ _ Hx).
    + destruct (get_descendants
                  (find_tmux_servers_for_sockets sock (s0 :: ss) processes) children)
        as [servers|] eqn:E2; [|discriminate].
      inversion H; subst safe. intros x.
      rewrite pid_union_spec, (get_descendants_closure _ _ _ E2 x). reflexivity.
Qed.

Lemma safe_pids_are_three_trees_witness :
  exists maps,
    get_process_map Demo.tool_under_zellij = Some maps
    /\ exists safe1,
        (forall x, pid_in x safe1 = true <->
                   reaches (snd maps) (zellij_pids (fst maps)) x
                   \/ on_chain (fst maps) 200 x)
        /\ (forall x, pid_in x [200; 100] = true <->
                      pid_in x safe1 = true
                      \/ reaches (snd maps)
                           (find_tmux_servers_for_sockets
                              Demo.no_socket
                              (find_safe_tmux_sockets Demo.no_socket safe1 (fst maps))
                              (fst maps)) x).
Proof.
  eexists. split; [reflexivity|].
  apply (safe_pids_are_three_trees Demo.no_socket _ _ 200 [200; 100]).
  reflexivity.
Defined.

(** ** The parts of a completed pass *)

Section Pass.
Variable extra_pattern_search : string -> bool.
Variable shlex_split : string -> option (list string).
Variable socket_re_search : string -> option string.

(** What the fields of a report were computed from. *)
Lemma run_cleanup_parts g w r :
  run_cleanup extra_pattern_search shlex_split socket_re_search g w = Some (Completed r) ->
  exists children,
  get_process_map (ps_listing w) = Some (r_processes r, children)
  /\ agent_candidates r
     = fst (build_candidates extra_pattern_search shlex_split w (safe_pids (r_ctx r))
                             (r_processes r) [])
  /\ active_sessions (r_ctx r)
     = compute_active_sessions (fst (parse_session_filter (environ w))) (listed_sessions w)
  /\ strict_with_evidence (r_ctx r)
     = env_truthy (environ w) "AOC_CLEANUP_PANE_STRICT"
       && (nonempty (expected_cwds (layout w)) || nonempty (expected_ids (layout w))
           || nonempty (active_panes_by_session w))
  /\ keep_pids r
     = select_keep_pids (strict_with_evidence (r_ctx r)) (active_sessions (r_ctx r))
                        (layout w) (agent_candidates r)
  /\ (if nonempty (keep_pids r)
      then get_descendants (keep_pids r) children
      else Some [])
     = Some (keep_tree (r_ctx r))
  /\ skipped_young r = count_verdict SkipYoung (decisions r)
  /\ skipped_pane_miss r = count_verdict SkipPaneMiss (decisions r)
  /\ exists cache,
      effects r
      = (fst (signal_all (dry_run g) w (kill_list r))
         ++ prune_effects
              (prune_runtime_snapshots
                 (telemetry w) (environ_after (dry_run g) (kill_list r) w) cache
                 (active_panes_by_session w) (active_sessions (r_ctx r))
                 (match session_filter (r_ctx r) with Some _ => true | None => false end)
                 (dry_run g)))%list
      /\ removed_snapshots r
         = removed
             (prune_runtime_snapshots
                (telemetry w) (environ_after (dry_run g) (kill_list r) w) cache
                (active_panes_by_session w) (active_sessions (r_ctx r))
                (match session_filter (r_ctx r) with Some _ => true | None => false end)
                (dry_run g)).
Proof.
  unfold run_cleanup. intros H.
  destruct (get_process_map (ps_listing w)) as [[processes children]|] eqn:Epm;
    [|discriminate].
  destruct (skip_if_no_sessions g && negb (nonempty (listed_sessions w)));
    [discriminate|].
  destruct (compute_safe_pids socket_re_search processes children (my_pid w))
    as [safe|] eqn:Esafe; [|discriminate].
  destruct (require_active_signals g && negb _); [discriminate|].
  destruct (build_candidates extra_pattern_search shlex_split w safe processes [])
    as [cands cache0] eqn:Eb.
  match type of H with
  | match ?k with _ => _ end = _ => destruct k as [tree|] eqn:Et; [|discriminate]
  end.
  match type of H with
  | context [decide_all shlex_split g w ?x cands cache0] =>
      destruct (decide_all shlex_split g w x cands cache0) as [decs cache1] eqn:Ed
  end.
  destruct (signal_all (dry_run g) w (kill_list_of decs)) as [signals kill_raised] eqn:Es.
  destruct kill_raised; [discriminate|].
  match type of H with
  | (if prune_raised ?p then _ else _) = _ => destruct (prune_raised p); [discriminate|]
  end.
  inversion H; subst r; clear H; simpl.
  exists children. split; [reflexivity|].
  rewrite Eb, Es. simpl.
  repeat (split; [reflexivity|]).
  split; [exact Et|].
  repeat (split; [reflexivity|]).
  exists cache1. split; reflexivity.
Qed.

(** X3.  After a completed pass [keep_tree] is the set of pids reached
    from [keep_pids] along the children map of the process table: the
    kept pids and all their descendants, and nothing else (nothing at all
    when no pid was kept). *)
Theorem keep_tree_is_the_descendant_closure_of_keep_pids :
  forall (g : Globals) (w : World) (r : Report),
    run_cleanup extra_pattern_search shlex_split socket_re_search g w
    = Some (Completed r) ->
    exists maps,
      get_process_map (ps_listing w) = Some maps
      /\ forall x, pid_in x (keep_tree (r_ctx r)) = true
                   <-> reaches (snd maps) (keep_pids r) x.
Proof.
  intros g w r H.
  destruct (run_cleanup_parts _ _ _ H) as (children & Hpm & _ & _ & _ & _ & Ht & _).
  eexists. split; [exact Hpm|]. intros x. cbn [snd].
  destruct (keep_pids r) as [|k ks] eqn:Ek; simpl in Ht.
  - inversion Ht. split; [discriminate|]. intros Hx.
    exfalso. exact (reaches_nothing _ _ Hx).
  - exact (get_descendants_closure _ _ _ Ht x).
Qed.

End Pass.

Lemma keep_tree_is_the_descendant_closure_of_keep_pids_witness :
  exists r,
    Demo.run Demo.defaults Demo.safe_kept_holdover = Some (Completed r)
    /\ keep_pids r = [300]
    /\ exists maps,
        get_process_map (ps_listing Demo.safe_kept_holdover) = Some maps
        /\ forall x, pid_in x (keep_tree (r_ctx r)) = true
                     <-> reaches (snd maps) (keep_pids r) x.
Proof.
  completed_run E r. exists r. split; [reflexivity|]. split.
  - pose proof E as Ev. vm_compute in Ev. injection Ev as Ev. subst r. reflexivity.
  - exact (keep_tree_is_the_descendant_closure_of_keep_pids
             Demo.no_extra_pattern Demo.shlex_plain Demo.no_socket
             Demo.defaults Demo.safe_kept_holdover r E).
Defined.

(** ** The process table and its children map *)

Lemma children_of_append ppid pid children p :
  children_of (children_append ppid pid children) p
  = if p =? ppid then (children_of children p ++ [pid])%list else children_of children p.
Proof.
  unfold children_append, children_of.
  destruct (p =? ppid) eqn:E.
  - apply Z.eqb_eq in E. subst p.
    destruct (Py.get Z.eqb ppid children) as [l|]; rewrite get_set_same; reflexivity.
  - apply Z.eqb_neq in E.
    destruct (Py.get Z.eqb ppid children) as [l|];
      rewrite get_set_other by exact E; reflexivity.
Qed.

Lemma process_row_inv line acc : table_inv acc -> table_inv (process_row line acc).
Proof.
  intros (Hrow & Hchild). unfold process_row.
  destruct (Py.split_ws (Py.strip line) 5) as [|p0 [|p1 [|e [|t [|c [|a [|]]]]]]];
    try (split; assumption).
  destruct (Py.int p0) as [pid|]; [|split; assumption].
  destruct (Py.int p1) as [ppid|]; [|split; assumption].
  split; simpl.
  - intros q info Hq. rewrite children_of_append.
    destruct (Z.eq_dec q pid) as [-> | Hne].
    + rewrite get_set_same in Hq. inversion Hq; subst info. simpl.
      rewrite Z.eqb_refl. apply in_or_app. right. left. reflexivity.
    + rewrite get_set_other in Hq by exact Hne.
      destruct (i_ppid info =? ppid); [apply in_or_app; left|]; exact (Hrow _ _ Hq).
  - intros p c' Hc. rewrite children_of_append in Hc. apply set_keys.
    destruct (p =? ppid).
    + apply in_app_or in Hc. destruct Hc as [Hc | [<- | []]].
      * right. exact (Hchild _ _ Hc).
      * left. reflexivity.
    + right. exact (Hchild _ _ Hc).
Qed.

(** X4.  In what [get_process_map] returns, every row of the table is
    listed in the children map under the parent its row names, and every
    pid the children map lists is a row of the table. *)
Theorem process_table_and_children_map_agree :
  forall (ps : PsResult) (maps : Processes * Children),
    get_process_map ps = Some maps ->
    (forall pid info,
        Py.get Z.eqb pid (fst maps) = Some info ->
        In pid (children_of (snd maps) (i_ppid info)))
    /\ (forall p c,
           In c (children_of (snd maps) p) ->
           Py.mem Z.eqb c (fst maps) = true).
Proof.
  intros ps maps E.
  assert (H : table_inv maps).
  { destruct ps as [out| |]; simpl in E; [| |discriminate];
      injection E as E; subst maps.
    - apply (fold_left_invariant table_inv).
      + intros a b. apply process_row_inv.
      + split; [intros pid info Hq; discriminate | intros p c []].
    - split; [intros pid info Hq; discriminate | intros p c []]. }
  destruct H as (Hrow & Hchild). split; [exact Hrow|].
  intros p c Hc. apply mem_keys. exact (Hchild p c Hc).
Qed.

Lemma process_table_and_children_map_agree_witness :
  exists maps,
    get_process_map Demo.tool_under_zellij = Some maps
    /\ map (fun row => (fst row, i_ppid (snd row))) (fst maps) = [(100, 1); (200, 100)]
    /\ snd maps = [(1, [100]); (100, [200])]
    /\ (forall pid info,
           Py.get Z.eqb pid (fst maps) = Some info ->
           In pid (children_of (snd maps) (i_ppid info)))
    /\ (forall p c,
           In c (children_of (snd maps) p) ->
           Py.mem Z.eqb c (fst maps) = true).
Proof.
  eexists. split; [reflexivity|]. split; [reflexivity|]. split; [reflexivity|].
  exact (process_table_and_children_map_agree Demo.tool_under_zellij _ eq_refl).
Defined.

(** ** Process environments *)

(** X5.  [proc_env] reads the environment of a pid once: after a first
    call, a later call for the same pid answers from [ENV_CACHE] with the
    same environment and leaves the cache as it is, whatever the system
    shows by then; the entries of the other pids are not touched. *)
Theorem proc_env_reads_a_pid_once :
  forall (os os' : Z -> option (list string)) (pid : Z) (cache : EnvCache),
    proc_env os' pid (snd (proc_env os pid cache)) = proc_env os pid cache
    /\ forall q, q <> pid ->
                 Py.get Z.eqb q (snd (proc_env os pid cache)) = Py.get Z.eqb q cache.
Proof.
  intros os os' pid cache. unfold proc_env at 2 3 4.
  destruct (Py.get Z.eqb pid cache) as [env|] eqn:E; simpl.
  - split; [|reflexivity]. unfold proc_env. rewrite E. reflexivity.
  - split.
    + unfold proc_env. rewrite get_set_same. reflexivity.
    + intros q Hq. apply get_set_other. exact Hq.
Qed.

Lemma get_set_same_str {V} k (v : V) d :
  Py.get String.eqb k (Py.set String.eqb k v d) = Some v.
Proof.
  induction d as [|[k' v'] r IH]; simpl.
  - rewrite String.eqb_refl. reflexivity.
  - destruct (String.eqb k k') eqn:E; simpl.
    + rewrite String.eqb_refl. reflexivity.
    + rewrite E. exact IH.
Qed.

Lemma get_set_other_str {V} k k' (v : V) d :
  k' <> k -> Py.get String.eqb k' (Py.set String.eqb k v d) = Py.get String.eqb k' d.
Proof.
  intros Hne. induction d as [|[k0 v0] r IH]; simpl.
  - apply String.eqb_neq in Hne. rewrite Hne. reflexivity.
  - destruct (String.eqb k k0) eqn:E; simpl.
    + apply String.eqb_eq in E. subst k0.
      apply String.eqb_neq in Hne. rewrite Hne. reflexivity.
    + destruct (String.eqb k' k0); [reflexivity | exact IH].
Qed.

Lemma split_eq_joined k v :
  Py.contains "=" k = false -> split_eq (k ++ "=" ++ v) = Some (k, v).
Proof.
  induction k as [|c k IH]; intros H; [reflexivity|].
  simpl in H. apply orb_false_iff in H. destruct H as (Hc & Hk).
  simpl. destruct (Ascii.eqb c "=") eqn:E.
  - apply Ascii.eqb_eq in E. subst c. simpl in Hc. destruct k; discriminate.
  - specialize (IH Hk). simpl in IH. rewrite IH. reflexivity.
Qed.

Lemma parse_environ_last data item :
  parse_environ (data ++ [item])
  = match split_eq item with
    | Some (k, v) => if Py.truthy k then Py.set String.eqb k v (parse_environ data)
                     else parse_environ data
    | None => parse_environ data
    end.
Proof. unfold parse_environ. rewrite fold_left_app. reflexivity. Qed.

(** X6.  In the environment [proc_env] parses, the last item [KEY=value]
    of a key decides its value: an item appended to the block sets its
    key, whatever stood there, and changes no other key. *)
Theorem parse_environ_last_item_wins :
  forall (data : list string) (k v : string),
    k <> EmptyString ->
    Py.contains "=" k = false ->
    env_get (parse_environ (data ++ [k ++ "=" ++ v])) k = v
    /\ forall k', k' <> k ->
                  env_get (parse_environ (data ++ [k ++ "=" ++ v])) k'
                  = env_get (parse_environ data) k'.
Proof.
  intros data k v Hk Hc. rewrite parse_environ_last, (split_eq_joined _ _ Hc).
  apply truthy_true in Hk. rewrite Hk. unfold env_get. split.
  - rewrite get_set_same_str. reflexivity.
  - intros k' Hne. rewrite get_set_other_str by exact Hne. reflexivity.
Qed.

Lemma parse_environ_last_item_wins_witness :
  env_get (parse_environ (["ZELLIJ_PANE_ID=3"; "HOME=/root"]
                          ++ ["ZELLIJ_PANE_ID" ++ "=" ++ "7"])) "ZELLIJ_PANE_ID" = "7"
  /\ forall k', k' <> "ZELLIJ_PANE_ID" ->
                env_get (parse_environ (["ZELLIJ_PANE_ID=3"; "HOME=/root"]
                                        ++ ["ZELLIJ_PANE_ID" ++ "=" ++ "7"])) k'
                = env_get (parse_environ ["ZELLIJ_PANE_ID=3"; "HOME=/root"]) k'.
Proof.
  apply (parse_environ_last_item_wins
           ["ZELLIJ_PANE_ID=3"; "HOME=/root"] "ZELLIJ_PANE_ID" "7");
    [discriminate | reflexivity].
Defined.

(** ** Environment switches *)

(** X7.  [env_int] never returns less than the minimum, provided the
    default is not below it: whatever the variable holds, the value is the
    default, the minimum, or a parsed integer that is at least the minimum.
    So [min_process_age_secs] is never negative. *)
Theorem env_int_is_at_least_the_minimum :
  forall (environ : Env) (name : string) (default minimum : Z),
    minimum <= default ->
    minimum <= fst (env_int environ name default minimum)
    /\ 0 <= min_process_age_secs (fst (module_globals environ)).
Proof.
  assert (H : forall environ name default minimum,
             minimum <= default -> minimum <= fst (env_int environ name default minimum)).
  { intros environ name default minimum Hd. unfold env_int.
    destruct (negb (Py.truthy (Py.strip (env_get environ name)))); [exact Hd|].
    destruct (Py.int (Py.strip (env_get environ name))) as [value|]; [|exact Hd].
    destruct (value <? minimum) eqn:E; simpl; [lia|].
    apply Z.ltb_ge in E. exact E. }
  intros environ name default minimum Hd. split; [exact (H _ _ _ _ Hd)|].
  unfold module_globals, min_process_age_secs_of.
  specialize (H environ "AOC_CLEANUP_MIN_PROCESS_AGE_SECS" 0 0 ltac:(lia)).
  destruct (env_int environ "AOC_CLEANUP_MIN_PROCESS_AGE_SECS" 0 0) as [age printed].
  exact H.
Qed.

Lemma env_int_is_at_least_the_minimum_witness :
  10 <= fst (env_int [("AOC_CLEANUP_MIN_PROCESS_AGE_SECS", " 3 ")]
                     "AOC_CLEANUP_MIN_PROCESS_AGE_SECS" 30 10)
  /\ 0 <= min_process_age_secs
            (fst (module_globals [("AOC_CLEANUP_MIN_PROCESS_AGE_SECS", " 3 ")])).
Proof.
  apply (env_int_is_at_least_the_minimum
           [("AOC_CLEANUP_MIN_PROCESS_AGE_SECS", " 3 ")]
           "AOC_CLEANUP_MIN_PROCESS_AGE_SECS" 30 10).
  lia.
Defined.

(** ** The session filter *)

Lemma free_of_separators_snoc cur c :
  free_of_separators cur = true ->
  Py.is_space c || Ascii.eqb c "," = false ->
  free_of_separators (cur ++ String c EmptyString) = true.
Proof.
  unfold free_of_separators. intros Hcur Hc.
  induction cur as [|a cur IH]; simpl in *.
  - rewrite Hc. reflexivity.
  - apply andb_true_iff in Hcur. destruct Hcur as (Ha & Hcur).
    rewrite Ha, (IH Hcur). reflexivity.
Qed.

Lemma split_sessions_tokens s : forall cur tok,
  free_of_separators cur = true ->
  In tok (split_sessions s cur) ->
  tok <> EmptyString /\ free_of_separators tok = true.
Proof.
  induction s as [|c r IH]; intros cur tok Hcur Hin; simpl in Hin.
  - destruct cur; simpl in Hin; [destruct Hin|].
    destruct Hin as [<- | []]. split; [discriminate | exact Hcur].
  - destruct (Py.is_space c || Ascii.eqb c ",") eqn:Ec.
    + destruct cur as [|a cur']; simpl in Hin.
      * exact (IH EmptyString _ eq_refl Hin).
      * destruct Hin as [<- | Hin].
        -- split; [discriminate | exact Hcur].
        -- exact (IH EmptyString _ eq_refl Hin).
    + exact (IH _ _ (free_of_separators_snoc _ _ Hcur Ec) Hin).
Qed.

(** X8.  A session filter never holds the empty name: every session it
    names is a non-empty string, which is the current session when the
    variable says [current], [self] or [this], and otherwise a piece of the
    variable's value free of blanks and commas. *)
Theorem session_filter_names_are_not_empty :
  forall (environ : Env) (sessions : list string) (s : string),
    fst (parse_session_filter environ) = Some sessions ->
    In s sessions ->
    s <> EmptyString
    /\ (s = get_current_session environ \/ free_of_separators s = true).
Proof.
  intros environ sessions s H Hin. unfold parse_session_filter in H.
  destruct (negb (Py.truthy (Py.strip (env_get environ "AOC_CLEANUP_SESSIONS"))));
    [discriminate|].
  destruct (Py.str_in _ ["current"; "self"; "this"]).
  - destruct (Py.truthy (get_current_session environ)) eqn:Et; [|discriminate].
    simpl in H. inversion H; subst sessions. destruct Hin as [<- | []].
    split; [|left; reflexivity]. intros E. rewrite E in Et. discriminate.
  - simpl in H. inversion H; subst sessions.
    destruct (split_sessions_tokens _ EmptyString _ eq_refl Hin) as (Hne & Hfree).
    split; [exact Hne | right; exact Hfree].
Qed.

Lemma session_filter_names_are_not_empty_witness :
  fst (parse_session_filter [("AOC_CLEANUP_SESSIONS", " work, play ,")])
  = Some ["work"; "play"]
  /\ "play" <> EmptyString
  /\ ("play" = get_current_session [("AOC_CLEANUP_SESSIONS", " work, play ,")]
      \/ free_of_separators "play" = true).
Proof.
  split; [reflexivity|].
  apply (session_filter_names_are_not_empty
           [("AOC_CLEANUP_SESSIONS", " work, play ,")] ["work"; "play"] "play");
    [reflexivity | right; left; reflexivity].
Defined.

(** ** Candidates and the kill list *)

Section Candidates.
Variable extra_pattern_search : string -> bool.
Variable shlex_split : string -> option (list string).
Variable socket_re_search : string -> option string.

Lemma classify_candidate_row w safe pid info cache :
  match fst (classify extra_pattern_search shlex_split w safe pid info cache) with
  | Some proc =>
      candidate_row extra_pattern_search shlex_split info = true
      /\ candidate_of_row w safe (pid, info) proc
  | None => candidate_row extra_pattern_search shlex_split info = false
  end.
Proof.
  unfold classify, candidate_row.
  destruct (is_agent_process extra_pattern_search shlex_split (i_args info) (i_comm info));
    [|reflexivity].
  destruct (existsb _ PROTECTED_COMMANDS); [reflexivity|].
  destruct (existsb _ [" grep "; " pgrep "; " ps "]); [reflexivity|].
  destruct (proc_env (os_environ w) pid cache) as [env cache1].
  simpl. split; [reflexivity|]. repeat split.
Qed.

Lemma build_candidates_rows w safe processes : forall cache,
  Forall2 (candidate_of_row w safe)
          (filter (fun row => candidate_row extra_pattern_search shlex_split (snd row))
                  processes)
          (fst (build_candidates extra_pattern_search shlex_split w safe processes cache)).
Proof.
  induction processes as [|[pid info] rest IH]; intros cache; simpl; [constructor|].
  pose proof (classify_candidate_row w safe pid info cache) as Hc.
  destruct (classify extra_pattern_search shlex_split w safe pid info cache)
    as [found cache1].
  specialize (IH cache1).
  destruct (build_candidates extra_pattern_search shlex_split w safe rest cache1)
    as [more cache2].
  simpl in *. destruct found as [proc|].
  - destruct Hc as (Hrow & Hproc). rewrite Hrow. constructor; assumption.
  - rewrite Hc. exact IH.
Qed.



(** X9.  The agent candidates of a completed pass are, in the order of
    the process table, exactly its rows that are agent processes, hold no
    protected command in their name or arguments, and are no process
    search; each candidate carries the fields of its row, the working
    directory the system shows for its pid, and whether the pid is in
    [safe_pids]. *)
Theorem candidates_are_the_unprotected_agent_rows :
  forall (g : Globals) (w : World) (r : Report),
    run_cleanup extra_pattern_search shlex_split socket_re_search g w
    = Some (Completed r) ->
    exists maps,
      get_process_map (ps_listing w) = Some maps
      /\ Forall2 (candidate_of_row w (safe_pids (r_ctx r)))
                 (filter (fun row => candidate_row extra_pattern_search shlex_split (snd row))
                         (fst maps))
                 (agent_candidates r).
Proof.
  intros g w r H.
  destruct (run_cleanup_parts _ _ _ _ _ _ H) as (children & Hpm & Hc & _).
  eexists. split; [exact Hpm|].
  rewrite Hc. apply build_candidates_rows.
Qed.


(** X11.  With a positive minimum age, a candidate younger than it, or of
    unknown age, is killed for two reasons only: a lease that names
    another pane instance, or, in pane-strict mode with layout evidence, a
    pane that its live session does not list.  Every other rule either
    retains it or skips it. *)
Theorem young_candidate_is_killed_only_for_lease_or_strict_pane_miss :
  forall (g : Globals) (w : World) (r : Report) (proc : Candidate) (v : Verdict),
    run_cleanup extra_pattern_search shlex_split socket_re_search g w
    = Some (Completed r) ->
    0 < min_process_age_secs g ->
    In (proc, v) (decisions r) ->
    too_young g proc = true ->
    is_kill v = true ->
    v = KillLeaseMismatch
    \/ (v = KillPaneMiss /\ strict_with_evidence (r_ctx r) = true).
Proof.
  intros g w r proc v H Hage Hin Hyoung Hkill.
  destruct (run_cleanup_completed _ _ _ _ _ _ H) as (_ & _ & _ & _ & Hd & _).
  rewrite Hd in Hin. apply in_map_iff in Hin. destruct Hin as (p & E & _).
  inversion E; subst p v. clear E. revert Hkill. unfold verdict_of.
  assert (Hpos : (min_process_age_secs g <=? 0) = false) by (apply Z.leb_gt; exact Hage).
  assert (Hpos' : (0 <? min_process_age_secs g) = true) by (apply Z.ltb_lt; exact Hage).
  rewrite Hpos, Hpos', Hyoung.
  destruct (session_excluded (r_ctx r) proc); [discriminate|].
  destruct (lease_mismatch proc); [left; reflexivity|].
  destruct (proc_matches_active_pane proc (active_panes_by_session w)); [discriminate|].
  destruct (pane_miss w proc).
  { destruct (strict_with_evidence (r_ctx r)); [right; split; reflexivity | discriminate]. }
  repeat match goal with
         | |- is_kill (if ?c then _ else _) = true -> _ => destruct c; try discriminate
         end.
Qed.


(** ** The command line *)

Lemma parse_session_filter_reads environ environ' :
  (forall name, In name ["AOC_CLEANUP_SESSIONS"; "ZELLIJ_SESSION_NAME"; "ZELLIJ_SESSION"] ->
                env_get environ' name = env_get environ name) ->
  parse_session_filter environ' = parse_session_filter environ.
Proof.
  intros H. unfold parse_session_filter, get_current_session.
  rewrite !H by (simpl; tauto). reflexivity.
Qed.

Lemma env_get_set_other environ k v name :
  name <> k -> env_get (Py.set String.eqb k v environ) name = env_get environ name.
Proof. intros Hne. unfold env_get. rewrite get_set_other_str by exact Hne. reflexivity. Qed.

Lemma build_candidates_with_environ environ' w safe processes : forall cache,
  build_candidates extra_pattern_search shlex_split (with_environ environ' w) safe
                   processes cache
  = build_candidates extra_pattern_search shlex_split w safe processes cache.
Proof.
  induction processes as [|[pid info] rest IH]; intros cache; simpl; [reflexivity|].
  change (classify extra_pattern_search shlex_split (with_environ environ' w)
                   safe pid info cache)
    with (classify extra_pattern_search shlex_split w safe pid info cache).
  destruct (classify extra_pattern_search shlex_split w safe pid info cache)
    as [found cache1].
  rewrite IH. reflexivity.
Qed.

Lemma decide_all_with_environ environ' g w x cands : forall cache,
  decide_all shlex_split g (with_environ environ' w) x cands cache
  = decide_all shlex_split g w x cands cache.
Proof.
  induction cands as [|proc rest IH]; intros cache; simpl; [reflexivity|].
  change (decide shlex_split g (with_environ environ' w) x proc cache)
    with (decide shlex_split g w x proc cache).
  destruct (decide shlex_split g w x proc cache) as [v cache1].
  rewrite IH. reflexivity.
Qed.

Lemma signal_round_with_environ environ' w sig kills :
  signal_round (with_environ environ' w) sig kills = signal_round w sig kills.
Proof.
  induction kills as [|k ks IH]; simpl; [reflexivity|].
  rewrite IH. reflexivity.
Qed.

Lemma signal_all_with_environ environ' dry w kills :
  signal_all dry (with_environ environ' w) kills = signal_all dry w kills.
Proof. unfold signal_all. rewrite !signal_round_with_environ. reflexivity. Qed.

(** [run_cleanup] reads four variables of [os.environ] and no other. *)
Lemma run_cleanup_reads_four_variables g w environ' :
  (forall name, In name ["AOC_CLEANUP_SESSIONS"; "ZELLIJ_SESSION_NAME"; "ZELLIJ_SESSION";
                         "AOC_CLEANUP_PANE_STRICT"] ->
                env_get environ' name = env_get (environ w) name) ->
  run_cleanup extra_pattern_search shlex_split socket_re_search g (with_environ environ' w)
  = run_cleanup extra_pattern_search shlex_split socket_re_search g w.
Proof.
  intros H. unfold run_cleanup. cbn [with_environ environ ps_listing listed_sessions layout
                                     active_panes_by_session my_pid telemetry].
  rewrite (parse_session_filter_reads (environ w) environ')
    by (intros name Hn; apply H; simpl in *; tauto).
  unfold env_truthy. rewrite (H "AOC_CLEANUP_PANE_STRICT") by (simpl; tauto).
  destruct (get_process_map (ps_listing w)) as [[processes children]|]; [|reflexivity].
  destruct (skip_if_no_sessions g && negb (nonempty (listed_sessions w)));
    [reflexivity|].
  destruct (compute_safe_pids socket_re_search processes children (my_pid w))
    as [safe|]; [|reflexivity].
  destruct (require_active_signals g && negb _); [reflexivity|].
  rewrite build_candidates_with_environ.
  destruct (build_candidates extra_pattern_search shlex_split w safe processes [])
    as [cands cache0].
  match goal with
  | |- match ?k with _ => _ end = _ => destruct k as [tree|]; [|reflexivity]
  end.
  rewrite decide_all_with_environ.
  match goal with
  | |- context [decide_all shlex_split g w ?x cands cache0] =>
      destruct (decide_all shlex_split g w x cands cache0) as [decs cache1]
  end.
  rewrite signal_all_with_environ.
  reflexivity.
Qed.

(** X13.  The command-line flags do not reach the pass.  [main] writes
    [--dry-run] and [--execute] into the variable [AOC_CLEANUP_DRY_RUN] of
    [os.environ], which [run_cleanup] does not read: its [dry_run] switch
    is the module-level one, set when the module was loaded.  So [main]
    does what [run_cleanup] does with the switches as loaded, whatever the
    flags: in particular [--dry-run] alone does not make the pass dry. *)
Theorem command_line_flags_do_not_reach_the_pass :
  forall (args_dry_run : option bool) (args_execute : bool) (g : Globals) (w : World),
    main extra_pattern_search shlex_split socket_re_search args_dry_run args_execute g w
    = run_cleanup extra_pattern_search shlex_split socket_re_search g w.
Proof.
  intros d e g w. unfold main.
  apply run_cleanup_reads_four_variables. intros name Hn.
  assert (Hne : name <> "AOC_CLEANUP_DRY_RUN")
    by (simpl in Hn; intros ->; repeat destruct Hn as [Hn | Hn]; try discriminate; exact Hn).
  destruct d as [flag|]; [|destruct e]; try reflexivity;
    apply env_get_set_other; exact Hne.
Qed.

End Candidates.

(** With [--dry-run] on the command line and nothing in the environment,
    the lone agent of [Demo.orphan] is sent both signals. *)
Example dry_run_flag_kills :
  option_map outcome_effects
             (main Demo.no_extra_pattern Demo.shlex_plain Demo.no_socket (Some true) false
                   (fst (module_globals (environ Demo.orphan))) Demo.orphan)
  = Some [OsKill 300 SIGTERM; TimeSleep; OsKill 300 SIGKILL].
Proof. vm_compute. reflexivity. Qed.

Lemma candidates_are_the_unprotected_agent_rows_witness :
  exists r,
    Demo.run Demo.defaults Demo.orphan = Some (Completed r)
    /\ map c_pid (agent_candidates r) = [300]
    /\ exists maps,
        get_process_map (ps_listing Demo.orphan) = Some maps
        /\ Forall2 (candidate_of_row Demo.orphan (safe_pids (r_ctx r)))
                   (filter (fun row => candidate_row Demo.no_extra_pattern Demo.shlex_plain
                                                     (snd row))
                           (fst maps))
                   (agent_candidates r).
Proof.
  completed_run E r. exists r. split; [reflexivity|]. split.
  - pose proof E as Ev. vm_compute in Ev. injection Ev as Ev. subst r. reflexivity.
  - exact (candidates_are_the_unprotected_agent_rows
             Demo.no_extra_pattern Demo.shlex_plain Demo.no_socket
             Demo.defaults Demo.orphan r E).
Defined.


Lemma young_candidate_is_killed_only_for_lease_or_strict_pane_miss_witness :
  exists r proc v,
    Demo.run {| dry_run := false; require_active_signals := false;
                skip_if_no_sessions := false; min_process_age_secs := 10000 |}
             Demo.live_pane_holdover = Some (Completed r)
    /\ hd_error (decisions r) = Some (proc, v)
    /\ c_pid proc = 300
    /\ c_etimes proc = Some 5000
    /\ (v = KillLeaseMismatch
        \/ (v = KillPaneMiss /\ strict_with_evidence (r_ctx r) = true)).
Proof.
  completed_run E r.
  pose proof E as Ev. vm_compute in Ev. injection Ev as Ev. subst r.
  eexists. eexists. eexists. split; [reflexivity|]. split; [reflexivity|].
  split; [reflexivity|]. split; [reflexivity|].
  eapply (young_candidate_is_killed_only_for_lease_or_strict_pane_miss
           Demo.no_extra_pattern Demo.shlex_plain Demo.no_socket
           {| dry_run := false; require_active_signals := false;
              skip_if_no_sessions := false; min_process_age_secs := 10000 |}
           Demo.live_pane_holdover _ _ _ E);
    [reflexivity | left; reflexivity | reflexivity | reflexivity].
Defined.


(** ** The keep selector *)

Section Assoc.
Context {K V : Type} (eqb : K -> K -> bool).
Hypothesis eqb_eq : forall a b, eqb a b = true <-> a = b.

Lemma assoc_get_in k (d : list (K * V)) v : Py.get eqb k d = Some v -> In (k, v) d.
Proof.
  induction d as [|[k' v'] r IH]; simpl; [discriminate|].
  destruct (eqb k k') eqn:E.
  - apply eqb_eq in E. subst. intros H. left. congruence.
  - intros H. right. exact (IH H).
Qed.

Lemma assoc_get_none k (d : list (K * V)) : Py.get eqb k d = None -> ~ In k (map fst d).
Proof.
  induction d as [|[k' v'] r IH]; simpl; [tauto|].
  destruct (eqb k k') eqn:E; [discriminate|].
  intros H [H1 | H1]; [|exact (IH H H1)].
  subst k'. assert (Hk : eqb k k = true) by (apply eqb_eq; reflexivity). congruence.
Qed.

Lemma assoc_set_in k v (d : list (K * V)) k' v' :
  In (k', v') (Py.set eqb k v d) -> (k' = k /\ v' = v) \/ In (k', v') d.
Proof.
  induction d as [|[k0 v0] r IH]; simpl.
  - intros [E | []]. inversion E. left. split; reflexivity.
  - destruct (eqb k k0); simpl.
    + intros [E | H]; [inversion E; left; split; reflexivity | right; right; exact H].
    + intros [E | H]; [right; left; exact E|].
      destruct (IH H) as [H1 | H1]; [left; exact H1 | right; right; exact H1].
Qed.

Lemma assoc_set_keys k v (d : list (K * V)) k' :
  In k' (map fst (Py.set eqb k v d)) <-> k' = k \/ In k' (map fst d).
Proof.
  induction d as [|[k0 v0] r IH]; simpl.
  - intuition congruence.
  - destruct (eqb k k0) eqn:E; simpl.
    + apply eqb_eq in E. subst. intuition congruence.
    + rewrite IH. intuition congruence.
Qed.

Lemma assoc_set_nodup k v (d : list (K * V)) :
  NoDup (map fst d) -> NoDup (map fst (Py.set eqb k v d)).
Proof.
  induction d as [|[k0 v0] r IH]; simpl; intros H.
  - constructor; [intros [] | constructor].
  - inversion H as [|? ? Hn Hr]; subst.
    destruct (eqb k k0) eqn:E; simpl.
    + apply eqb_eq in E. subst. constructor; assumption.
    + constructor; [|exact (IH Hr)].
      rewrite assoc_set_keys. intros [H1 | H1]; [|exact (Hn H1)].
      subst k0. assert (Hk : eqb k k = true) by (apply eqb_eq; reflexivity). congruence.
Qed.

Lemma assoc_nodup_in (d : list (K * V)) k v1 v2 :
  NoDup (map fst d) -> In (k, v1) d -> In (k, v2) d -> v1 = v2.
Proof.
  induction d as [|[k0 v0] r IH]; simpl; intros Hnd H1 H2; [destruct H1|].
  inversion Hnd as [|? ? Hn Hr]; subst.
  destruct H1 as [E1 | H1], H2 as [E2 | H2].
  - congruence.
  - inversion E1; subst. exfalso. apply Hn. apply in_map_iff. exists (k, v2). auto.
  - inversion E2; subst. exfalso. apply Hn. apply in_map_iff. exists (k, v1). auto.
  - exact (IH Hr H1 H2).
Qed.
End Assoc.

Lemma pane_key_eqb_eq a b : pane_key_eqb a b = true <-> a = b.
Proof.
  destruct a as [a1 a2], b as [b1 b2]. unfold pane_key_eqb. simpl.
  rewrite andb_true_iff, !String.eqb_eq. split; [intros (-> & ->) | intros E; inversion E];
    auto.
Qed.

Lemma group_by_pane_ok sessions all : forall cands groups,
  incl cands all -> groups_ok all groups ->
  groups_ok all
    (fold_left
       (fun groups proc =>
          let pane_id := c_pane_id proc in
          if negb (Py.truthy pane_id) then groups
          else
            let proc_session := Py.or_str (c_session proc) EmptyString in
            if nonempty sessions && Py.truthy proc_session
               && negb (Py.str_in proc_session sessions)
            then groups
            else
              let key := (proc_session, pane_id) in
              match Py.get pane_key_eqb key groups with
              | Some l => Py.set pane_key_eqb key (l ++ [proc])%list groups
              | None => Py.set pane_key_eqb key [proc] groups
              end)
       cands groups).
Proof.
  induction cands as [|proc rest IH]; intros groups Hincl Hok; simpl; [exact Hok|].
  apply IH; [intros x Hx; apply Hincl; right; exact Hx|].
  assert (Hproc : In proc all) by (apply Hincl; left; reflexivity).
  destruct (negb (Py.truthy (c_pane_id proc))); [exact Hok|].
  destruct (nonempty sessions && Py.truthy (Py.or_str (c_session proc) EmptyString)
            && negb (Py.str_in (Py.or_str (c_session proc) EmptyString) sessions));
    [exact Hok|].
  destruct Hok as (Hnd & Hmem).
  fold (pane_key proc).
  destruct (Py.get pane_key_eqb (pane_key proc) groups) as [l|] eqn:E.
  - split; [apply (assoc_set_nodup _ pane_key_eqb_eq); exact Hnd|].
    intros key procs Hin. apply assoc_set_in in Hin.
    destruct Hin as [(-> & ->) | Hin]; [|exact (Hmem _ _ Hin)].
    apply (assoc_get_in _ pane_key_eqb_eq) in E. destruct (Hmem _ _ E) as (_ & Hl).
    split; [destruct l; discriminate|].
    intros p Hp. apply in_app_or in Hp. destruct Hp as [Hp | [<- | []]];
      [exact (Hl p Hp) | split; [exact Hproc | reflexivity]].
  - split; [apply (assoc_set_nodup _ pane_key_eqb_eq); exact Hnd|].
    intros key procs Hin. apply assoc_set_in in Hin.
    destruct Hin as [(-> & ->) | Hin]; [|exact (Hmem _ _ Hin)].
    split; [discriminate|].
    intros p [<- | []]. split; [exact Hproc | reflexivity].
Qed.

Lemma group_by_pane_groups_ok sessions cands :
  groups_ok cands (group_by_pane sessions cands).
Proof.
  unfold group_by_pane. apply group_by_pane_ok; [apply incl_refl|].
  split; [constructor | intros key procs []].
Qed.

Lemma select_root_in procs entry :
  select_root procs = Some entry -> In (sel_proc entry) procs.
Proof.
  unfold select_root.
  set (pool := if nonempty (filter c_has_tty procs) then filter c_has_tty procs
               else if nonempty (filter (fun p => negb (pid_in (c_ppid p) (map c_pid procs)))
                                        procs)
                    then filter (fun p => negb (pid_in (c_ppid p) (map c_pid procs))) procs
                    else procs).
  assert (Hpool : incl pool procs).
  { unfold pool. intros x Hx.
    destruct (nonempty (filter c_has_tty procs)); [apply filter_In in Hx; tauto|].
    destruct (nonempty (filter _ procs)); [apply filter_In in Hx; tauto | exact Hx]. }
  destruct (Py.sort_stable _ pool) as [|first rest] eqn:E; [discriminate|].
  intros H. inversion H; subst entry. simpl. apply Hpool.
  apply (sort_stable_in (fun a b => rank_lt (root_rank a) (root_rank b)) pool first).
  rewrite E. left. reflexivity.
Qed.

Lemma select_root_some procs : procs <> [] -> exists entry, select_root procs = Some entry.
Proof.
  intros Hne. unfold select_root.
  set (pool := if nonempty (filter c_has_tty procs) then filter c_has_tty procs
               else if nonempty (filter (fun p => negb (pid_in (c_ppid p) (map c_pid procs)))
                                        procs)
                    then filter (fun p => negb (pid_in (c_ppid p) (map c_pid procs))) procs
                    else procs).
  assert (Hpool : pool <> []).
  { unfold pool.
    destruct (filter c_has_tty procs); simpl; [|discriminate].
    destruct (filter _ procs); simpl; [exact Hne | discriminate]. }
  destruct (Py.sort_stable _ pool) as [|first rest] eqn:E; [|eexists; reflexivity].
  exfalso. destruct pool as [|p0 pool']; [apply Hpool; reflexivity|].
  assert (Hin : In p0 (Py.sort_stable (fun a b => rank_lt (root_rank a) (root_rank b))
                                      (p0 :: pool')))
    by (apply sort_stable_in; left; reflexivity).
  rewrite E in Hin. destruct Hin.
Qed.

(** The entries of [selected_roots] before it is cut: one per group. *)
Lemma selected_roots_spec (groups : list ((string * string) * list Candidate)) :
  forall acc entry,
    In entry (fold_left (fun acc group =>
                           match select_root (snd group) with
                           | Some entry => (acc ++ [entry])%list
                           | None => acc
                           end) groups acc)
    <-> In entry acc
        \/ exists group, In group groups /\ select_root (snd group) = Some entry.
Proof.
  induction groups as [|g rest IH]; intros acc entry; simpl.
  - split; [auto | intros [H | (group & [] & _)]; exact H].
  - rewrite IH. destruct (select_root (snd g)) as [e|] eqn:E.
    + rewrite in_app_iff. simpl. split.
      * intros [[H | [<- | []]] | (group & Hg & Hs)].
        -- left. exact H.
        -- right. exists g. auto.
        -- right. exists group. auto.
      * intros [H | (group & [<- | Hg] & Hs)].
        -- left. left. exact H.
        -- left. right. left. congruence.
        -- right. exists group. auto.
    + split.
      * intros [H | (group & Hg & Hs)]; [left; exact H | right; exists group; auto].
      * intros [H | (group & [<- | Hg] & Hs)];
          [left; exact H | congruence | right; exists group; auto].
Qed.

Lemma selected_roots_length (groups : list ((string * string) * list Candidate)) :
  forall acc,
    (List.length (fold_left (fun acc group =>
                               match select_root (snd group) with
                               | Some entry => (acc ++ [entry])%list
                               | None => acc
                               end) groups acc)
     <= List.length acc + List.length groups)%nat.
Proof.
  induction groups as [|g rest IH]; intros acc; simpl; [lia|].
  specialize (IH (match select_root (snd g) with
                  | Some entry => (acc ++ [entry])%list
                  | None => acc
                  end)).
  destruct (select_root (snd g)); [rewrite length_app in IH; simpl in IH|]; lia.
Qed.

Lemma slice_to_in {A} (k : Z) (l : list A) x : In x (Py.slice_to k l) -> In x l.
Proof. unfold Py.slice_to. destruct (0 <=? k); apply in_firstn_in. Qed.

Lemma keep_entries_spec (entries : list SelectedRoot) : forall keep pid,
  pid_in pid (fold_left (fun keep entry => pid_add (c_pid (sel_proc entry)) keep)
                        entries keep) = true
  <-> pid_in pid keep = true
      \/ exists entry, In entry entries /\ c_pid (sel_proc entry) = pid.
Proof.
  induction entries as [|e rest IH]; intros keep pid; simpl.
  - split; [auto | intros [H | (entry & [] & _)]; exact H].
  - rewrite IH, pid_add_spec, orb_true_iff, Z.eqb_eq. split.
    + intros [[-> | H] | (entry & Hin & E)].
      * right. exists e. auto.
      * left. exact H.
      * right. exists entry. auto.
    + intros [H | (entry & [<- | Hin] & E)].
      * left. right. exact H.
      * left. left. symmetry. exact E.
      * right. exists entry. auto.
Qed.

Lemma pid_add_length x s : (List.length (pid_add x s) <= S (List.length s))%nat.
Proof. unfold pid_add. destruct (pid_in x s); simpl; lia. Qed.

Lemma keep_entries_length (entries : list SelectedRoot) : forall keep,
  (List.length (fold_left (fun keep entry => pid_add (c_pid (sel_proc entry)) keep)
                          entries keep)
   <= List.length keep + List.length entries)%nat.
Proof.
  induction entries as [|e rest IH]; intros keep; simpl; [lia|].
  specialize (IH (pid_add (c_pid (sel_proc e)) keep)).
  pose proof (pid_add_length (c_pid (sel_proc e)) keep). lia.
Qed.

(** What the pane-strict strategy keeps: pids of entries selected for a
    group. *)
Lemma select_pane_strict_spec sessions ev cands pid :
  pid_in pid (snd (select_pane_strict sessions ev cands)) = true ->
  exists group entry,
    In group (group_by_pane sessions cands)
    /\ select_root (snd group) = Some entry
    /\ c_pid (sel_proc entry) = pid.
Proof.
  unfold select_pane_strict.
  destruct (nonempty (group_by_pane sessions cands)); [|discriminate].
  cbn [snd]. intros H. apply keep_entries_spec in H.
  destruct H as [H | (entry & Hin & E)]; [discriminate|].
  assert (Hin' : In entry
                    (fold_left (fun acc group =>
                                  match select_root (snd group) with
                                  | Some entry => (acc ++ [entry])%list
                                  | None => acc
                                  end) (group_by_pane sessions cands) [])).
  { match type of Hin with
    | In _ (if ?c then _ else _) => destruct c
    end; [|exact Hin].
    apply slice_to_in in Hin. apply sort_stable_in in Hin. exact Hin. }
  apply selected_roots_spec in Hin'. destruct Hin' as [[] | (group & Hg & Hs)].
  exists group, entry. auto.
Qed.

Lemma selections_spec (sel : string -> list Candidate) keys : forall keep pid,
  pid_in pid (fold_left (fun keep key => add_pids (sel key) keep) keys keep) = true <->
  pid_in pid keep = true
  \/ exists key proc, In key keys /\ In proc (sel key) /\ c_pid proc = pid.
Proof.
  induction keys as [|k ks IH]; intros keep pid; simpl.
  - split; [auto | intros [H | (h & proc & [] & _)]; exact H].
  - rewrite IH, add_pids_spec. split.
    + intros [[H | (proc & Hin & E)] | (h & proc & Hh & Hin & E)].
      * left. exact H.
      * right. exists k, proc. auto.
      * right. exists h, proc. auto.
    + intros [H | (h & proc & [<- | Hh] & Hin & E)].
      * left. left. exact H.
      * left. right. exists proc. auto.
      * right. exists h, proc. auto.
Qed.

Lemma preferred_sorted_in procs proc :
  In proc (preferred_of (sort_pid_desc procs)) -> In proc procs.
Proof.
  intros H. apply preferred_of_spec in H. destruct H as (H & _).
  unfold sort_pid_desc in H. apply sort_stable_in in H. exact H.
Qed.

(** X14.  Whatever strategy builds it, [keep_pids] holds pids of agent
    candidates only. *)
Theorem keep_pids_are_pids_of_candidates :
  forall (strict_with_evidence : bool) (active_sessions : list string)
         (ev : LayoutEvidence) (agent_candidates : list Candidate) (pid : Z),
    pid_in pid (select_keep_pids strict_with_evidence active_sessions ev agent_candidates)
    = true ->
    exists proc, In proc agent_candidates /\ c_pid proc = pid.
Proof.
  intros strict sessions ev cands pid. unfold select_keep_pids.
  assert (Hstrict : pid_in pid (snd (if strict
                                     then select_pane_strict sessions ev cands
                                     else (false, []))) = true ->
                    exists proc, In proc cands /\ c_pid proc = pid).
  { destruct strict; [|discriminate]. intros H.
    apply select_pane_strict_spec in H. destruct H as (group & entry & Hg & Hs & E).
    exists (sel_proc entry). split; [|exact E].
    destruct group as [key procs]. simpl in Hs.
    destruct (group_by_pane_groups_ok sessions cands) as (_ & Hmem).
    destruct (Hmem _ _ Hg) as (_ & Hl). apply (Hl (sel_proc entry)).
    exact (select_root_in _ _ Hs). }
  destruct (if strict then select_pane_strict sessions ev cands else (false, []))
    as [used keep0].
  simpl in Hstrict.
  destruct (nonempty (expected_cwds ev) && negb used).
  { unfold select_by_directory. intros H. apply selections_spec in H.
    destruct H as [H | (key & proc & _ & Hin & E)]; [exact (Hstrict H)|].
    exists proc. split; [|exact E]. unfold directory_selection in Hin.
    apply slice_to_in, preferred_sorted_in in Hin.
    unfold directory_matches in Hin. apply filter_In in Hin. tauto. }
  destruct (nonempty (expected_ids ev) && negb used); [|exact Hstrict].
  unfold select_by_identity. intros H. apply selections_spec in H.
  destruct H as [H | (key & proc & _ & Hin & E)]; [exact (Hstrict H)|].
  exists proc. split; [|exact E]. unfold identity_selection in Hin.
  apply slice_to_in, preferred_sorted_in in Hin.
  unfold identity_matches in Hin. apply filter_In in Hin. tauto.
Qed.

Lemma keep_pids_are_pids_of_candidates_witness :
  exists proc,
    In proc [Demo.candidate 50 agent_bin "/home/u/proj/a";
             Demo.candidate 60 other "/home/u/proj/a"]
    /\ c_pid proc = 50.
Proof.
  apply (keep_pids_are_pids_of_candidates
           false []
           {| active_commands := []; agent_cwds := [];
              expected_cwds := [("/home/u/proj/a", 1)]; expected_ids := [] |}
           [Demo.candidate 50 agent_bin "/home/u/proj/a";
            Demo.candidate 60 other "/home/u/proj/a"] 50).
  reflexivity.
Defined.

Lemma sort_stable_length {A} (before : A -> A -> bool) l :
  List.length (Py.sort_stable before l) = List.length l.
Proof.
  unfold Py.sort_stable.
  assert (H : forall acc,
             List.length (fold_left (fun acc x => Py.insert_stable before x acc) l acc)
             = (List.length acc + List.length l)%nat).
  { induction l as [|x r IH]; intros acc; simpl; [lia|].
    rewrite IH, insert_stable_length. lia. }
  rewrite H. reflexivity.
Qed.

Lemma slice_to_length {A} (k : Z) (l : list A) :
  (List.length (Py.slice_to k l) <= List.length l)%nat.
Proof. unfold Py.slice_to. destruct (0 <=? k); rewrite length_firstn; lia. Qed.

(** The candidate the pane-strict strategy keeps for a pid, and the group
    it was selected for. *)
Lemma select_pane_strict_kept sessions ev cands p :
  NoDup (map c_pid cands) ->
  In p cands ->
  pid_in (c_pid p) (snd (select_pane_strict sessions ev cands)) = true ->
  exists procs entry,
    In (pane_key p, procs) (group_by_pane sessions cands)
    /\ select_root procs = Some entry /\ sel_proc entry = p.
Proof.
  intros Hnd Hp H. apply select_pane_strict_spec in H.
  destruct H as ([key procs] & entry & Hg & Hs & E). simpl in Hs.
  destruct (group_by_pane_groups_ok sessions cands) as (_ & Hmem).
  destruct (Hmem _ _ Hg) as (_ & Hl).
  destruct (Hl _ (select_root_in _ _ Hs)) as (Hin & Hkey).
  assert (Heq : sel_proc entry = p) by (eapply NoDup_map_inj; eauto).
  subst p. exists procs, entry. rewrite <- Hkey. auto.
Qed.

(** X15.  The pane-strict strategy keeps at most one candidate per pane:
    two kept candidates filed under the same session and pane id are the
    same candidate.  It keeps no more pids than there are pane groups, and
    no more than the number of agents the layout expects when that number
    is positive. *)
Theorem pane_strict_keeps_one_candidate_per_pane :
  forall (active_sessions : list string) (ev : LayoutEvidence)
         (agent_candidates : list Candidate),
    NoDup (map c_pid agent_candidates) ->
    (forall p q,
        In p agent_candidates -> In q agent_candidates ->
        pid_in (c_pid p) (snd (select_pane_strict active_sessions ev agent_candidates)) = true ->
        pid_in (c_pid q) (snd (select_pane_strict active_sessions ev agent_candidates)) = true ->
        pane_key p = pane_key q ->
        p = q)
    /\ (List.length (snd (select_pane_strict active_sessions ev agent_candidates))
        <= List.length (group_by_pane active_sessions agent_candidates))%nat
    /\ (0 < expected_total ev ->
        Z.of_nat (List.length (snd (select_pane_strict active_sessions ev agent_candidates)))
        <= expected_total ev).
Proof.
  intros sessions ev cands Hnd. split; [|split].
  - intros p q Hp Hq Hkp Hkq Hkey.
    destruct (select_pane_strict_kept _ _ _ _ Hnd Hp Hkp) as (lp & ep & Hgp & Hsp & <-).
    destruct (select_pane_strict_kept _ _ _ _ Hnd Hq Hkq) as (lq & eq' & Hgq & Hsq & <-).
    rewrite Hkey in Hgp.
    destruct (group_by_pane_groups_ok sessions cands) as (Hkeys & _).
    pose proof (assoc_nodup_in _ _ _ _ Hkeys Hgp Hgq) as E. subst lq.
    congruence.
  - unfold select_pane_strict.
    destruct (nonempty (group_by_pane sessions cands)); [|simpl; lia].
    cbn [snd].
    match goal with
    | |- (List.length (fold_left _ ?entries []) <= _)%nat =>
        pose proof (keep_entries_length entries []) as Hk;
        assert (He : (List.length entries
                      <= List.length (group_by_pane sessions cands))%nat)
    end.
    { pose proof (selected_roots_length (group_by_pane sessions cands) []) as Hs.
      simpl in Hs.
      match goal with
      | |- (List.length (if ?c then _ else _) <= _)%nat => destruct c
      end; [|exact Hs].
      pose proof (slice_to_length
                    (if nonempty (expected_cwds ev) then sum_values (expected_cwds ev)
                     else if nonempty (expected_ids ev) then sum_values (expected_ids ev)
                          else 0)
                    (Py.sort_stable selected_lt
                       (fold_left (fun acc group =>
                                     match select_root (snd group) with
                                     | Some entry => (acc ++ [entry])%list
                                     | None => acc
                                     end) (group_by_pane sessions cands) []))) as Hl.
      rewrite sort_stable_length in Hl. lia. }
    simpl in Hk. lia.
  - intros Htotal. unfold select_pane_strict.
    destruct (nonempty (group_by_pane sessions cands)); [|simpl; lia].
    cbn [snd]. fold (expected_total ev).
    match goal with
    | |- Z.of_nat (List.length (fold_left _ ?entries [])) <= _ =>
        pose proof (keep_entries_length entries []) as Hk;
        assert (He : Z.of_nat (List.length entries) <= expected_total ev)
    end.
    { assert (Hz : (expected_total ev =? 0) = false) by (apply Z.eqb_neq; lia).
      rewrite Hz. cbn [negb andb].
      destruct (expected_total ev <? _) eqn:Elt.
      - rewrite slice_to_firstn by lia. rewrite length_firstn. lia.
      - apply Z.ltb_ge in Elt. exact Elt. }
    simpl in Hk. lia.
Qed.

Lemma pane_strict_keeps_one_candidate_per_pane_witness :
  let cands := [pane_candidate 10 1 "work" "3" "?"; pane_candidate 11 10 "work" "3" "pts/4";
                pane_candidate 12 1 "work" "5" "?"] in
  snd (select_pane_strict ["work"] Demo.no_layout cands) = [12; 11]
  /\ (forall p q,
         In p cands -> In q cands ->
         pid_in (c_pid p) (snd (select_pane_strict ["work"] Demo.no_layout cands)) = true ->
         pid_in (c_pid q) (snd (select_pane_strict ["work"] Demo.no_layout cands)) = true ->
         pane_key p = pane_key q ->
         p = q)
  /\ (List.length (snd (select_pane_strict ["work"] Demo.no_layout cands))
      <= List.length (group_by_pane ["work"] cands))%nat
  /\ (0 < expected_total Demo.no_layout ->
      Z.of_nat (List.length (snd (select_pane_strict ["work"] Demo.no_layout cands)))
      <= expected_total Demo.no_layout).
Proof.
  split; [reflexivity|].
  apply (pane_strict_keeps_one_candidate_per_pane
           ["work"] Demo.no_layout
           [pane_candidate 10 1 "work" "3" "?"; pane_candidate 11 10 "work" "3" "pts/4";
            pane_candidate 12 1 "work" "5" "?"]).
  simpl. repeat constructor; simpl; intuition discriminate.
Defined.

(** ** The identity-count strategy *)

(** X16.  Identity hints cannot overlap, a directory having one base
    name: of the candidates whose directory is named [d], the
    identity-count strategy keeps at most [expected_ids[d]], all hints
    taken together. *)
Theorem identity_hint_keeps_at_most_its_count :
  forall (cands : list Candidate) (expected : list (string * Z)) (d : string) (N : Z),
    NoDup (map c_pid cands) ->
    Py.get String.eqb d expected = Some N ->
    0 <= N ->
    Z.of_nat (List.length
                (filter (fun proc => pid_in (c_pid proc) (select_by_identity cands expected []))
                        (identity_matches cands d))) <= N.
Proof.
  intros cands expected d N Hnd Hget HN.
  assert (Hlen : Z.of_nat (List.length (identity_selection cands expected d)) <= N).
  { unfold identity_selection, counter_get. rewrite Hget, slice_to_firstn by exact HN.
    rewrite length_firstn. lia. }
  assert (Hcands : NoDup cands) by (eapply NoDup_map_inv; exact Hnd).
  set (kept := filter _ (identity_matches cands d)).
  assert (Hincl : incl kept (identity_selection cands expected d)).
  { intros proc Hp. apply filter_In in Hp. destruct Hp as (Hm & Hk).
    unfold identity_matches in Hm. apply filter_In in Hm. destruct Hm as (Hin & Hbase).
    unfold select_by_identity in Hk. apply selections_spec in Hk.
    destruct Hk as [Hk | (d' & proc' & Hd' & Hsel & Epid)]; [discriminate|].
    assert (Hsel' : In proc' (identity_matches cands d')).
    { unfold identity_selection in Hsel.
      apply slice_to_in, preferred_sorted_in in Hsel. exact Hsel. }
    unfold identity_matches in Hsel'. apply filter_In in Hsel'.
    destruct Hsel' as (Hin' & Hbase').
    assert (proc' = proc) by (eapply NoDup_map_inj; eauto). subst proc'.
    apply andb_true_iff in Hbase, Hbase'.
    destruct Hbase as (_ & E1), Hbase' as (_ & E2).
    apply String.eqb_eq in E1, E2. rewrite E1 in E2. subst d'. exact Hsel. }
  assert (Hk : NoDup kept).
  { apply NoDup_filter. unfold identity_matches. apply NoDup_filter. exact Hcands. }
  pose proof (NoDup_incl_length Hk Hincl). lia.
Qed.

Lemma identity_hint_keeps_at_most_its_count_witness :
  let cands := [Demo.candidate 50 agent_bin "/home/u/web"; Demo.candidate 60 agent_bin "/srv/web";
                Demo.candidate 70 other "/home/u/api"] in
  select_by_identity cands [("web", 1); ("api", 1)] [] = [70; 60]
  /\ Z.of_nat (List.length
                 (filter (fun proc => pid_in (c_pid proc)
                                             (select_by_identity cands [("web", 1); ("api", 1)] []))
                         (identity_matches cands "web"))) <= 1.
Proof.
  split; [reflexivity|].
  apply (identity_hint_keeps_at_most_its_count
           [Demo.candidate 50 agent_bin "/home/u/web"; Demo.candidate 60 agent_bin "/srv/web";
            Demo.candidate 70 other "/home/u/api"]
           [("web", 1); ("api", 1)] "web" 1);
    [simpl; repeat constructor; simpl; intuition discriminate | reflexivity | lia].
Defined.

(** ** The directory-count strategy on its hints *)

Lemma select_by_directory_loops_eq_witness :
  select_by_directory_loops
    [Demo.candidate 50 agent_bin "/home/u/proj/a"; Demo.candidate 60 other "/home/u/proj/b"]
    [("/home/u/proj/a", 1); ("/home/u/proj/c", 2)] []
  = select_by_directory
      [Demo.candidate 50 agent_bin "/home/u/proj/a"; Demo.candidate 60 other "/home/u/proj/b"]
      [("/home/u/proj/a", 1); ("/home/u/proj/c", 2)] [].
Proof.
  apply (select_by_directory_loops_eq
           [Demo.candidate 50 agent_bin "/home/u/proj/a";
            Demo.candidate 60 other "/home/u/proj/b"]
           [("/home/u/proj/a", 1); ("/home/u/proj/c", 2)] []).
  simpl. repeat constructor; simpl; intuition discriminate.
Defined.

Lemma disjoint_hints_keep_at_most_count_witness :
  let cands := [Demo.candidate 50 agent_bin "/home/u/proj/a";
                Demo.candidate 60 other "/home/u/proj/a";
                Demo.candidate 70 other "/home/u/proj/b"] in
  let expected := [("/home/u/proj/a", 1); ("/home/u/proj/b", 1)] in
  select_by_directory cands expected [] = [70; 50]
  /\ Z.of_nat (List.length
                 (filter (fun proc =>
                            pid_in (c_pid proc) (select_by_directory cands expected [])
                            && cwd_matches (c_cwd proc) "/home/u/proj/a")
                         cands)) <= 1.
Proof.
  split; [reflexivity|].
  apply (disjoint_hints_keep_at_most_count
           [Demo.candidate 50 agent_bin "/home/u/proj/a";
            Demo.candidate 60 other "/home/u/proj/a";
            Demo.candidate 70 other "/home/u/proj/b"]
           [("/home/u/proj/a", 1); ("/home/u/proj/b", 1)] "/home/u/proj/a" 1);
    [simpl; repeat constructor; simpl; intuition discriminate | | reflexivity | lia].
  intros proc d1 d2 Hp H1 H2 M1 M2.
  simpl in Hp, H1, H2.
  repeat match goal with
         | H : _ \/ _ |- _ => destruct H as [H | H]
         | H : False |- _ => destruct H
         end; subst; try reflexivity; vm_compute in M1, M2; discriminate.
Defined.

(** ** The active sessions *)

Lemma str_in_In x s : Py.str_in x s = true <-> In x s.
Proof.
  unfold Py.str_in. rewrite existsb_exists. split.
  - intros (y & Hy & E). apply String.eqb_eq in E. subst. exact Hy.
  - intros H. exists x. split; [exact H | apply String.eqb_refl].
Qed.

(** X19.  Under a session filter the active sessions are sessions of the
    filter: the listed ones among them when there is any, and otherwise,
    when no session of the filter is listed, the whole filter, so that
    sessions that are not running are then taken as active. *)
Theorem active_sessions_under_a_filter :
  forall (wanted all_sessions : list string),
    (forall s, In s (compute_active_sessions (Some wanted) all_sessions) -> In s wanted)
    /\ ((exists s, In s all_sessions /\ In s wanted) ->
        forall s, In s (compute_active_sessions (Some wanted) all_sessions)
                  <-> In s all_sessions /\ In s wanted)
    /\ ((forall s, In s all_sessions -> ~ In s wanted) ->
        compute_active_sessions (Some wanted) all_sessions = wanted).
Proof.
  intros wanted all. unfold compute_active_sessions.
  destruct wanted as [|w0 ws].
  { split; [intros s []|]. split; [intros (s & _ & []) | reflexivity]. }
  set (wanted := w0 :: ws).
  destruct (nonempty all) eqn:Ea.
  2:{ apply nonempty_false in Ea. subst all. split; [auto|].
      split; [intros (s & [] & _) | reflexivity]. }
  destruct (filter (fun s => Py.str_in s wanted) all) as [|c cs] eqn:Ef; simpl nonempty.
  - split; [auto|]. split; [|reflexivity].
    intros (s & Hs & Hw). exfalso.
    assert (Hin : In s (filter (fun s => Py.str_in s wanted) all))
      by (apply filter_In; split; [exact Hs | apply str_in_In; exact Hw]).
    rewrite Ef in Hin. destruct Hin.
  - cbv iota. rewrite <- Ef. split; [|split].
    + intros s Hs. apply filter_In in Hs. apply str_in_In. tauto.
    + intros _ s. rewrite filter_In, str_in_In. reflexivity.
    + intros Hnone. exfalso.
      assert (Hin : In c (filter (fun s => Py.str_in s wanted) all))
        by (rewrite Ef; left; reflexivity).
      apply filter_In in Hin. destruct Hin as (Hc & Hw). apply str_in_In in Hw.
      exact (Hnone c Hc Hw).
Qed.

(** ** Directory hints that contain one another *)

Lemma prefix_trans a : forall b c,
  String.prefix a b = true -> String.prefix b c = true -> String.prefix a c = true.
Proof.
  induction a as [|x a IH]; intros b c Hab Hbc; [destruct c; reflexivity|].
  destruct b as [|y b]; [discriminate|]. destruct c as [|z c]; [discriminate|].
  simpl in *.
  destruct (ascii_dec x y) as [->|]; [|discriminate].
  destruct (ascii_dec y z) as [->|]; [|discriminate].
  destruct (ascii_dec z z); [|congruence]. exact (IH _ _ Hab Hbc).
Qed.

Lemma prefix_app a : forall b x,
  String.prefix a b = true -> String.prefix a (b ++ x) = true.
Proof.
  induction a as [|c a IH]; intros b x H; [destruct (b ++ x); reflexivity|].
  destruct b as [|d b]; [discriminate|]. simpl in *.
  destruct (ascii_dec c d); [|discriminate]. exact (IH _ _ H).
Qed.

Lemma prefix_refl a : String.prefix a a = true.
Proof.
  induction a as [|c a IH]; [reflexivity|]. simpl.
  destruct (ascii_dec c c); [exact IH | congruence].
Qed.

Lemma prefix_app_self a x : String.prefix a (a ++ x) = true.
Proof. apply prefix_app, prefix_refl. Qed.

(** X20.  Absolute directory hints nest: a directory that matches a hint
    matches every absolute hint which that hint itself matches, that is,
    every directory that encloses it.  (So a candidate below
    [/home/u/proj/web] is counted for the hint [/home/u/proj] as well.) *)
Theorem cwd_matches_an_enclosing_hint_too :
  forall (proc_path inner outer : string),
    Py.startswith outer "/" = true ->
    cwd_matches inner outer = true ->
    cwd_matches proc_path inner = true ->
    cwd_matches proc_path outer = true.
Proof.
  intros p h1 h2 Habs H12 Hp1. unfold cwd_matches in *.
  destruct (negb (Py.truthy h1) || negb (Py.truthy h2)) eqn:E12; [discriminate|].
  destruct (negb (Py.truthy p) || negb (Py.truthy h1)) eqn:Ep1; [discriminate|].
  apply orb_false_iff in E12, Ep1. destruct E12 as (_ & Eh2), Ep1 as (Ep & _).
  rewrite Ep, Eh2, Habs. simpl. rewrite Habs in H12.
  unfold Py.startswith in *.
  assert (Hh1 : String.prefix "/" h1 = true).
  { apply orb_true_iff in H12. destruct H12 as [E | Hpre].
    - apply String.eqb_eq in E. subst h1. exact Habs.
    - apply (prefix_trans "/" (h2 ++ "/") h1); [|exact Hpre].
      apply prefix_app. exact Habs. }
  rewrite Hh1 in Hp1. apply orb_true_iff in Hp1. apply orb_true_iff.
  destruct Hp1 as [E | Hpre].
  - apply String.eqb_eq in E. subst p. apply orb_true_iff in H12. exact H12.
  - right. apply orb_true_iff in H12. destruct H12 as [E | Hpre2].
    + apply String.eqb_eq in E. subst h1. exact Hpre.
    + apply (prefix_trans _ (h1 ++ "/") _); [|exact Hpre].
      apply prefix_app. exact Hpre2.
Qed.

Lemma cwd_matches_an_enclosing_hint_too_witness :
  cwd_matches "/home/u/proj/web/src" "/home/u/proj" = true.
Proof.
  apply (cwd_matches_an_enclosing_hint_too
           "/home/u/proj/web/src" "/home/u/proj/web" "/home/u/proj");
    reflexivity.
Defined.

(** ** What the pruner removes *)

Lemma fold_left_invariant_in {A B} (P : A -> Prop) (f : A -> B -> A) (l : list B) :
  forall a, (forall a b, In b l -> P a -> P (f a b)) -> P a -> P (fold_left f l a).
Proof.
  induction l as [|b l IH]; intros a Hf Ha; simpl; [exact Ha|].
  apply IH.
  - intros a' b' Hb'. apply Hf. right. exact Hb'.
  - apply Hf; [left; reflexivity | exact Ha].
Qed.

(** X21.  Every [os.remove] of the snapshot pruner is called on a
    [.json] file of a directory of the telemetry root whose session passes
    the session filter, and never on the snapshot of a live pane: the pane
    id in the file's name is empty or is none of the panes the active-pane
    index lists for the session.  In a dry run it is called on nothing. *)
Theorem pruner_removes_no_snapshot_of_a_live_pane :
  forall (tel : option (Listdir SessionDir)) (os : Z -> option (list string))
         (cache : EnvCache) (panes : list (string * list string))
         (active_sessions : list string) (session_filter_active dry : bool) (e : Effect),
    In e (prune_effects (prune_runtime_snapshots tel os cache panes active_sessions
                                                 session_filter_active dry)) ->
    dry = false
    /\ stale_snapshot_removal tel panes active_sessions session_filter_active e.
Proof.
  intros tel os cache panes sessions filtered dry e He. split.
  { destruct dry; [|reflexivity]. rewrite prune_dry in He. destruct He. }
  revert e He. unfold prune_runtime_snapshots.
  destruct tel as [[dirs|]|]; [|intros e []|intros e []].
  apply (fold_left_invariant_in
           (fun st => forall e, In e (prune_effects st) ->
                                stale_snapshot_removal (Some (Entries dirs)) panes sessions
                                                       filtered e));
    [|intros e []].
  intros st d Hd Hst. unfold prune_session.
  destruct (prune_raised st); [exact Hst|].
  destruct (is_dir d) eqn:Edir; [|exact Hst]. simpl negb. cbv iota.
  destruct (filtered && nonempty sessions && negb (Py.str_in (session_name d) sessions))
    eqn:Efilter; [exact Hst|].
  destruct (files d) as [fs|] eqn:Efiles; [|exact Hst].
  apply (fold_left_invariant_in
           (fun st => forall e, In e (prune_effects st) ->
                                stale_snapshot_removal (Some (Entries dirs)) panes sessions
                                                       filtered e));
    [|exact Hst].
  intros st' f Hf Hst'. unfold prune_file.
  destruct (Py.endswith (file_name f) ".json") eqn:Ejson; [|exact Hst']. simpl negb. cbv iota.
  fold (panes_of panes (session_name d)).
  destruct (Py.truthy (Py.strip (Py.drop_last 5 (file_name f)))
            && Py.str_in (Py.strip (Py.drop_last 5 (file_name f)))
                         (panes_of panes (session_name d))) eqn:Elive; [exact Hst'|].
  destruct (snapshot_keep os (session_name d) _ f (prune_cache st')) as [keep cache'].
  destruct keep; [exact Hst'|]. destruct dry; [exact Hst'|].
  assert (Hnew : stale_snapshot_removal (Some (Entries dirs)) panes sessions filtered
                   (OsRemove (session_name d) (file_name f) (remove_succeeds f))).
  { exists dirs, d, fs, f. repeat (split; [first [reflexivity | assumption]|]). split.
    - intros Hfa Hne. rewrite Hfa in Efilter. simpl in Efilter.
      destruct sessions as [|s0 ss]; [congruence|]. simpl in Efilter.
      apply negb_false_iff in Efilter. exact Efilter.
    - apply andb_false_iff in Elive. destruct Elive as [Et | Es]; [left | right; exact Es].
      destruct (Py.strip (Py.drop_last 5 (file_name f))); [reflexivity | discriminate]. }
  destruct (remove_succeeds f) eqn:Eok; simpl; intros e He;
    (apply in_app_or in He; destruct He as [He | [<- | []]]; [exact (Hst' e He) | exact Hnew]).
Qed.

Lemma pruner_removes_no_snapshot_of_a_live_pane_witness :
  let w := Demo.stale_snapshot true in
  prune_effects (prune_runtime_snapshots (telemetry w) (os_environ w) []
                                         (active_panes_by_session w) ["work"] false false)
  = [OsRemove "work" "9.json" true]
  /\ false = false
  /\ stale_snapshot_removal (telemetry w) (active_panes_by_session w) ["work"] false
                            (OsRemove "work" "9.json" true).
Proof.
  split; [reflexivity|].
  apply (pruner_removes_no_snapshot_of_a_live_pane
           (telemetry (Demo.stale_snapshot true)) (os_environ (Demo.stale_snapshot true)) []
           (active_panes_by_session (Demo.stale_snapshot true)) ["work"] false false
           (OsRemove "work" "9.json" true)).
  left. reflexivity.
Defined.

(** ** The lease check *)

Section Lease.
Variable extra_pattern_search : string -> bool.
Variable shlex_split : string -> option (list string).
Variable socket_re_search : string -> option string.

Lemma or_str_empty x : Py.or_str x EmptyString = x.
Proof. destruct x; reflexivity. Qed.

Lemma classify_lease w safe pid info cache proc cache' :
  cache_ok w cache ->
  classify extra_pattern_search shlex_split w safe pid info cache = (Some proc, cache') ->
  c_pid proc = pid
  /\ c_pane_instance_id proc = env_instance w pid
  /\ c_pane_lease_file proc = env_lease_file w pid
  /\ c_pane_instance_match proc
     = lease_check w (env_instance w pid) (env_lease_file w pid).
Proof.
  intros Hok H. unfold classify in H.
  destruct (is_agent_process extra_pattern_search shlex_split (i_args info) (i_comm info));
    [|discriminate].
  destruct (existsb _ PROTECTED_COMMANDS); [discriminate|].
  destruct (existsb _ [" grep "; " pgrep "; " ps "]); [discriminate|].
  destruct (proc_env (os_environ w) pid cache) as [env cache1] eqn:E.
  destruct (proc_env_ok _ _ _ _ _ Hok E) as (He & _). subst env.
  inversion H; subst proc cache'. simpl. rewrite !or_str_empty.
  repeat split.
Qed.

Lemma build_candidates_lease w safe processes :
  forall cache cands cache',
    cache_ok w cache ->
    build_candidates extra_pattern_search shlex_split w safe processes cache
    = (cands, cache') ->
    forall proc,
      In proc cands ->
      c_pane_instance_id proc = env_instance w (c_pid proc)
      /\ c_pane_lease_file proc = env_lease_file w (c_pid proc)
      /\ c_pane_instance_match proc
         = lease_check w (env_instance w (c_pid proc)) (env_lease_file w (c_pid proc)).
Proof.
  induction processes as [|[pid info] rest IH]; intros cache cands cache' Hok H proc Hin;
    simpl in H.
  - inversion H; subst. destruct Hin.
  - destruct (classify extra_pattern_search shlex_split w safe pid info cache)
      as [found cache1] eqn:Ec.
    destruct (build_candidates extra_pattern_search shlex_split w safe rest cache1)
      as [more cache2] eqn:Eb.
    destruct (classify_ok _ _ _ _ _ _ _ _ _ Hok Ec) as (Hok1 & _).
    inversion H; subst cands cache'. clear H.
    destruct found as [p0|]; [destruct Hin as [<- | Hin]|].
    + destruct (classify_lease _ _ _ _ _ _ _ Hok Ec) as (-> & H1 & H2 & H3). auto.
    + exact (IH _ _ _ Hok1 Eb proc Hin).
    + exact (IH _ _ _ Hok1 Eb proc Hin).
Qed.

(** X22.  A candidate is flagged for a lease mismatch exactly when the
    environment of its process names both a pane instance and a lease
    file, and that file cannot be read or its first line, once stripped,
    is not the instance id.  A lease file that is missing or unreadable
    therefore counts as a mismatch. *)
Theorem lease_mismatch_is_an_unreadable_or_foreign_lease :
  forall (g : Globals) (w : World) (r : Report) (proc : Candidate),
    run_cleanup extra_pattern_search shlex_split socket_re_search g w
    = Some (Completed r) ->
    In proc (agent_candidates r) ->
    lease_mismatch proc = true
    <-> env_instance w (c_pid proc) <> EmptyString
        /\ env_lease_file w (c_pid proc) <> EmptyString
        /\ forall line,
            lease_first_line w (env_lease_file w (c_pid proc)) = Some line ->
            Py.strip line <> env_instance w (c_pid proc).
Proof.
  intros g w r proc H Hin.
  destruct (run_cleanup_parts _ _ _ _ _ _ H) as (children & _ & Hc & _).
  destruct (build_candidates extra_pattern_search shlex_split w (safe_pids (r_ctx r))
                             (r_processes r) [])
    as [cands cache0] eqn:Eb.
  simpl in Hc. rewrite Hc in Hin.
  destruct (build_candidates_lease _ _ _ _ _ _ (cache_ok_nil w) Eb proc Hin)
    as (Hid & Hfile & Hmatch).
  unfold lease_mismatch. rewrite Hid, Hmatch. unfold lease_check.
  set (id := env_instance w (c_pid proc)).
  set (file := env_lease_file w (c_pid proc)).
  destruct id as [|a id'] eqn:Eid; simpl.
  { split; [discriminate | intros (Hne & _); contradiction]. }
  destruct file as [|b file'] eqn:Efile; simpl.
  { split; [discriminate | intros (_ & Hne & _); contradiction]. }
  destruct (lease_first_line w (String b file')) as [line|]; simpl.
  - rewrite negb_true_iff. split.
    + intros Hneq. split; [discriminate|]. split; [discriminate|].
      intros line' E. inversion E; subst line'. apply String.eqb_neq. exact Hneq.
    + intros (_ & _ & Hl). apply String.eqb_neq. apply Hl. reflexivity.
  - split; [|reflexivity]. intros _. split; [discriminate|]. split; [discriminate|].
    intros line E. discriminate.
Qed.

End Lease.

Lemma lease_mismatch_is_an_unreadable_or_foreign_lease_witness :
  exists r proc,
    Demo.run Demo.defaults Demo.live_pane_holdover = Some (Completed r)
    /\ first_candidate r = Some proc
    /\ c_pid proc = 300
    /\ (lease_mismatch proc = true
        <-> env_instance Demo.live_pane_holdover (c_pid proc) <> EmptyString
            /\ env_lease_file Demo.live_pane_holdover (c_pid proc) <> EmptyString
            /\ forall line,
                lease_first_line Demo.live_pane_holdover
                                 (env_lease_file Demo.live_pane_holdover (c_pid proc))
                = Some line ->
                Py.strip line <> env_instance Demo.live_pane_holdover (c_pid proc)).
Proof.
  completed_run E r.
  pose proof E as Ev. vm_compute in Ev. injection Ev as Ev. subst r.
  eexists. eexists. split; [reflexivity|]. split; [reflexivity|].
  split; [reflexivity|].
  apply (lease_mismatch_is_an_unreadable_or_foreign_lease
           Demo.no_extra_pattern Demo.shlex_plain Demo.no_socket
           Demo.defaults Demo.live_pane_holdover _ _ E).
  left. reflexivity.
Defined.

(** ** The active-pane index *)

Lemma rstrip_idempotent s : Py.rstrip (Py.rstrip s) = Py.rstrip s.
Proof.
  induction s as [|c r IH]; [reflexivity|]. simpl.
  destruct (Py.rstrip r) as [|d r'] eqn:E.
  - destruct (Py.is_space c) eqn:Ec; [reflexivity|]. simpl. rewrite Ec. reflexivity.
  - change (Py.rstrip (String c (String d r'))) with
      (match Py.rstrip (String d r') with
       | EmptyString => if Py.is_space c then EmptyString else String c EmptyString
       | r0 => String c r0
       end).
    rewrite IH. reflexivity.
Qed.

Lemma rstrip_keeps_head c r :
  Py.is_space c = false -> exists r', Py.rstrip (String c r) = String c r'.
Proof.
  intros Hc. simpl. destruct (Py.rstrip r) as [|d r'].
  - rewrite Hc. eexists. reflexivity.
  - eexists. reflexivity.
Qed.

Lemma lstrip_head s :
  Py.lstrip s = EmptyString
  \/ exists c r, Py.lstrip s = String c r /\ Py.is_space c = false.
Proof.
  induction s as [|c r IH]; [left; reflexivity|]. simpl.
  destruct (Py.is_space c) eqn:E; [exact IH|].
  right. exists c, r. split; [reflexivity | exact E].
Qed.

Lemma strip_idempotent s : Py.strip (Py.strip s) = Py.strip s.
Proof.
  unfold Py.strip. destruct (lstrip_head s) as [E | (c & r & E & Hc)]; rewrite E.
  - reflexivity.
  - destruct (rstrip_keeps_head c r Hc) as [r' E']. rewrite E'.
    simpl Py.lstrip. rewrite Hc. rewrite <- E'. apply rstrip_idempotent.
Qed.

Lemma str_add_in x s y : In y (str_add x s) <-> y = x \/ In y s.
Proof.
  unfold str_add. destruct (Py.str_in x s) eqn:E; simpl; [|intuition].
  apply str_in_In in E. split; [auto | intros [-> | H]; assumption].
Qed.

Lemma str_add_nodup x s : NoDup s -> NoDup (str_add x s).
Proof.
  intros H. unfold str_add. destruct (Py.str_in x s) eqn:E; [exact H|].
  constructor; [|exact H]. intros Hin. apply str_in_In in Hin. congruence.
Qed.

Lemma add_pane_id_trimmed ids x :
  (NoDup ids /\ Forall trimmed_name ids) ->
  NoDup (add_pane_id ids (Py.strip x)) /\ Forall trimmed_name (add_pane_id ids (Py.strip x)).
Proof.
  intros (Hnd & Hall). unfold add_pane_id.
  destruct (Py.truthy (Py.strip x)) eqn:E; [|split; assumption].
  split; [apply str_add_nodup; exact Hnd|].
  apply Forall_forall. intros y Hy. apply str_add_in in Hy.
  destruct Hy as [-> | Hy]; [|rewrite Forall_forall in Hall; exact (Hall y Hy)].
  split; [|apply strip_idempotent]. intros E0. rewrite E0 in E. discriminate.
Qed.

Lemma quoted_pane_id_stripped part pane_id :
  quoted_pane_id part = Some pane_id -> exists x, pane_id = Py.strip x.
Proof.
  unfold quoted_pane_id. destruct (until_quote part) as [[a tail]|]; [|discriminate].
  destruct (until_quote tail) as [[inner b]|]; [|discriminate].
  intros H. inversion H. exists inner. reflexivity.
Qed.

Lemma parse_layout_pane_ids_trimmed text :
  NoDup (parse_layout_pane_ids text) /\ Forall trimmed_name (parse_layout_pane_ids text).
Proof.
  unfold parse_layout_pane_ids.
  assert (H1 : forall groups,
             let ids := fold_left (fun ids g =>
                                     add_pane_id ids (Py.strip (Py.or_str g EmptyString)))
                                  groups [] in
             NoDup ids /\ Forall trimmed_name ids).
  { intros groups.
    apply (fold_left_invariant (fun ids => NoDup ids /\ Forall trimmed_name ids)).
    - intros ids g. apply add_pane_id_trimmed.
    - split; constructor. }
  assert (H2 : forall parts,
             let ids := fold_left (fun ids part =>
                                     match quoted_pane_id part with
                                     | Some pane_id => add_pane_id ids pane_id
                                     | None => ids
                                     end) parts [] in
             NoDup ids /\ Forall trimmed_name ids).
  { intros parts.
    apply (fold_left_invariant (fun ids => NoDup ids /\ Forall trimmed_name ids)).
    - intros ids part Hids. destruct (quoted_pane_id part) as [pane_id|] eqn:E; [|exact Hids].
      destruct (quoted_pane_id_stripped _ _ E) as [x ->].
      apply add_pane_id_trimmed. exact Hids.
    - split; constructor. }
  destruct (nonempty _); [apply H1 | apply H2].
Qed.

Lemma pane_ids_trimmed_aux text :
  NoDup (parse_layout_pane_ids text)
  /\ forall pane_id, In pane_id (parse_layout_pane_ids text) ->
                     pane_id <> EmptyString /\ Py.strip pane_id = pane_id.
Proof.
  destruct (parse_layout_pane_ids_trimmed text) as (Hnd & Hall).
  split; [exact Hnd|]. intros pane_id Hin. rewrite Forall_forall in Hall.
  exact (Hall pane_id Hin).
Qed.

(** X23.  [parse_layout_pane_ids] returns pane ids without repetition,
    none of them empty and none with a blank at either end, whether they
    were found by the pattern or by the quote-by-quote scan that replaces
    it when the pattern finds nothing. *)
Theorem pane_ids_of_a_layout_are_trimmed_and_distinct :
  forall (text : string),
    NoDup (parse_layout_pane_ids text)
    /\ forall pane_id, In pane_id (parse_layout_pane_ids text) ->
                       pane_id <> EmptyString /\ Py.strip pane_id = pane_id.
Proof.
  exact pane_ids_trimmed_aux.
Qed.

Example pane_ids_by_the_pattern :
  parse_layout_pane_ids
    ("args " ++ String DQ "--pane-id" ++ String DQ " " ++ String DQ " 3 " ++ String DQ " "
     ++ String DQ "--pane-id" ++ String DQ " " ++ String DQ "12" ++ String DQ "")
  = ["12"; "3"].
Proof. reflexivity. Qed.

Example pane_ids_by_the_scan :
  parse_layout_pane_ids
    ("--pane-id" ++ String DQ ", " ++ String DQ "7" ++ String DQ "")
  = ["7"].
Proof. reflexivity. Qed.

Lemma record_panes_in text session pane_map s ids :
  In (s, ids) (record_panes text session pane_map) ->
  (s = session /\ ids = parse_layout_pane_ids text /\ ids <> [])
  \/ In (s, ids) pane_map.
Proof.
  unfold record_panes. destruct (negb (Py.truthy text)); [auto|].
  destruct (parse_layout_pane_ids text) as [|i0 more] eqn:E; simpl; [auto|].
  intros H. apply assoc_set_in in H. destruct H as [(-> & ->) | H]; [left | right; exact H].
  split; [reflexivity|]. split; [reflexivity | discriminate].
Qed.

(** X24.  The active-pane index [build_active_pane_map] returns never
    holds a session without panes: every session in it has at least one
    pane id, each of them not empty and free of blanks at its ends.  The
    session is allowed by the filter when there is one, and is a listed
    session, or else the current session, which is used when no listed
    session is left. *)
Theorem active_pane_map_holds_sessions_with_live_panes :
  forall (environ : Env) (sessions : list string) (zellij_dump : option string -> string)
         (allowed_sessions : option (list string)) (session : string)
         (pane_ids : list string),
    In (session, pane_ids)
       (build_active_pane_map environ sessions zellij_dump allowed_sessions) ->
    pane_ids <> []
    /\ (forall pane_id, In pane_id pane_ids ->
                        pane_id <> EmptyString /\ Py.strip pane_id = pane_id)
    /\ (forall allowed, allowed_sessions = Some allowed -> In session allowed)
    /\ (In session sessions
        \/ (session = get_current_session environ /\ session <> EmptyString)).
Proof.
  intros environ sessions dump allowed session pane_ids H.
  assert (Hids : forall text, pane_ids = parse_layout_pane_ids text ->
                              forall pane_id, In pane_id pane_ids ->
                                              pane_id <> EmptyString
                                              /\ Py.strip pane_id = pane_id).
  { intros text -> pane_id Hin.
    exact (proj2 (pane_ids_trimmed_aux text) pane_id Hin). }
  unfold build_active_pane_map in H.
  set (chosen := match allowed with
                 | Some a => filter (fun s => Py.str_in s a) sessions
                 | None => sessions
                 end) in *.
  assert (Hchosen : forall s, In s chosen ->
                              In s sessions
                              /\ forall a, allowed = Some a -> In s a).
  { intros s Hs. unfold chosen in Hs. destruct allowed as [a|].
    - apply filter_In in Hs. destruct Hs as (Hs & Ha). apply str_in_In in Ha.
      split; [exact Hs|]. intros a' E. inversion E; subst. exact Ha.
    - split; [exact Hs | intros a' E; discriminate]. }
  destruct (nonempty chosen).
  - revert H.
    apply (fold_left_invariant_in
             (fun pane_map =>
                In (session, pane_ids) pane_map ->
                pane_ids <> []
                /\ (forall pane_id, In pane_id pane_ids ->
                                    pane_id <> EmptyString /\ Py.strip pane_id = pane_id)
                /\ (forall a, allowed = Some a -> In session a)
                /\ (In session sessions
                    \/ (session = get_current_session environ
                        /\ session <> EmptyString))));
      [|intros []].
    intros pane_map s Hs Hpm Hin. apply record_panes_in in Hin.
    destruct Hin as [(-> & Eids & Hne) | Hin]; [|exact (Hpm Hin)].
    destruct (Hchosen s Hs) as (Hlisted & Hallowed).
    split; [exact Hne|]. split; [exact (Hids _ Eids)|]. split; [exact Hallowed|].
    left. exact Hlisted.
  - assert (Hcurr : forall text,
               Py.truthy (get_current_session environ) = true ->
               (forall a, allowed = Some a -> In (get_current_session environ) a) ->
               In (session, pane_ids) (record_panes text (get_current_session environ) []) ->
               pane_ids <> []
               /\ (forall pane_id, In pane_id pane_ids ->
                                   pane_id <> EmptyString /\ Py.strip pane_id = pane_id)
               /\ (forall a, allowed = Some a -> In session a)
               /\ (In session sessions
                   \/ (session = get_current_session environ /\ session <> EmptyString))).
    { intros text Ht Ha Hin. apply record_panes_in in Hin.
      destruct Hin as [(-> & Eids & Hne) | []].
      split; [exact Hne|]. split; [exact (Hids _ Eids)|]. split; [exact Ha|].
      right. split; [reflexivity|]. intros E. rewrite E in Ht. discriminate. }
    destruct allowed as [a|].
    + destruct (Py.truthy (get_current_session environ)) eqn:Et; [|destruct H].
      destruct (Py.str_in (get_current_session environ) a) eqn:Ea; [|destruct H].
      simpl in H. apply (Hcurr _ eq_refl) in H; [exact H|].
      intros a' E. inversion E; subst. apply str_in_In. exact Ea.
    + destruct (Py.truthy (get_current_session environ)) eqn:Et; [|destruct H].
      destruct (Py.truthy (dump_layout dump None)); [|destruct H].
      simpl in H. apply (Hcurr _ eq_refl) in H; [exact H|].
      intros a' E. discriminate.
Qed.

Lemma active_pane_map_holds_sessions_with_live_panes_witness :
  let dump := fun session : option string =>
                ("pane command=zsh { args " ++ String DQ "--pane-id" ++ String DQ " "
                 ++ String DQ "3" ++ String DQ " }")%string in
  build_active_pane_map [] ["work"] dump None = [("work", ["3"])]
  /\ ["3"] <> []
  /\ (forall pane_id, In pane_id ["3"] ->
                      pane_id <> EmptyString /\ Py.strip pane_id = pane_id)
  /\ (forall allowed, @None (list string) = Some allowed -> In "work" allowed)
  /\ (In "work" ["work"]
      \/ ("work" = get_current_session [] /\ "work" <> EmptyString)).
Proof.
  split; [reflexivity|].
  apply (active_pane_map_holds_sessions_with_live_panes
           [] ["work"]
           (fun session : option string =>
              ("pane command=zsh { args " ++ String DQ "--pane-id" ++ String DQ " "
               ++ String DQ "3" ++ String DQ " }")%string)
           None "work" ["3"]).
  left. reflexivity.
Defined.

(** ** The listed sessions *)

Lemma free_of_blanks_snoc cur c :
  free_of_blanks cur = true -> Py.is_space c = false ->
  free_of_blanks (cur ++ String c EmptyString) = true.
Proof.
  unfold free_of_blanks. intros Hcur Hc.
  induction cur as [|a cur IH]; simpl in *.
  - rewrite Hc. reflexivity.
  - apply andb_true_iff in Hcur. destruct Hcur as (Ha & Hcur).
    rewrite Ha, (IH Hcur). reflexivity.
Qed.

Lemma split_ws_first_word s : forall maxcount cur inword,
  (inword = true -> cur <> EmptyString /\ free_of_blanks cur = true) ->
  (inword = false -> (1 <= maxcount)%nat) ->
  match Py.split_ws_go s maxcount cur inword with
  | first :: _ => first <> EmptyString /\ free_of_blanks first = true
  | [] => True
  end.
Proof.
  induction s as [|c r IH]; intros maxcount cur inword Hin Hout; simpl.
  - destruct inword; [exact (Hin eq_refl) | exact I].
  - destruct inword.
    + destruct (Py.is_space c) eqn:Ec; [exact (Hin eq_refl)|].
      apply IH; [|discriminate]. intros _. destruct (Hin eq_refl) as (Hne & Hfree).
      split; [destruct cur; discriminate | exact (free_of_blanks_snoc _ _ Hfree Ec)].
    + destruct (Py.is_space c) eqn:Ec; [apply IH; [discriminate | exact Hout]|].
      destruct maxcount as [|m]; [specialize (Hout eq_refl); lia|].
      apply IH; [|discriminate]. intros _. split; [discriminate|].
      unfold free_of_blanks. simpl. rewrite Ec. reflexivity.
Qed.

Lemma lstrip_free s : free_of_blanks s = true -> Py.lstrip s = s.
Proof.
  destruct s as [|c r]; [reflexivity|]. unfold free_of_blanks. simpl.
  intros H. apply andb_true_iff in H. destruct H as (Hc & _).
  apply negb_true_iff in Hc. rewrite Hc. reflexivity.
Qed.

Lemma rstrip_free s : free_of_blanks s = true -> Py.rstrip s = s.
Proof.
  unfold free_of_blanks. induction s as [|c r IH]; [reflexivity|]. simpl.
  intros H. apply andb_true_iff in H. destruct H as (Hc & Hr).
  apply negb_true_iff in Hc. rewrite (IH Hr), Hc. destruct r; reflexivity.
Qed.

Lemma free_of_blanks_trimmed s :
  s <> EmptyString -> free_of_blanks s = true -> trimmed_name s.
Proof.
  intros Hne Hfree. split; [exact Hne|].
  unfold Py.strip. rewrite (lstrip_free _ Hfree). exact (rstrip_free _ Hfree).
Qed.

Lemma short_names_trimmed out : Forall trimmed_name (short_names out).
Proof.
  unfold short_names. apply Forall_forall. intros name Hin.
  apply filter_In in Hin. destruct Hin as (Hin & Ht).
  apply in_map_iff in Hin. destruct Hin as (line & <- & _).
  split; [|apply strip_idempotent]. intros E. rewrite E in Ht. discriminate.
Qed.

Lemma first_word_trimmed line : Forall trimmed_name (first_word line).
Proof.
  unfold first_word.
  destruct (Py.strip (ansi_sub line)) as [|c cleaned] eqn:E; simpl negb; cbv iota;
    [constructor|].
  pose proof (split_ws_first_word (String c cleaned) (String.length (String c cleaned))
                                  EmptyString false) as H.
  unfold Py.split_ws.
  destruct (Py.split_ws_go (String c cleaned) (String.length (String c cleaned))
                           EmptyString false) as [|first rest]; [constructor|].
  constructor; [|constructor].
  destruct H as (Hne & Hfree); [discriminate | simpl; lia |].
  exact (free_of_blanks_trimmed _ Hne Hfree).
Qed.

(** X25.  Every session name [list_sessions] returns is a non-empty
    string with no blank at either end, whether it comes from the short
    listing or, when that gives no name, from the first word of a line of
    the full listing with its colour codes removed; and the full listing
    is looked at only when the short one gives no name. *)
Theorem listed_session_names_are_trimmed :
  forall (short_out full_out : string),
    (forall name, In name (list_sessions short_out full_out) ->
                  name <> EmptyString /\ Py.strip name = name)
    /\ (short_names short_out <> [] ->
        list_sessions short_out full_out = short_names short_out).
Proof.
  intros short_out full_out. split.
  - assert (H : Forall trimmed_name (list_sessions short_out full_out)).
    { unfold list_sessions.
      assert (Hnames : Forall trimmed_name
                              (if Py.truthy short_out then short_names short_out else []))
        by (destruct (Py.truthy short_out); [apply short_names_trimmed | constructor]).
      destruct (Py.truthy short_out && nonempty _); [exact Hnames|].
      destruct (negb (Py.truthy full_out)); [exact Hnames|].
      apply Forall_app. split; [exact Hnames|].
      apply Forall_forall. intros name Hin. apply in_flat_map in Hin.
      destruct Hin as (line & _ & Hin).
      pose proof (first_word_trimmed line) as Hl. rewrite Forall_forall in Hl.
      exact (Hl name Hin). }
    rewrite Forall_forall in H. exact H.
  - intros Hne. unfold list_sessions.
    destruct short_out as [|c r]; [exfalso; apply Hne; reflexivity|].
    simpl Py.truthy. cbv iota.
    destruct (short_names (String c r)); [exfalso; apply Hne; reflexivity | reflexivity].
Qed.

Example sessions_of_the_full_listing :
  list_sessions
    EmptyString
    (String ESC "[32;1mwork" ++ String ESC "[m [Created 2h ago]" ++ Demo.LF
     ++ "play (current)" ++ Demo.LF)
  = ["work"; "play"].
Proof. reflexivity. Qed.

(** ** Layout directories *)

(** X26.  With a projects base that is absent, empty or absolute,
    [normalize_cwd] changes nothing when applied again to its own result;
    with an absolute one, every directory that is not empty comes out
    absolute, so that [cwd_matches] compares it by prefix. *)
Theorem normalize_cwd_settles :
  forall (projects_base : option string),
    (forall base, projects_base = Some base ->
                  base = EmptyString \/ Py.startswith base "/" = true) ->
    (forall cwd,
        normalize_cwd (normalize_cwd cwd projects_base) projects_base
        = normalize_cwd cwd projects_base)
    /\ (forall cwd base,
           projects_base = Some base -> base <> EmptyString -> cwd <> EmptyString ->
           Py.startswith (normalize_cwd cwd projects_base) "/" = true).
Proof.
  intros pb Hpb.
  assert (Hjoin : forall base cwd,
             Py.startswith base "/" = true -> Py.startswith cwd "/" = false ->
             Py.startswith (path_join base cwd) "/" = true).
  { intros base cwd Hb Hc. unfold path_join. rewrite Hc. unfold Py.startswith in *.
    destruct (negb (Py.truthy base) || Py.endswith base "/"); apply prefix_app; exact Hb. }
  split.
  - intros cwd. unfold normalize_cwd at 2 3.
    destruct (Py.truthy cwd) eqn:Et; simpl negb; cbv iota; [|reflexivity].
    destruct (Py.startswith cwd "/") eqn:Ea.
    + unfold normalize_cwd. rewrite Et, Ea. reflexivity.
    + destruct pb as [base|].
      * destruct (Hpb base eq_refl) as [-> | Hb].
        -- simpl Py.truthy. cbv iota. unfold normalize_cwd. rewrite Et, Ea. reflexivity.
        -- destruct (Py.truthy base) eqn:Eb.
           ++ unfold normalize_cwd. rewrite (Hjoin _ _ Hb Ea).
              destruct (path_join base cwd); reflexivity.
           ++ unfold normalize_cwd. rewrite Et, Ea, Eb. reflexivity.
      * unfold normalize_cwd. rewrite Et, Ea. reflexivity.
  - intros cwd base -> Hbase Hcwd. unfold normalize_cwd.
    apply truthy_true in Hcwd. rewrite Hcwd. simpl negb. cbv iota.
    destruct (Py.startswith cwd "/") eqn:Ea; [exact Ea|].
    apply truthy_true in Hbase. rewrite Hbase.
    destruct (Hpb base eq_refl) as [-> | Hb]; [discriminate|].
    exact (Hjoin _ _ Hb Ea).
Qed.

Lemma normalize_cwd_settles_witness :
  normalize_cwd "web/src" (Some "/home/u/dev") = "/home/u/dev/web/src"
  /\ (forall cwd,
         normalize_cwd (normalize_cwd cwd (Some "/home/u/dev")) (Some "/home/u/dev")
         = normalize_cwd cwd (Some "/home/u/dev"))
  /\ (forall cwd base,
         Some "/home/u/dev" = Some base -> base <> EmptyString -> cwd <> EmptyString ->
         Py.startswith (normalize_cwd cwd (Some "/home/u/dev")) "/" = true).
Proof.
  split; [reflexivity|].
  apply (normalize_cwd_settles (Some "/home/u/dev")).
  intros base E. inversion E. right. reflexivity.
Defined.

(** X27.  When [AOC_PROJECTS_BASE] is not set and the configuration file
    cannot be opened, [detect_projects_base] returns the empty string,
    without looking for the [dev] directory of the home directory or
    falling back on the home directory; [normalize_cwd] then leaves every
    directory of a layout as it is written there. *)
Theorem unreadable_config_gives_no_projects_base :
  forall (environ : Env) (home : string) (read_config : string -> ConfigRead)
         (isdir : string -> bool),
    env_get environ "AOC_PROJECTS_BASE" = EmptyString ->
    (forall path, read_config path = ConfigUnreadable) ->
    detect_projects_base environ home read_config isdir = EmptyString
    /\ forall cwd,
        normalize_cwd cwd (Some (detect_projects_base environ home read_config isdir)) = cwd.
Proof.
  intros environ home read_config isdir Henv Hread.
  assert (E : detect_projects_base environ home read_config isdir = EmptyString).
  { unfold detect_projects_base. rewrite Henv, Hread. reflexivity. }
  split; [exact E|]. intros cwd. rewrite E. unfold normalize_cwd.
  destruct cwd as [|c r]; [reflexivity|]. cbn [Py.truthy negb].
  destruct (Py.startswith (String c r) "/"); reflexivity.
Qed.

Lemma unreadable_config_gives_no_projects_base_witness :
  detect_projects_base [("HOME", "/home/u")] "/home/u" (fun _ => ConfigUnreadable)
                       (fun _ => true) = EmptyString
  /\ forall cwd,
      normalize_cwd cwd (Some (detect_projects_base [("HOME", "/home/u")] "/home/u"
                                                    (fun _ => ConfigUnreadable)
                                                    (fun _ => true))) = cwd.
Proof.
  apply (unreadable_config_gives_no_projects_base
           [("HOME", "/home/u")] "/home/u" (fun _ => ConfigUnreadable) (fun _ => true));
    reflexivity.
Defined.

(** With a configuration file that is read to its end and assigns no
    projects base, the [dev] directory of the home directory is the base. *)
Example projects_base_guess :
  detect_projects_base [] "/home/u"
                       (fun _ => ConfigLines ["[ui]" ++ Demo.LF; "theme = dark" ++ Demo.LF] false)
                       (fun _ => true)
  = "/home/u/dev".
Proof. reflexivity. Qed.

(** ** Agent commands *)

(** X28.  A command that [is_real_agent_command] accepts is an agent
    process for [is_agent_process] when it stands as the arguments of a
    process, whatever the name of the process. *)
Theorem real_agent_command_is_an_agent_process :
  forall (extra_pattern_search : string -> bool)
         (shlex_split : string -> option (list string)) (cmd comm : string),
    is_real_agent_command extra_pattern_search cmd = true ->
    is_agent_process extra_pattern_search shlex_split cmd comm = true.
Proof.
  intros extra shlex cmd comm H. unfold is_real_agent_command in H.
  destruct (negb (Py.truthy cmd)); [discriminate|].
  destruct (Py.str_in (Py.basename cmd) _); [discriminate|].
  unfold is_agent_process. rewrite H.
  destruct (is_agent_binary _); [reflexivity|].
  destruct (String.eqb comm "node" && Py.contains "opencode" cmd); reflexivity.
Qed.

Lemma real_agent_command_is_an_agent_process_witness :
  is_agent_process Demo.no_extra_pattern Demo.shlex_plain "/usr/bin/claude" "node" = true.
Proof.
  apply (real_agent_command_is_an_agent_process
           Demo.no_extra_pattern Demo.shlex_plain "/usr/bin/claude" "node").
  reflexivity.
Defined.

(** ** The root of a pane group *)

Lemma rank_lt_spec a b :
  rank_lt a b = true
  <-> fst (fst a) < fst (fst b)
      \/ (fst (fst a) = fst (fst b)
          /\ (snd (fst a) < snd (fst b)
              \/ (snd (fst a) = snd (fst b) /\ snd a < snd b))).
Proof.
  destruct a as [[a1 a2] a3], b as [[b1 b2] b3]. unfold rank_lt. simpl.
  rewrite !orb_true_iff, !andb_true_iff, !orb_true_iff, !andb_true_iff,
    !Z.ltb_lt, !Z.eqb_eq.
  reflexivity.
Qed.

Lemma rank_lt_false a b :
  rank_lt a b = false
  <-> ~ (fst (fst a) < fst (fst b)
         \/ (fst (fst a) = fst (fst b)
             /\ (snd (fst a) < snd (fst b)
                 \/ (snd (fst a) = snd (fst b) /\ snd a < snd b)))).
Proof.
  rewrite <- rank_lt_spec. destruct (rank_lt a b); split; congruence.
Qed.

Lemma insert_by_rank x l :
  StronglySorted rank_le l ->
  StronglySorted rank_le
    (Py.insert_stable (fun a b => rank_lt (root_rank a) (root_rank b)) x l).
Proof.
  induction 1 as [|y r Hr IH Hy]; cbn [Py.insert_stable].
  - constructor; constructor.
  - destruct (rank_lt (root_rank x) (root_rank y)) eqn:E.
    + constructor; [constructor; assumption|].
      apply rank_lt_spec in E.
      constructor.
      * unfold rank_le. apply rank_lt_false. lia.
      * eapply Forall_impl; [|exact Hy]. unfold rank_le. intros z Hz.
        apply rank_lt_false in Hz. apply rank_lt_false. lia.
    + constructor; [exact IH|].
      apply Forall_forall. intros z Hz. apply insert_stable_in in Hz.
      destruct Hz as [-> | Hz]; [exact E|].
      rewrite Forall_forall in Hy. exact (Hy z Hz).
Qed.

Lemma sort_by_rank_sorted l :
  StronglySorted rank_le
    (Py.sort_stable (fun a b => rank_lt (root_rank a) (root_rank b)) l).
Proof.
  unfold Py.sort_stable. apply fold_left_invariant; [|constructor].
  intros acc x. apply insert_by_rank.
Qed.

(** X29.  The root selected for a pane group is a member of its
    preferred pool (the members with a terminal if there are any, else
    those whose parent is outside the group if there are any, else all)
    and no member of the pool ranks before it: so it has a terminal
    whenever a member has one, and otherwise its parent is outside the
    group whenever that is so for a member. *)
Theorem selected_root_is_first_of_the_preferred_pool :
  forall (procs : list Candidate) (entry : SelectedRoot),
    select_root procs = Some entry ->
    In (sel_proc entry) (preferred_pool procs)
    /\ (forall p, In p (preferred_pool procs) ->
                  rank_lt (root_rank p) (root_rank (sel_proc entry)) = false)
    /\ (existsb c_has_tty procs = true -> c_has_tty (sel_proc entry) = true)
    /\ (existsb c_has_tty procs = false ->
        existsb (fun p => negb (pid_in (c_ppid p) (map c_pid procs))) procs = true ->
        pid_in (c_ppid (sel_proc entry)) (map c_pid procs) = false).
Proof.
  intros procs entry H. unfold select_root in H. fold (preferred_pool procs) in H.
  pose proof (sort_by_rank_sorted (preferred_pool procs)) as Hsorted.
  destruct (Py.sort_stable _ (preferred_pool procs)) as [|first rest] eqn:E;
    [discriminate|].
  inversion H; subst entry. clear H. cbn [sel_proc].
  assert (Hin : forall p, In p (preferred_pool procs) <-> In p (first :: rest)).
  { intros p. rewrite <- E. symmetry. apply sort_stable_in. }
  assert (Hfirst : In first (preferred_pool procs)) by (apply Hin; left; reflexivity).
  assert (Hfilter : forall (P : Candidate -> bool),
             existsb P procs = true -> nonempty (filter P procs) = true).
  { intros P Hex. apply existsb_exists in Hex. destruct Hex as (x & Hx & HP).
    assert (Hf : In x (filter P procs)) by (apply filter_In; auto).
    destruct (filter P procs); [destruct Hf | reflexivity]. }
  assert (Hnone : forall (P : Candidate -> bool),
             existsb P procs = false -> filter P procs = []).
  { intros P Hex. destruct (filter P procs) as [|x l] eqn:Ef; [reflexivity|].
    assert (Hf : In x (filter P procs)) by (rewrite Ef; left; reflexivity).
    apply filter_In in Hf. destruct Hf as (Hx & HP).
    assert (existsb P procs = true) by (apply existsb_exists; exists x; auto).
    congruence. }
  split; [exact Hfirst|]. split; [|split].
  - intros p Hp. apply Hin in Hp. destruct Hp as [<- | Hp].
    + apply rank_lt_false. lia.
    + inversion Hsorted as [|? ? _ Hall]; subst.
      rewrite Forall_forall in Hall. exact (Hall p Hp).
  - intros Htty. unfold preferred_pool in Hfirst.
    rewrite (Hfilter _ Htty) in Hfirst. apply filter_In in Hfirst. tauto.
  - intros Htty Hroot. unfold preferred_pool in Hfirst.
    rewrite (Hnone _ Htty) in Hfirst. simpl nonempty in Hfirst. cbv iota in Hfirst.
    rewrite (Hfilter _ Hroot) in Hfirst. apply filter_In in Hfirst.
    destruct Hfirst as (_ & Hf). apply negb_true_iff in Hf. exact Hf.
Qed.

Lemma selected_root_is_first_of_the_preferred_pool_witness :
  let procs := [pane_candidate 10 1 "work" "3" "?"; pane_candidate 11 10 "work" "3" "pts/4";
                pane_candidate 12 11 "work" "3" "pts/4"] in
  option_map (fun entry => c_pid (sel_proc entry)) (select_root procs) = Some 12
  /\ exists entry,
      select_root procs = Some entry
      /\ In (sel_proc entry) (preferred_pool procs)
      /\ (forall p, In p (preferred_pool procs) ->
                    rank_lt (root_rank p) (root_rank (sel_proc entry)) = false)
      /\ (existsb c_has_tty procs = true -> c_has_tty (sel_proc entry) = true)
      /\ (existsb c_has_tty procs = false ->
          existsb (fun p => negb (pid_in (c_ppid p) (map c_pid procs))) procs = true ->
          pid_in (c_ppid (sel_proc entry)) (map c_pid procs) = false).
Proof.
  split; [reflexivity|]. eexists. split; [reflexivity|].
  apply (selected_root_is_first_of_the_preferred_pool
           [pane_candidate 10 1 "work" "3" "?"; pane_candidate 11 10 "work" "3" "pts/4";
            pane_candidate 12 11 "work" "3" "pts/4"]).
  reflexivity.
Defined.

(** ** Pane-strict mode *)

Section Strict.
Variable extra_pattern_search : string -> bool.
Variable shlex_split : string -> option (list string).
Variable socket_re_search : string -> option string.

(** X30.  In pane-strict mode with layout evidence a candidate is spared
    for four reasons only: its session is outside the session filter, it
    sits in a live pane, it is in the keep tree, or it is too young.
    Membership in [safe_pids], an active session, a matching command or a
    matching directory spare nothing, and a pane miss is never merely
    counted. *)
Theorem strict_mode_spares_for_pane_keep_tree_filter_or_youth :
  forall (g : Globals) (w : World) (r : Report) (proc : Candidate) (v : Verdict),
    run_cleanup extra_pattern_search shlex_split socket_re_search g w
    = Some (Completed r) ->
    strict_with_evidence (r_ctx r) = true ->
    In (proc, v) (decisions r) ->
    strict_verdict v = true
    /\ (v = RetainKeepTree -> pid_in (c_pid proc) (keep_tree (r_ctx r)) = true)
    /\ (v = RetainActivePane ->
        proc_matches_active_pane proc (active_panes_by_session w) = true)
    /\ (v = SkipYoung -> 0 < min_process_age_secs g /\ too_young g proc = true).
Proof.
  intros g w r proc v H Hstrict Hin.
  destruct (run_cleanup_completed _ _ _ _ _ _ H) as (_ & _ & _ & _ & Hd & _).
  rewrite Hd in Hin. apply in_map_iff in Hin. destruct Hin as (p & E & _).
  inversion E; subst p v. clear E. unfold verdict_of. rewrite Hstrict.
  simpl negb. rewrite !andb_false_r. cbv iota.
  destruct (session_excluded (r_ctx r) proc); [repeat split; discriminate|].
  destruct (lease_mismatch proc); [repeat split; discriminate|].
  destruct (proc_matches_active_pane proc (active_panes_by_session w));
    [repeat split; discriminate|].
  destruct (pane_miss w proc); [repeat split; discriminate|].
  destruct (pid_in (c_pid proc) (keep_tree (r_ctx r))); [repeat split; discriminate|].
  destruct ((0 <? min_process_age_secs g) && too_young g proc) eqn:Ey;
    [|repeat split; discriminate].
  apply andb_true_iff in Ey. destruct Ey as (E0 & Ey). apply Z.ltb_lt in E0.
  repeat split; try discriminate; assumption.
Qed.

End Strict.

Lemma strict_mode_spares_for_pane_keep_tree_filter_or_youth_witness :
  let w := with_environ [("AOC_CLEANUP_PANE_STRICT", "1")] Demo.live_pane in
  exists r proc v,
    Demo.run Demo.defaults w = Some (Completed r)
    /\ hd_error (decisions r) = Some (proc, v)
    /\ c_pid proc = 300
    /\ v = RetainActivePane
    /\ strict_verdict v = true
    /\ (v = RetainKeepTree -> pid_in (c_pid proc) (keep_tree (r_ctx r)) = true)
    /\ (v = RetainActivePane ->
        proc_matches_active_pane proc (active_panes_by_session w) = true)
    /\ (v = SkipYoung ->
        0 < min_process_age_secs Demo.defaults /\ too_young Demo.defaults proc = true).
Proof.
  intros w. subst w. completed_run E r.
  pose proof E as Ev. vm_compute in Ev. injection Ev as Ev. subst r.
  eexists. eexists. eexists. split; [reflexivity|]. split; [reflexivity|].
  split; [reflexivity|]. split; [reflexivity|].
  eapply (strict_mode_spares_for_pane_keep_tree_filter_or_youth
            Demo.no_extra_pattern Demo.shlex_plain Demo.no_socket
            Demo.defaults (with_environ [("AOC_CLEANUP_PANE_STRICT", "1")] Demo.live_pane)
            _ _ _ E);
    [reflexivity | left; reflexivity].
Defined.
